(** * Wiqnnc_ window manager: the window registry of [src/index.js]

    A shallow embedding of the window-management core of [src/index.js]
    (lines 15-36 for [state], 72-92 for [APP_DEFINITIONS], 218-634 for the
    window functions, 881-950 for [openApp] and [toggleDockVisibility]).

    The JavaScript code mutates one global [state] object and the records
    stored in [state.windows]; here every function takes the state and
    returns the new one.  What the browser supplies (the clock, the random
    numbers, measured layout, pointer coordinates) is an explicit argument.

    How the code is read:
    - window ids are the strings the code builds, [`${baseAppId}-${Date.now()}`];
    - [state.windows] is the list of its records in insertion order;
    - pixel values are integers, and each product with [Math.random()] is an
      input of the call that uses it;
    - the callback that [closeWindow] hands to [window.setTimeout] is an
      event of its own, enabled while its timer is pending;
    - the closures that a mouse-down stores in [document.onmousemove] and
      [document.onmouseup] are a [Session] kept in the state; the record a
      closure captured is looked up by its id when the closure runs;
    - the window body, the state of the collaborators
      ([appSpecificState]), CSS transitions, the shake gesture and drags of
      desktop icons never reach the fields modelled here and are left out;
    - the Window menu and the dock are views: functions of the state that
      return what [updateWindowMenu] and [renderDock] draw.

    The later sections embed the callers of the window functions (menu
    actions, keyboard shortcuts) and the small state machines of the
    desktop and of the bundled apps. *)

From Stdlib Require Import ZArith List String Ascii Bool Lia DecimalString.
Import ListNotations.

Open Scope string_scope.
Open Scope Z_scope.

(** ** CSS lengths

    The four geometry properties of a window element are CSS strings.  The
    code only ever writes three shapes of string into them; [Css] lists the
    shapes and [render] gives back the string. *)

Inductive Css : Type :=
| CssNone                          (* the property was never written *)
| CssPx (n : Z)                    (* `${n}px` *)
| CssCalcVw (pct : Z) (off : Z)    (* `calc(${pct}vw + ${off}px)` *)
| CssCalcVh (pct : Z) (off : Z).   (* `calc(${pct}vh + ${off}px)` *)

Definition showZ (n : Z) : string := NilZero.string_of_int (Z.to_int n).

Definition showOffset (off : Z) : string :=
  (if Z.ltb off 0 then " - " ++ showZ (Z.opp off) ++ "px" else " + " ++ showZ off ++ "px")%string.

Definition render (c : Css) : string :=
  match c with
  | CssNone => ""
  | CssPx n => showZ n ++ "px"
  | CssCalcVw pct off => "calc(" ++ showZ pct ++ "vw" ++ showOffset off ++ ")"
  | CssCalcVh pct off => "calc(" ++ showZ pct ++ "vh" ++ showOffset off ++ ")"
  end%string.

(** The pixel value of a length, when it is a plain pixel length. *)
Definition pxOf (c : Css) : option Z :=
  match c with CssPx n => Some n | _ => None end.

(** [originalPosition] and [element.style]: top, left, width, height. *)
Record Geometry : Type := mkGeometry {
  top : Css;
  left : Css;
  width : Css;
  height : Css
}.

(** ** Window records *)

Inductive SnapPosition : Type := SnapLeft | SnapRight | SnapTop.

(** The part of the DOM element of a window that the window functions read
    or write: the inline geometry and three CSS classes. *)
Record Element : Type := mkElement {
  style : Geometry;
  classMaximized : bool;
  classMinimized : bool;
  classFocused : bool
}.

(** [AppWindow], as declared in [src/index.tsx] lines 15-30 and built in
    [createWindow].  The optional fields [isMaximized], [isSnapping] and
    [originalPosition] start out undefined: [false], [None], [None]. *)
Record AppWindow : Type := mkAppWindow {
  id : string;
  baseAppId : string;
  title : string;
  element : Element;
  isMinimized : bool;
  isOpen : bool;
  zIndex : Z;
  originalPosition : option Geometry;
  isMaximized : bool;
  isSnapping : option SnapPosition
}.

(** Field assignments [windowData.f = v]. *)
Definition set_element (e : Element) (w : AppWindow) : AppWindow :=
  mkAppWindow (id w) (baseAppId w) (title w) e (isMinimized w) (isOpen w)
    (zIndex w) (originalPosition w) (isMaximized w) (isSnapping w).
Definition set_isMinimized (b : bool) (w : AppWindow) : AppWindow :=
  mkAppWindow (id w) (baseAppId w) (title w) (element w) b (isOpen w)
    (zIndex w) (originalPosition w) (isMaximized w) (isSnapping w).
Definition set_isOpen (b : bool) (w : AppWindow) : AppWindow :=
  mkAppWindow (id w) (baseAppId w) (title w) (element w) (isMinimized w) b
    (zIndex w) (originalPosition w) (isMaximized w) (isSnapping w).
Definition set_zIndex (z : Z) (w : AppWindow) : AppWindow :=
  mkAppWindow (id w) (baseAppId w) (title w) (element w) (isMinimized w) (isOpen w)
    z (originalPosition w) (isMaximized w) (isSnapping w).
Definition set_originalPosition (g : option Geometry) (w : AppWindow) : AppWindow :=
  mkAppWindow (id w) (baseAppId w) (title w) (element w) (isMinimized w) (isOpen w)
    (zIndex w) g (isMaximized w) (isSnapping w).
Definition set_isMaximized (b : bool) (w : AppWindow) : AppWindow :=
  mkAppWindow (id w) (baseAppId w) (title w) (element w) (isMinimized w) (isOpen w)
    (zIndex w) (originalPosition w) b (isSnapping w).
Definition set_isSnapping (p : option SnapPosition) (w : AppWindow) : AppWindow :=
  mkAppWindow (id w) (baseAppId w) (title w) (element w) (isMinimized w) (isOpen w)
    (zIndex w) (originalPosition w) (isMaximized w) p.

(** Assignments to the element: [windowData.element.style.* = ...] and
    [windowData.element.classList.add/remove]. *)
Definition set_style (g : Geometry) (w : AppWindow) : AppWindow :=
  set_element (mkElement g (classMaximized (element w)) (classMinimized (element w))
                 (classFocused (element w))) w.
Definition set_classMaximized (b : bool) (w : AppWindow) : AppWindow :=
  set_element (mkElement (style (element w)) b (classMinimized (element w))
                 (classFocused (element w))) w.
Definition set_classMinimized (b : bool) (w : AppWindow) : AppWindow :=
  set_element (mkElement (style (element w)) (classMaximized (element w)) b
                 (classFocused (element w))) w.
Definition set_classFocused (b : bool) (w : AppWindow) : AppWindow :=
  set_element (mkElement (style (element w)) (classMaximized (element w))
                 (classMinimized (element w)) b) w.

Definition geometry (w : AppWindow) : Geometry := style (element w).

(** ** The registry [state.windows]

    A JavaScript [Map] from window id to record, iterated in insertion
    order.  Its only writer is [createWindow], which stores a record under
    the record's own [id]; the map is therefore kept as the list of its
    values in insertion order, and a key is the [id] field of a value. *)
Definition Windows : Type := list AppWindow.

(** [state.windows.get(i)] *)
Fixpoint getWindow (i : string) (ws : Windows) : option AppWindow :=
  match ws with
  | [] => None
  | w :: rest => if (id w =? i)%string then Some w else getWindow i rest
  end.

(** [state.windows.has(i)] *)
Definition hasWindow (i : string) (ws : Windows) : bool :=
  match getWindow i ws with Some _ => true | None => false end.

(** [state.windows.set(w.id, w)]: an existing key keeps its place. *)
Fixpoint setWindow (w : AppWindow) (ws : Windows) : Windows :=
  match ws with
  | [] => [w]
  | x :: rest => if (id x =? id w)%string then w :: rest else x :: setWindow w rest
  end.

(** [state.windows.delete(i)] *)
Fixpoint deleteWindow (i : string) (ws : Windows) : Windows :=
  match ws with
  | [] => []
  | x :: rest => if (id x =? i)%string then rest else x :: deleteWindow i rest
  end.

(** A mutation of the record object that [state.windows.get(i)] returned:
    the record is shared with the map, so the map sees the change. *)
Fixpoint updateWindow (i : string) (f : AppWindow -> AppWindow) (ws : Windows) : Windows :=
  match ws with
  | [] => []
  | x :: rest => if (id x =? i)%string then f x :: rest else x :: updateWindow i f rest
  end.

(** ** [APP_DEFINITIONS] (lines 72-92)

    Only the fields the window functions read are kept; icons, categories
    and the dock flags belong to the presenters. *)
Module AppDef.
Record t : Type := mk {
  id : string;
  title : string;
  contentTemplateId : option string;
  isLaunchable : bool;
  allowMultipleInstances : bool;      (* absent = false *)
  defaultWidth : option Css;
  defaultHeight : option Css
}.
End AppDef.

Definition APP_DEFINITIONS : list AppDef.t :=
  [ AppDef.mk "About" "About Me" (Some "about-content") true false None None;
    AppDef.mk "AppLibraryLauncher" "App Library" None false false None None;
    AppDef.mk "Portfolio" "Portfolio" (Some "portfolio-content") true false
      (Some (CssPx 700)) (Some (CssPx 550));
    AppDef.mk "WinsAssistant" "Win's Assistant" (Some "wins-assistant-content") true false
      (Some (CssPx 420)) (Some (CssPx 550));
    AppDef.mk "Settings" "System Settings" (Some "settings-content") true false
      (Some (CssPx 500)) (Some (CssPx 480));
    AppDef.mk "Terminal" "Terminal" (Some "terminal-content") true false None None;
    AppDef.mk "Notepad" "Notepad" (Some "notepad-content") true true None None;
    AppDef.mk "StickyNotes" "Sticky Notes" (Some "sticky-notes-content") true true
      (Some (CssPx 250)) (Some (CssPx 250));
    AppDef.mk "Calculator" "Calculator" (Some "calculator-content") true false
      (Some (CssPx 320)) (Some (CssPx 420));
    AppDef.mk "MusicPlayer" "MiniTunes" (Some "musicplayer-content") true false
      (Some (CssPx 300)) (Some (CssPx 320));
    AppDef.mk "SystemMonitor" "System Monitor" (Some "systemmonitor-content") true false
      None (Some (CssPx 380));
    AppDef.mk "WBrowse" "W-Browse" (Some "w-browse-content") true true
      (Some (CssPx 800)) (Some (CssPx 600));
    AppDef.mk "Achievements" "Achievements" (Some "achievements-content") true false
      (Some (CssPx 550)) None;
    AppDef.mk "Contact" "Contact" (Some "contact-content") true false None None;
    AppDef.mk "Help" "Wiqnnc_ Help" (Some "help-content") true false None None;
    AppDef.mk "AboutWiqnnc" "About This Wiqnnc_" (Some "about-this-wiqnnc-content") true false
      None None;
    AppDef.mk "MatrixRain" "Matrix Rain" (Some "matrix-rain-content") true true
      (Some (CssPx 700)) (Some (CssPx 500));
    AppDef.mk "Credits" "Wiqnnc_ Credits" (Some "credits-content") true true
      (Some (CssPx 400)) (Some (CssPx 450));
    AppDef.mk "Trash" "Trash" None false false None None ].

(** [APP_DEFINITIONS.find(app => app.id === appId)] *)
Definition findAppDef (appId : string) : option AppDef.t :=
  find (fun app => (AppDef.id app =? appId)%string) APP_DEFINITIONS.

(** [appDef?.allowMultipleInstances], with an absent definition falsy. *)
Definition allowsMultiple (appDef : option AppDef.t) : bool :=
  match appDef with
  | Some d => AppDef.allowMultipleInstances d
  | None => false
  end.

(** ** The global [state] (lines 15-36) and the browser around it *)

(** What [document.onmousemove] and [document.onmouseup] currently hold:
    nothing, the closures of a title-bar drag, or those of a resize.  The
    fields are the variables the closures captured at mouse-down: the id of
    the target element, whether [windowData] was found, and the offsets or
    the start values. *)
Inductive Session : Type :=
| Dragging (target : string) (hasWindowData : bool) (offsetX offsetY : Z)
| Resizing (target : string) (startX startY startWidth startHeight : Z).

Record State : Type := mkState {
  windows : Windows;
  activeWindowId : option string;
  nextZIndex : Z;
  isDockVisible : bool;
  snapIndicator : bool;            (* [state.snapIndicator] has been created *)
  closeTimers : list string;       (* pending 200 ms callbacks of [closeWindow] *)
  pointerSession : option Session
}.

Definition initialState : State :=
  mkState [] None 100 true false [] None.

Definition set_windows (ws : Windows) (s : State) : State :=
  mkState ws (activeWindowId s) (nextZIndex s) (isDockVisible s) (snapIndicator s)
    (closeTimers s) (pointerSession s).
Definition set_activeWindowId (a : option string) (s : State) : State :=
  mkState (windows s) a (nextZIndex s) (isDockVisible s) (snapIndicator s)
    (closeTimers s) (pointerSession s).
Definition set_nextZIndex (z : Z) (s : State) : State :=
  mkState (windows s) (activeWindowId s) z (isDockVisible s) (snapIndicator s)
    (closeTimers s) (pointerSession s).
Definition set_isDockVisible (b : bool) (s : State) : State :=
  mkState (windows s) (activeWindowId s) (nextZIndex s) b (snapIndicator s)
    (closeTimers s) (pointerSession s).
Definition set_snapIndicator (b : bool) (s : State) : State :=
  mkState (windows s) (activeWindowId s) (nextZIndex s) (isDockVisible s) b
    (closeTimers s) (pointerSession s).
Definition set_closeTimers (t : list string) (s : State) : State :=
  mkState (windows s) (activeWindowId s) (nextZIndex s) (isDockVisible s) (snapIndicator s)
    t (pointerSession s).
Definition set_pointerSession (p : option Session) (s : State) : State :=
  mkState (windows s) (activeWindowId s) (nextZIndex s) (isDockVisible s) (snapIndicator s)
    (closeTimers s) p.

(** A mutation of the record stored under [i]. *)
Definition mutate (i : string) (f : AppWindow -> AppWindow) (s : State) : State :=
  set_windows (updateWindow i f (windows s)) s.

(** What one call reads from the browser: [Date.now()], the two products
    [Math.random() * 200] and [Math.random() * 100] of [openApp] rounded to
    whole pixels, the default placement of [createWindow] (lines 255-256,
    also built on [Math.random()]), and whether [document.getElementById]
    finds a content template. *)
Record Env : Type := mkEnv {
  now : Z;
  randomX : Z;
  randomY : Z;
  placementLeft : Z;
  placementTop : Z;
  templateExists : string -> bool
}.

(** The [options] argument of [createWindow].  [htmlContent] and the two
    collaborator overrides only reach the window body and are left out. *)
Module Options.
Record t : Type := mk {
  baseAppId : string;
  title : string;
  x : option Z;
  y : option Z;
  width : option Css;
  height : option Css
}.
End Options.

(** [state.activeWindowId === i] *)
Definition isActive (i : string) (s : State) : bool :=
  match activeWindowId s with
  | Some a => (a =? i)%string
  | None => false
  end.

(** ** Window functions (lines 218-406) *)

(** [focusWindow(id)], lines 293-316.  The argument is [None] for [null];
    [!id] is also true of the empty string.  Menu bar and dock rendering
    are views of the state and are not part of it. *)
Definition focusWindow (i : option string) (s : State) : State :=
  match i with
  | None => set_activeWindowId None s
  | Some i =>
      if (i =? "")%string then set_activeWindowId None s
      else
        match getWindow i (windows s) with
        | None => set_activeWindowId None s
        | Some windowData =>
            if isActive i s && (zIndex windowData =? nextZIndex s - 1)
               && negb (isMinimized windowData)
            then s
            else
              let z := nextZIndex s in
              let s1 := set_activeWindowId (Some i) s in
              let s2 := set_nextZIndex (z + 1) (mutate i (set_zIndex z) s1) in
              let s3 := set_windows (map (set_classFocused false) (windows s2)) s2 in
              mutate i (set_classFocused true) s3
        end
  end.

(** [closeWindow(id)], lines 319-342: the synchronous part.  The callback
    handed to [window.setTimeout] is [closeTimeout] below; the timer is
    remembered in [closeTimers].  Cancelling the collaborator's timers does
    not touch the registry. *)
Definition closeWindow (i : string) (s : State) : State :=
  match getWindow i (windows s) with
  | Some _ =>
      set_closeTimers (closeTimers s ++ [i])%list (mutate i (set_isOpen false) s)
  | None => s
  end.

Fixpoint removeTimer (i : string) (t : list string) : list string :=
  match t with
  | [] => []
  | j :: rest => if (j =? i)%string then rest else j :: removeTimer i rest
  end.

(** The callback of [closeWindow], lines 331-340, run 200 ms later. *)
Definition closeTimeout (i : string) (s : State) : State :=
  let s1 := set_closeTimers (removeTimer i (closeTimers s)) s in
  let s2 := set_windows (deleteWindow i (windows s1)) s1 in
  if isActive i s2 then focusWindow None s2 else s2.

(** [minimizeWindow(id)], lines 344-361. *)
Definition minimizeWindow (i : string) (s : State) : State :=
  match getWindow i (windows s) with
  | Some windowData =>
      if negb (isMinimized windowData) then
        let s1 :=
          mutate i (fun w =>
            set_isMinimized true
              (set_classMinimized true
                 (set_isMaximized false
                    (set_classMaximized false
                       (set_originalPosition (Some (geometry w)) w))))) s in
        if isActive i s1 then focusWindow None s1 else s1
      else s
  | None => s
  end.

(** The assignments of [originalPosition] back to the element's style,
    guarded by [if (windowData.originalPosition)]. *)
Definition reapplyOriginalPosition (w : AppWindow) : AppWindow :=
  match originalPosition w with
  | Some g => set_style g w
  | None => w
  end.

(** [restoreWindow(id)], lines 363-381.  Its second branch calls [openApp],
    which is defined after it: the callee is the argument [openApp]. *)
Definition restoreWindow_ (openApp : string -> State -> State)
    (i : string) (s : State) : State :=
  match getWindow i (windows s) with
  | Some windowData =>
      if isMinimized windowData then
        let s1 :=
          mutate i (fun w =>
            set_isMinimized false
              (reapplyOriginalPosition (set_classMinimized false w))) s in
        focusWindow (Some i) s1
      else if negb (isOpen windowData) then
        openApp (baseAppId windowData) s
      else
        focusWindow (Some i) s
  | None => s
  end.

(** [toggleMaximizeWindow(id)], lines 383-406.  The transition style set at
    the end is cosmetic. *)
Definition toggleMaximizeWindow (i : string) (s : State) : State :=
  match getWindow i (windows s) with
  | Some windowData =>
      if isMaximized windowData then
        mutate i (fun w =>
          set_isMaximized false
            (reapplyOriginalPosition (set_classMaximized false w))) s
      else
        mutate i (fun w =>
          set_isMaximized true
            (set_classMaximized true
               (set_originalPosition (Some (geometry w)) w))) s
  | None => s
  end.

(** The id that [createWindow] gives a new window, line 237:
    [`${options.baseAppId}-${Date.now()}`]. *)
Definition windowId (baseAppId : string) (now : Z) : string :=
  (baseAppId ++ "-" ++ showZ now)%string.

(** [win => win.baseAppId === appId && win.isOpen] *)
Definition isOpenInstanceOf (appId : string) (win : AppWindow) : bool :=
  (baseAppId win =? appId)%string && isOpen win.

Definition orElse {A : Type} (a b : option A) : option A :=
  match a with Some _ => a | None => b end.

Definition cssOr (c : option Css) : Css :=
  match c with Some v => v | None => CssNone end.

(** [createWindow(options)], lines 218-291.  The callee [restoreWindow] is
    an argument, see [restoreWindow_].  The record that the JavaScript
    function returns is not used by any caller and is not returned here;
    the collaborator's setup function runs after the registry is updated
    and is outside the window manager. *)
Definition createWindow_ (restoreWindow : string -> State -> State)
    (options : Options.t) (env : Env) (s : State) : State :=
  let appDef := findAppDef (Options.baseAppId options) in
  let isSpecialCase :=
    existsb (String.eqb (Options.baseAppId options)) ["ErrorApiKey"; "TrashMessage"] in
  match appDef, isSpecialCase with
  | None, false => s
  | _, _ =>
      if negb (allowsMultiple appDef)
         && existsb (isOpenInstanceOf (Options.baseAppId options)) (windows s)
      then
        match find (isOpenInstanceOf (Options.baseAppId options)) (windows s) with
        | Some existingWindow =>
            let s1 := if isMinimized existingWindow
                      then restoreWindow (id existingWindow) s else s in
            focusWindow (Some (id existingWindow)) s1
        | None => s
        end
      else
        let i := windowId (Options.baseAppId options) (now env) in
        let defW := match appDef with Some d => AppDef.defaultWidth d | None => None end in
        let defH := match appDef with Some d => AppDef.defaultHeight d | None => None end in
        let windowEl :=
          mkElement
            (mkGeometry
               (CssPx (match Options.y options with Some y => y | None => placementTop env end))
               (CssPx (match Options.x options with Some x => x | None => placementLeft env end))
               (cssOr (orElse (Options.width options) defW))
               (cssOr (orElse (Options.height options) defH)))
            false false false in
        let newWindow :=
          mkAppWindow i (Options.baseAppId options) (Options.title options) windowEl
            false true (nextZIndex s) None false None in
        let s1 := set_nextZIndex (nextZIndex s + 1) s in
        let s2 := set_windows (setWindow newWindow (windows s1)) s1 in
        focusWindow (Some i) s2
  end.

(** [openApp(appId, options)], lines 881-930.  [options.initialUrl] only
    reaches the collaborator's state ([appSpecificState]) of a 'WBrowse'
    window, on which the registry does not depend; the redirect branch
    never handles it at all, since 'WBrowse' allows several instances
    ([WBrowse_allows_multiple] below). *)
Definition openApp_ (restoreWindow : string -> State -> State)
    (createWindow : Options.t -> Env -> State -> State)
    (appId : string) (env : Env) (s : State) : State :=
  match findAppDef appId with
  | None => s
  | Some appDef =>
      if negb (AppDef.isLaunchable appDef) then s
      else
        let existingWindowsOfApp := filter (isOpenInstanceOf appId) (windows s) in
        match negb (AppDef.allowMultipleInstances appDef), existingWindowsOfApp with
        | true, existingWindow :: _ => restoreWindow (id existingWindow) s
        | _, _ =>
            let size := Z.of_nat (List.length (windows s)) in
            let px := randomX env + 50 + (size * 25) mod 250 in
            let py := randomY env + 50 + (size * 25) mod 150 in
            match AppDef.contentTemplateId appDef with
            | Some tpl =>
                if negb (templateExists env tpl) then
                  createWindow
                    (Options.mk appId (AppDef.title appDef) (Some px) (Some py)
                       (Some (cssOr (orElse (AppDef.defaultWidth appDef) (Some (CssPx 400)))))
                       (Some (cssOr (orElse (AppDef.defaultHeight appDef) (Some (CssPx 300))))))
                    env s
                else
                  createWindow
                    (Options.mk appId (AppDef.title appDef) (Some px) (Some py)
                       (AppDef.defaultWidth appDef) (AppDef.defaultHeight appDef))
                    env s
            | None =>
                createWindow
                  (Options.mk appId (AppDef.title appDef) (Some px) (Some py)
                     (AppDef.defaultWidth appDef) (AppDef.defaultHeight appDef))
                  env s
            end
        end
  end.

(** *** Closing the recursion

    [restoreWindow] calls [openApp] only for a record that is neither
    minimized nor open; [openApp] and [createWindow] call [restoreWindow]
    only for a record that is open.  The three functions are therefore
    defined in layers, the innermost [restoreWindow] never reaching its
    [openApp] branch ([restoreWindow_inner_eq] below proves it). *)
Definition restoreWindowInner : string -> State -> State :=
  restoreWindow_ (fun _ s => s).

Definition createWindow : Options.t -> Env -> State -> State :=
  createWindow_ restoreWindowInner.

Definition openApp : string -> Env -> State -> State :=
  openApp_ restoreWindowInner createWindow.

Definition restoreWindow (env : Env) : string -> State -> State :=
  restoreWindow_ (fun appId => openApp appId env).

(** ** Dragging, snapping and resizing (lines 419-634) *)

(** The coordinates of a mouse event. *)
Record MouseEvent : Type := mkMouseEvent {
  clientX : Z;
  clientY : Z
}.

(** What the layout engine reports when a handler runs: the measured boxes
    of the menu bar, the dock, the bounds container ([windowsContainer]),
    the desktop and the target element. *)
Record Layout : Type := mkLayout {
  menuBarOffsetHeight : Z;
  dockOffsetHeight : Z;
  boundsClientWidth : Z;
  boundsClientHeight : Z;
  desktopClientWidth : Z;
  targetOffsetLeft : Z;
  targetOffsetTop : Z;
  targetOffsetWidth : Z;
  targetOffsetHeight : Z;
  computedWidth : Z;      (* parseInt(getComputedStyle(windowEl).width, 10) *)
  computedHeight : Z
}.

Definition set_left (c : Css) (w : AppWindow) : AppWindow :=
  set_style (mkGeometry (top (geometry w)) c (width (geometry w)) (height (geometry w))) w.
Definition set_top (c : Css) (w : AppWindow) : AppWindow :=
  set_style (mkGeometry c (left (geometry w)) (width (geometry w)) (height (geometry w))) w.
Definition set_width (c : Css) (w : AppWindow) : AppWindow :=
  set_style (mkGeometry (top (geometry w)) (left (geometry w)) c (height (geometry w))) w.
Definition set_height (c : Css) (w : AppWindow) : AppWindow :=
  set_style (mkGeometry (top (geometry w)) (left (geometry w)) (width (geometry w)) c) w.

(** [showSnapIndicator(position, menuBarHeight)], lines 542-571.  The
    indicator's own rectangle is a preview and is not kept; what stays is
    the mark on the *active* window. *)
Definition showSnapIndicator (position : SnapPosition) (s : State) : State :=
  if negb (snapIndicator s) then s
  else
    match activeWindowId s with
    | Some a =>
        if (a =? "")%string then s
        else mutate a (set_isSnapping (Some position)) s
    | None => s
    end.

(** The rectangle that [applySnap] writes, lines 584-603, with
    [menuBarHeight = 28] and [dockTotalHeight = 70] or [0]. *)
Definition snapRectangle (position : SnapPosition) (dockVisible : bool) : Geometry :=
  let menuBarHeight := 28 in
  let dockTotalHeight := if dockVisible then 70 else 0 in
  match position with
  | SnapLeft =>
      mkGeometry (CssPx (menuBarHeight + 2)) (CssPx 2) (CssCalcVw 50 (-4))
        (CssCalcVh 100 (- (menuBarHeight + dockTotalHeight + 4)))
  | SnapRight =>
      mkGeometry (CssPx (menuBarHeight + 2)) (CssCalcVw 50 2) (CssCalcVw 50 (-4))
        (CssCalcVh 100 (- (menuBarHeight + dockTotalHeight + 4)))
  | SnapTop =>
      mkGeometry (CssPx (menuBarHeight + 2)) (CssPx 2) (CssCalcVw 100 (-4))
        (CssCalcVh 50 (- (menuBarHeight / 2 + dockTotalHeight / 2 + 2)))
  end.

(** [applySnap(windowData)], lines 573-606, for the record stored under
    [i]. *)
Definition applySnap (i : string) (s : State) : State :=
  match getWindow i (windows s) with
  | Some windowData =>
      match isSnapping windowData with
      | None => s
      | Some position =>
          mutate i (fun w =>
            set_isSnapping None
              (set_style (snapRectangle position (isDockVisible s))
                 (set_classMaximized false (set_isMaximized false w)))) s
      end
  | None => s
  end.

(** [(windowId && state.windows.has(windowId)) ? state.windows.get(windowId)
    : null], line 433. *)
Definition lookupWindow (i : string) (s : State) : option AppWindow :=
  if negb (i =? "")%string && hasWindow i (windows s)
  then getWindow i (windows s)
  else None.

(** [draggableEl.onmousedown] of a window's title bar, lines 422-455 (a
    press on one of the window controls returns at once and is no drag).
    [i] is [targetEl.dataset.id].  The shake gesture (lines 484-499) is a
    visual cue with no effect on the registry and is not kept. *)
Definition dragMouseDown (i : string) (e : MouseEvent) (m : Layout) (s : State) : State :=
  let windowData := lookupWindow i s in
  let s1 :=
    match windowData with
    | Some w => if negb (isActive (id w) s) then focusWindow (Some (id w)) s else s
    | None => s
    end in
  match windowData with
  | Some w =>
      if isMaximized w then s1
      else
        set_pointerSession
          (Some (Dragging i true (clientX e - targetOffsetLeft m) (clientY e - targetOffsetTop m)))
          (set_snapIndicator true s1)
  | None =>
      set_pointerSession
        (Some (Dragging i false (clientX e - targetOffsetLeft m) (clientY e - targetOffsetTop m)))
        (set_snapIndicator true s1)
  end.

(** The clamp of lines 478-479: [Math.max(lo, Math.min(v, hi))]. *)
Definition clamp (lo v hi : Z) : Z := Z.max lo (Z.min v hi).

(** [document.onmousemove] during a drag of a window, lines 457-514. *)
Definition dragMouseMove (i : string) (hasWindowData : bool) (offsetX offsetY : Z)
    (e : MouseEvent) (m : Layout) (s : State) : State :=
  let newX := clientX e - offsetX in
  let newY := clientY e - offsetY in
  let menuBarHeight := menuBarOffsetHeight m in
  let dockHeight := if isDockVisible s then dockOffsetHeight m + 10 else 0 in
  let minX := 0 in
  let minY := menuBarHeight in
  let maxX := boundsClientWidth m - targetOffsetWidth m in
  let maxY := boundsClientHeight m - targetOffsetHeight m - dockHeight in
  let newX := clamp minX newX maxX in
  let newY := clamp minY newY maxY in
  let s1 :=
    if hasWindowData
    then mutate i (fun w => set_top (CssPx newY) (set_left (CssPx newX) w)) s
    else s in
  let snapThreshold := 20 in
  let pointerX := clientX e in
  let pointerY := clientY e in
  if pointerX <? snapThreshold then showSnapIndicator SnapLeft s1
  else if pointerX >? desktopClientWidth m - snapThreshold then showSnapIndicator SnapRight s1
  else if pointerY <? menuBarHeight + snapThreshold then showSnapIndicator SnapTop s1
  else if hasWindowData then mutate i (set_isSnapping None) s1
  else s1.

(** [document.onmouseup] during a drag of a window, lines 516-538. *)
Definition dragMouseUp (i : string) (hasWindowData : bool) (s : State) : State :=
  let s1 := set_pointerSession None s in
  if hasWindowData then applySnap i s1 else s1.

(** [resizeHandle.onmousedown], lines 613-621. *)
Definition resizeMouseDown (i : string) (e : MouseEvent) (m : Layout) (s : State) : State :=
  let start :=
    set_pointerSession
      (Some (Resizing i (clientX e) (clientY e) (computedWidth m) (computedHeight m))) s in
  match getWindow i (windows s) with
  | Some windowData =>
      if isMaximized windowData
         || match isSnapping windowData with Some _ => true | None => false end
      then s
      else start
  | None => start
  end.

(** [document.onmousemove] during a resize, lines 623-628. *)
Definition resizeMouseMove (i : string) (startX startY startWidth startHeight : Z)
    (e : MouseEvent) (s : State) : State :=
  let newWidth := startWidth + (clientX e - startX) in
  let newHeight := startHeight + (clientY e - startY) in
  mutate i (fun w =>
    set_height (CssPx (Z.max 200 newHeight)) (set_width (CssPx (Z.max 300 newWidth)) w)) s.

(** [document.onmouseup] during a resize, lines 629-632. *)
Definition resizeMouseUp (s : State) : State := set_pointerSession None s.

(** The handler that [document.onmousemove] holds. *)
Definition mouseMove (e : MouseEvent) (m : Layout) (s : State) : State :=
  match pointerSession s with
  | Some (Dragging i h ox oy) => dragMouseMove i h ox oy e m s
  | Some (Resizing i sx sy sw sh) => resizeMouseMove i sx sy sw sh e s
  | None => s
  end.

(** The handler that [document.onmouseup] holds. *)
Definition mouseUp (s : State) : State :=
  match pointerSession s with
  | Some (Dragging i h _ _) => dragMouseUp i h s
  | Some (Resizing _ _ _ _ _) => resizeMouseUp s
  | None => s
  end.

(** The body of the [forEach] in [toggleDockVisibility], lines 935-944,
    for the record stored under [i]. *)
Definition reapplyDockConstraints (s : State) (i : string) : State :=
  match getWindow i (windows s) with
  | Some win =>
      if isOpen win
         && (isMaximized win || match isSnapping win with Some _ => true | None => false end)
      then
        let s1 := if isMaximized win
                  then toggleMaximizeWindow i (toggleMaximizeWindow i s) else s in
        match getWindow i (windows s1) with
        | Some win1 =>
            match isSnapping win1 with Some _ => applySnap i s1 | None => s1 end
        | None => s1
        end
      else s
  | None => s
  end.

(** [toggleDockVisibility()], lines 932-950. *)
Definition toggleDockVisibility (s : State) : State :=
  let s1 := set_isDockVisible (negb (isDockVisible s)) s in
  fold_left reapplyDockConstraints (map id (windows s1)) s1.

(** ** Events

    The entry points through which the rest of [src/index.js] reaches the
    registry: [openApp] (dock, menus, Spotlight, desktop icons, terminal),
    [createWindow] (the Trash and API-key message windows), [focusWindow]
    (the capturing [mousedown] listener of a window, line 278, and the
    'focus-window-' actions of [handleMenuAction], line 1531), the three
    window controls and their menu and keyboard twins, the timer of
    [closeWindow], the title bar and the resize handle, the document-level
    mouse handlers, and the dock toggle.  A press on the title bar or on
    the resize handle first runs the capturing listener of the window and
    then its own handler. *)
Inductive Event : Type :=
| EvOpenApp (appId : string) (env : Env)
| EvCreateWindow (options : Options.t) (env : Env)
| EvFocusWindow (i : string)
| EvCloseWindow (i : string)
| EvCloseTimeout (i : string)
| EvMinimizeWindow (i : string)
| EvRestoreWindow (i : string) (env : Env)
| EvToggleMaximizeWindow (i : string)
| EvTitleBarMouseDown (i : string) (e : MouseEvent) (m : Layout)
| EvResizeHandleMouseDown (i : string) (e : MouseEvent) (m : Layout)
| EvMouseMove (e : MouseEvent) (m : Layout)
| EvMouseUp
| EvToggleDockVisibility.

Definition run (ev : Event) (s : State) : State :=
  match ev with
  | EvOpenApp appId env => openApp appId env s
  | EvCreateWindow options env => createWindow options env s
  | EvFocusWindow i => focusWindow (Some i) s
  | EvCloseWindow i => closeWindow i s
  | EvCloseTimeout i => closeTimeout i s
  | EvMinimizeWindow i => minimizeWindow i s
  | EvRestoreWindow i env => restoreWindow env i s
  | EvToggleMaximizeWindow i => toggleMaximizeWindow i s
  | EvTitleBarMouseDown i e m => dragMouseDown i e m (focusWindow (Some i) s)
  | EvResizeHandleMouseDown i e m => resizeMouseDown i e m (focusWindow (Some i) s)
  | EvMouseMove e m => mouseMove e m s
  | EvMouseUp => mouseUp s
  | EvToggleDockVisibility => toggleDockVisibility s
  end.

(** The one rule that the callers keep and [focusWindow] itself does not
    check: a minimized window is never focused.  The Window menu lists only
    windows that are not minimized (lines 1574-1583) and is rebuilt by
    [minimizeWindow]; a minimized window is hidden and takes no pointer
    events; [createWindow] and [restoreWindow] un-minimize before they
    focus. *)
Definition notMinimized (i : string) (s : State) : bool :=
  match getWindow i (windows s) with
  | Some w => negb (isMinimized w)
  | None => true
  end.

(** When an event can happen: a focus request and a press on a window need
    a window that is not minimized, a timer callback needs its timer.  The
    other operations of the registry are taken as callable at any time, for
    any id. *)
Definition enabled (ev : Event) (s : State) : bool :=
  match ev with
  | EvFocusWindow i => notMinimized i s
  | EvTitleBarMouseDown i _ _ => notMinimized i s
  | EvResizeHandleMouseDown i _ _ => notMinimized i s
  | EvCloseTimeout i => existsb (String.eqb i) (closeTimers s)
  | _ => true
  end.

Inductive reachable : State -> Prop :=
| reachable_initial : reachable initialState
| reachable_run (s : State) (ev : Event) :
    reachable s -> enabled ev s = true -> reachable (run ev s).

(** Running a list of events, checking that each one is enabled. *)
Fixpoint runTrace (evs : list Event) (s : State) : option State :=
  match evs with
  | [] => Some s
  | ev :: rest => if enabled ev s then runTrace rest (run ev s) else None
  end.

(** ** Menus and keyboard shortcuts: callers of the window functions *)

(** [state.activeWindowId ? state.windows.get(state.activeWindowId) : null],
    lines 1476 and 1680. *)
Definition activeWindow (s : State) : option AppWindow :=
  match activeWindowId s with
  | Some a => if (a =? "")%string then None else getWindow a (windows s)
  | None => None
  end.

(** [s.startsWith(p)] *)
Definition startsWith (p s : string) : bool := String.prefix p s.

Fixpoint dropChars (n : nat) (s : string) : string :=
  match n, s with
  | O, _ => s
  | S n', String _ s' => dropChars n' s'
  | S _, EmptyString => EmptyString
  end.

(** [s.replace(p, r)] for a string pattern [p] and a replacement [r]
    without [$]: the first occurrence of [p] in [s] is replaced. *)
Fixpoint replaceFirst (p r s : string) : string :=
  if String.prefix p s then (r ++ dropChars (String.length p) s)%string
  else
    match s with
    | EmptyString => EmptyString
    | String c s' => String c (replaceFirst p r s')
    end.

(** [c.toLowerCase()] of one character.  Strings are byte strings here; the
    letters A to Z are lowered and every other byte is left as it is. *)
Definition lowerChar (c : ascii) : ascii :=
  let n := nat_of_ascii c in
  if (65 <=? n)%nat && (n <=? 90)%nat then ascii_of_nat (n + 32) else c.

(** [s.toLowerCase()] on the letters A to Z, which is the JavaScript
    function on strings of characters below U+0080. *)
Fixpoint toLowerCase (s : string) : string :=
  match s with
  | EmptyString => EmptyString
  | String c s' => String (lowerChar c) (toLowerCase s')
  end.

(** One entry of the Window menu: its text, its [data-action] and its
    [aria-checked]. *)
Record MenuItem : Type := mkMenuItem {
  itemText : string;
  itemAction : string;
  ariaChecked : bool
}.

(** [win => win.isOpen && !win.isMinimized], line 1575 *)
Definition isShown (win : AppWindow) : bool := isOpen win && negb (isMinimized win).

(** [updateWindowMenu()], lines 1565-1585: the entries it appends after the
    separator, the old ones having been removed. *)
Definition updateWindowMenu (s : State) : list MenuItem :=
  map (fun win =>
         mkMenuItem
           (title win ++ (if isActive (id win) s then " ✓" else ""))%string
           ("focus-window-" ++ id win)%string
           (isActive (id win) s))
    (filter isShown (windows s)).

(** The body of the [forEach] of the menu action 'minimize-all', line 1527,
    for the record stored under [i]. *)
Definition minimizeIfShown (s : State) (i : string) : State :=
  match getWindow i (windows s) with
  | Some win => if negb (isMinimized win) && isOpen win then minimizeWindow i s else s
  | None => s
  end.

Definition minimizeAll (s : State) : State :=
  fold_left minimizeIfShown (map id (windows s)) s.

(** The menu actions whose effect is not modelled: the simulated sleep,
    reload and shutdown, the theme, full screen, the text selection, and
    the three note actions, which depend on the [appSpecificState] of a
    Notepad window. *)
Definition actionsNotModelled : list string :=
  ["sleep"; "restart"; "shutdown"; "new-note"; "save-note"; "open-note";
   "select-all"; "toggle-theme"; "toggle-fullscreen"].

(** [handleMenuAction(action)], lines 1475-1533.  The result is [None] for
    the actions of [actionsNotModelled]. *)
Definition handleMenuAction (action : string) (env : Env) (s : State) : option State :=
  let on a := (action =? a)%string in
  if existsb on actionsNotModelled then None
  else if on "about-wiqnnc" then Some (openApp "AboutWiqnnc" env s)
  else if on "open-settings" || on "open-preferences" then Some (openApp "Settings" env s)
  else if on "new-finder-window" then Some (openApp "About" env s)
  else if on "new-sticky-note" then Some (openApp "StickyNotes" env s)
  else if on "toggle-dock" then Some (toggleDockVisibility s)
  else if on "minimize-all" then Some (minimizeAll s)
  else if on "zoom-active" then
    Some (match activeWindow s with
          | Some w => toggleMaximizeWindow (id w) s
          | None => s
          end)
  else if on "close-active-window" || on "close-active-window-file" then
    Some (match activeWindow s with
          | Some w => closeWindow (id w) s
          | None => s
          end)
  else if on "open-help" then Some (openApp "Help" env s)
  else if startsWith "focus-window-" action
  then Some (focusWindow (Some (replaceFirst "focus-window-" "" action)) s)
  else Some s.

(** The window shortcuts of the global [keydown] listener, lines 1679-1685,
    for a key pressed with Ctrl or Meta held. *)
Definition keyShortcut (key : string) (s : State) : State :=
  match activeWindow s with
  | None => s
  | Some activeAppWindow =>
      if isMinimized activeAppWindow then s
      else if (toLowerCase key =? "q")%string then closeWindow (id activeAppWindow) s
      else if (toLowerCase key =? "m")%string then minimizeWindow (id activeAppWindow) s
      else s
  end.

(** ** The dock (lines 72-92, 776-878) *)

(** The dock flags of [APP_DEFINITIONS], absent meaning false. *)
Definition isFinderLike (appDef : AppDef.t) : bool :=
  existsb (String.eqb (AppDef.id appDef)) ["About"].

Definition isEssentialDock (appDef : AppDef.t) : bool :=
  existsb (String.eqb (AppDef.id appDef)) ["Portfolio"; "WinsAssistant"; "Settings"; "Terminal"].

Definition isPermanentDock (appDef : AppDef.t) : bool :=
  existsb (String.eqb (AppDef.id appDef)) ["AppLibraryLauncher"; "Trash"].

(** What [renderDock] leaves in the dock: the [data-app] of the items of
    its four containers and the display of its two separators. *)
Record Dock : Type := mkDock {
  finderItems : list string;
  essentialItems : list string;
  separator1 : bool;
  dynamicItems : list string;
  separator2 : bool;
  systemItems : list string
}.

Definition permanentItem (appId : string) : list string :=
  match find (fun app => (AppDef.id app =? appId)%string && isPermanentDock app)
          APP_DEFINITIONS with
  | Some d => [AppDef.id d]
  | None => []
  end.

(** [renderDock()], lines 776-855.  The separators are decided at lines
    823-845, when the system container, emptied at line 787, has not been
    filled yet. *)
Definition renderDock (s : State) : Dock :=
  let finderAppDef := find isFinderLike APP_DEFINITIONS in
  let finderContainer :=
    match finderAppDef with Some d => [AppDef.id d] | None => [] end in
  let essentialContainer := map AppDef.id (filter isEssentialDock APP_DEFINITIONS) in
  let runningAppBaseIds := map baseAppId (filter isOpen (windows s)) in
  let dynamicContainer :=
    map AppDef.id
      (filter (fun appDef =>
                 existsb (String.eqb (AppDef.id appDef)) runningAppBaseIds
                 && negb (isFinderLike appDef)
                 && negb (isEssentialDock appDef)
                 && negb (isPermanentDock appDef)
                 && AppDef.isLaunchable appDef)
         APP_DEFINITIONS) in
  let systemContainer : list string := [] in
  let hasFinder := match finderAppDef with Some _ => true | None => false end in
  let hasEssentials := negb (Nat.eqb (List.length essentialContainer) 0) in
  let hasDynamics := negb (Nat.eqb (List.length dynamicContainer) 0) in
  let hasSystems := negb (Nat.eqb (List.length systemContainer) 0) in
  let sep1 :=
    if hasFinder && (hasEssentials || hasDynamics || hasSystems)
    then (if hasEssentials || hasDynamics then true else hasSystems)
    else hasEssentials && (hasDynamics || hasSystems) in
  let sep2 := hasDynamics && hasSystems in
  mkDock finderContainer essentialContainer sep1 dynamicContainer sep2
    (systemContainer ++ permanentItem "AppLibraryLauncher" ++ permanentItem "Trash")%list.

(** [dock.querySelectorAll('.dock-item')], in document order. *)
Definition dockItems (d : Dock) : list string :=
  (finderItems d ++ essentialItems d ++ dynamicItems d ++ systemItems d)%list.

(** The body of the [forEach] of [updateAllDockActiveStates], lines
    861-876: whether the item of [appId] gets the class 'active-app'. *)
Definition dockItemActive (appId : string) (s : State) : bool :=
  let isAppRunningOrEssential :=
    existsb (fun win => (baseAppId win =? appId)%string && isOpen win
                        && negb (isMinimized win)) (windows s) in
  let isActiveFocus :=
    match activeWindow s with
    | Some w => (baseAppId w =? appId)%string && negb (isMinimized w)
    | None => false
    end in
  let appDef := findAppDef appId in
  let showDot :=
    if match appDef with
       | Some d => isFinderLike d || isEssentialDock d
       | None => false
       end
    then isActiveFocus || isAppRunningOrEssential
    else isAppRunningOrEssential in
  let anyInstanceOpen := existsb (isOpenInstanceOf appId) (windows s) in
  let showDot :=
    if negb isActiveFocus
       && forallb isMinimized (filter (isOpenInstanceOf appId) (windows s))
       && anyInstanceOpen
    then true else showDot in
  showDot || isActiveFocus.

(** [updateAllDockActiveStates()], lines 857-878, on the dock that
    [renderDock] has just built. *)
Definition updateAllDockActiveStates (s : State) : list (string * bool) :=
  map (fun appId => (appId, dockItemActive appId s)) (dockItems (renderDock s)).

(** ** Click counters and the Konami sequence *)

(** [state.accentColors], line 27 *)
Definition accentColors : list string :=
  ["#007AFF"; "#FF9500"; "#34C759"; "#AF52DE"; "#FF2D55"].

(** The three fields of [state] that the click listener of the date and
    time uses (lines 28-30). *)
Record AccentState : Type := mkAccentState {
  currentAccentIndex : Z;
  dateTimeClickCount : Z;
  lastDateTimeClick : Z
}.

Definition initialAccentState : AccentState := mkAccentState 0 0 0.

(** The click listener of [setupDateTimeAccentCycler], lines 191-213, for a
    click at [Date.now() = now].  [%] is the remainder of JavaScript. *)
Definition dateTimeClick (now : Z) (st : AccentState) : AccentState :=
  let count :=
    if now - lastDateTimeClick st <? 300 then dateTimeClickCount st + 1 else 1 in
  if count >=? 3
  then mkAccentState
         (Z.rem (currentAccentIndex st + 1) (Z.of_nat (List.length accentColors))) 0 now
  else mkAccentState (currentAccentIndex st) count now.

(** [state.accentColors[state.currentAccentIndex]], the value given to the
    CSS variable [--current-accent]; [None] is [undefined]. *)
Definition currentAccent (st : AccentState) : option string :=
  if currentAccentIndex st <? 0 then None
  else nth_error accentColors (Z.to_nat (currentAccentIndex st)).

(** [state.appleLogoClicks] and [state.appleLogoLastClickTime]. *)
Record AppleLogoState : Type := mkAppleLogoState {
  appleLogoClicks : Z;
  appleLogoLastClickTime : Z
}.

(** The click listener of the apple menu button, lines 1689-1701: the new
    counters and whether the alert of the easter egg was shown. *)
Definition appleLogoClick (now : Z) (st : AppleLogoState) : AppleLogoState * bool :=
  let clicks :=
    if now - appleLogoLastClickTime st <? 300 then appleLogoClicks st + 1 else 1 in
  if clicks >=? 5 then (mkAppleLogoState 0 now, true)
  else (mkAppleLogoState clicks now, false).

(** Clicks at the times [ts], one after the other: the final counters and
    the number of alerts shown. *)
Fixpoint appleLogoClicksAt (ts : list Z) (st : AppleLogoState) : AppleLogoState * nat :=
  match ts with
  | [] => (st, O)
  | t :: rest =>
      let '(st1, alerted) := appleLogoClick t st in
      let '(st2, n) := appleLogoClicksAt rest st1 in
      (st2, if alerted then S n else n)
  end.

(** Each click comes less than 300 ms after the one before it. *)
Fixpoint rapidClicks (last : Z) (ts : list Z) : Prop :=
  match ts with
  | [] => True
  | t :: rest => t - last < 300 /\ rapidClicks t rest
  end.

(** [state.konamiSequence], line 21 *)
Definition konamiSequence : list string :=
  ["ArrowUp"; "ArrowUp"; "ArrowDown"; "ArrowDown"; "ArrowLeft"; "ArrowRight";
   "ArrowLeft"; "ArrowRight"; "b"; "a"].

(** The first block of the global [keydown] listener, lines 1659-1669, for
    the key [key] ([e.key]): the new [state.konamiProgress] and whether
    [triggerKonamiEffect] ran.  [onDesktop] is the test on
    [document.activeElement] of line 1659. *)
Definition konamiKeyDown (onDesktop : bool) (key : string) (konamiProgress : nat)
    : nat * bool :=
  if onDesktop then
    match nth_error konamiSequence konamiProgress with
    | Some expected =>
        if (expected =? toLowerCase key)%string then
          if Nat.eqb (S konamiProgress) (List.length konamiSequence)
          then (O, true)
          else (S konamiProgress, false)
        else (O, false)
    | None => (O, false)
    end
  else (konamiProgress, false).

(** A run of key presses: the final progress and whether the effect ran at
    any of them. *)
Fixpoint konamiKeys (keys : list (bool * string)) (konamiProgress : nat) : nat * bool :=
  match keys with
  | [] => (konamiProgress, false)
  | (onDesktop, key) :: rest =>
      let '(p, fired) := konamiKeyDown onDesktop key konamiProgress in
      let '(p', fired') := konamiKeys rest p in
      (p', fired || fired')
  end.

(** ** Spotlight results (lines 1620-1653) *)

(** [!s.trim()] for a byte string: every character is one of the ASCII
    white-space characters (tab, line feed, vertical tab, form feed,
    carriage return, space). *)
Definition isBlank (s : string) : bool :=
  forallb (fun c => existsb (Nat.eqb (nat_of_ascii c)) [9; 10; 11; 12; 13; 32]%nat)
    (list_ascii_of_string s).

Inductive ArrowKey : Type := ArrowDown | ArrowUp.

(** [items.findIndex(item => item.classList.contains('selected'))] on the
    list of the 'selected' marks of the results. *)
Fixpoint findIndexSelected (items : list bool) : Z :=
  match items with
  | [] => -1
  | selected :: rest =>
      if selected then 0
      else
        let r := findIndexSelected rest in
        if r <? 0 then -1 else r + 1
  end.

(** [items[i].classList.add('selected')]; [None] is the TypeError of an
    index that names no element. *)
Definition selectAt (i : Z) (items : list bool) : option (list bool) :=
  if (0 <=? i) && (i <? Z.of_nat (List.length items))
  then Some (firstn (Z.to_nat i) items ++ true :: skipn (S (Z.to_nat i)) items)%list
  else None.

(** [navigateSpotlightResults(key)] for the two keys its caller passes. *)
Definition navigateSpotlightResults (key : ArrowKey) (items : list bool)
    : option (list bool) :=
  match items with
  | [] => Some items
  | _ =>
      let length := Z.of_nat (List.length items) in
      let currentIndex := findIndexSelected items in
      let cleared := map (fun _ => false) items in
      let currentIndex :=
        match key with
        | ArrowDown => Z.rem (currentIndex + 1) length
        | ArrowUp => Z.rem (currentIndex - 1 + length) length
        end in
      selectAt currentIndex cleared
  end.

(** [hay.includes(needle)] *)
Fixpoint includes (needle hay : string) : bool :=
  if String.prefix needle hay then true
  else
    match hay with
    | EmptyString => false
    | String _ rest => includes needle rest
    end.

(** One entry of the list of results: its text, its [data-appid] and
    whether it carries the class 'selected'. *)
Record SpotlightResult : Type := mkSpotlightResult {
  resultText : string;
  resultAppId : string;
  resultSelected : bool
}.

(** The test of lines 1626-1628. *)
Definition spotlightMatches (lowerQuery : string) (appDef : AppDef.t) : bool :=
  includes lowerQuery (toLowerCase (AppDef.title appDef))
  || includes lowerQuery (toLowerCase (AppDef.id appDef))
  || ((AppDef.id appDef =? "MatrixRain")%string && includes lowerQuery "matrix"
      && (2 <? String.length lowerQuery)%nat).

(** [filterSpotlightApps(query)], lines 1620-1640: the results it leaves
    in the list. *)
Definition filterSpotlightApps (query : string) : list SpotlightResult :=
  if isBlank query then []
  else
    let lowerQuery := toLowerCase query in
    let items :=
      map (fun appDef =>
             mkSpotlightResult
               (if (AppDef.id appDef =? "MatrixRain")%string && includes lowerQuery "matrix"
                then "Enter the Matrix..."
                else AppDef.title appDef)
               (AppDef.id appDef) false)
        (filter (spotlightMatches lowerQuery) (filter AppDef.isLaunchable APP_DEFINITIONS)) in
    match items with
    | [] => []
    | first :: rest => mkSpotlightResult (resultText first) (resultAppId first) true :: rest
    end.

(** A list of [n] results with the mark on entry [k] only. *)
Definition onlySelected (k n : nat) : list bool :=
  (repeat false k ++ true :: repeat false (n - S k))%list.

(** The clicks on the date and time at the times [ts], one after the
    other. *)
Definition dateTimeClicksAt (ts : list Z) (st : AccentState) : AccentState :=
  fold_left (fun st now => dateTimeClick now st) ts st.

(** ** W-Browse: the history of one browser window (lines 2359-2481) *)

(** [l[i]]; [None] is [undefined]. *)
Definition itemAt {A : Type} (l : list A) (i : Z) : option A :=
  if i <? 0 then None else nth_error l (Z.to_nat i).

(** [l.slice(0, e)] *)
Definition slice0 {A : Type} (e : Z) (l : list A) : list A :=
  let len := Z.of_nat (List.length l) in
  firstn (Z.to_nat (if e <? 0 then Z.max (len + e) 0 else Z.min e len)) l.

Module WBrowse.

(** The fields of [browserState] that navigation reads and writes, and the
    [disabled] marks of the two history buttons.  The frame, the address
    bar and the message area show a page and do not come back into the
    history; the elements that line 2361 tests are in the content template
    of the app and are taken as present. *)
Record t : Type := mk {
  history : list string;
  currentIndex : Z;
  currentLoadingUrl : option string;
  backDisabled : bool;
  forwardDisabled : bool
}.

(** [navigateToUrlInWBrowse(windowData, urlOrContent, isNavigatingHistory,
    isHome)], lines 2359-2403. *)
Definition navigateToUrlInWBrowse (urlOrContent : string)
    (isNavigatingHistory isHome : bool) (st : t) : t :=
  let loading := if isHome then "internal:home" else urlOrContent in
  let '(h, idx) :=
    if negb isNavigatingHistory then
      let h0 :=
        if currentIndex st <? Z.of_nat (List.length (history st)) - 1
        then slice0 (currentIndex st + 1) (history st)
        else history st in
      let h1 := (h0 ++ [loading])%list in
      (h1, Z.of_nat (List.length h1) - 1)
    else (history st, currentIndex st) in
  mk h idx (Some loading) (idx <=? 0) (idx >=? Z.of_nat (List.length h) - 1).

(** The call with [history[currentIndex]] as its url, lines 2452-2453 and
    2459-2460.  An index that names no entry gives [undefined], on which
    line 2373 throws a TypeError: the result is [None]. *)
Definition navigateToEntry (st : t) : option t :=
  match itemAt (history st) (currentIndex st) with
  | Some historyUrl =>
      Some (navigateToUrlInWBrowse historyUrl true
              (historyUrl =? "internal:home")%string st)
  | None => None
  end.

(** [setupWBrowseApp], lines 2407-2415 and 2476-2480: the state after the
    first navigation. *)
Definition setup (initialUrl : option string) : t :=
  let browserState := mk [] (-1) None false false in
  match initialUrl with
  | Some url =>
      if (url =? "")%string
      then navigateToUrlInWBrowse "internal:home" false true browserState
      else navigateToUrlInWBrowse url false false browserState
  | None => navigateToUrlInWBrowse "internal:home" false true browserState
  end.

(** The buttons of the toolbar.  [Go url] carries the trimmed text of the
    address bar. *)
Inductive Action : Type :=
| Go (url : string)
| Back
| Forward
| Refresh
| Home.

Definition set_currentIndex (i : Z) (st : t) : t :=
  mk (history st) i (currentLoadingUrl st) (backDisabled st) (forwardDisabled st).

(** The click handlers, lines 2441-2474. *)
Definition click (a : Action) (st : t) : option t :=
  match a with
  | Go url =>
      if (url =? "")%string then Some st
      else Some (navigateToUrlInWBrowse url false false st)
  | Back =>
      if currentIndex st >? 0
      then navigateToEntry (set_currentIndex (currentIndex st - 1) st)
      else Some st
  | Forward =>
      if currentIndex st <? Z.of_nat (List.length (history st)) - 1
      then navigateToEntry (set_currentIndex (currentIndex st + 1) st)
      else Some st
  | Refresh =>
      match itemAt (history st) (currentIndex st) with
      | Some currentHistoryUrl =>
          if (currentHistoryUrl =? "internal:home")%string
          then Some (navigateToUrlInWBrowse currentHistoryUrl true true st)
          else Some st
      | None => Some st
      end
  | Home => Some (navigateToUrlInWBrowse "internal:home" false true st)
  end.

Fixpoint clicks (l : list Action) (st : t) : option t :=
  match l with
  | [] => Some st
  | a :: rest =>
      match click a st with
      | Some st1 => clicks rest st1
      | None => None
      end
  end.

(** The history position is an entry, the page shown is that entry, and
    the two buttons are disabled exactly at the two ends. *)
Definition consistent (st : t) : Prop :=
  0 <= currentIndex st < Z.of_nat (List.length (history st))
  /\ currentLoadingUrl st = itemAt (history st) (currentIndex st)
  /\ backDisabled st = (currentIndex st =? 0)
  /\ forwardDisabled st = (currentIndex st =? Z.of_nat (List.length (history st)) - 1).

End WBrowse.

(** ** Terminal: the command history and the adventure mode
    (lines 1903-1912, 1919, 1939-1971, 2047-2048, 2080-2093) *)

(** Every character of [s] is below U+0080.  On such strings [isBlank],
    [trim] and [toLowerCase] are the JavaScript functions; outside them
    JavaScript also strips Unicode white space and lowers other letters. *)
Definition isAscii (s : string) : bool :=
  forallb (fun c => (nat_of_ascii c <? 128)%nat) (list_ascii_of_string s).

Definition isWhiteSpace (c : ascii) : bool :=
  existsb (Nat.eqb (nat_of_ascii c)) [9; 10; 11; 12; 13; 32]%nat.

Fixpoint trimStart (s : string) : string :=
  match s with
  | EmptyString => EmptyString
  | String c s' => if isWhiteSpace c then trimStart s' else s
  end.

Fixpoint trimEnd (s : string) : string :=
  match s with
  | EmptyString => EmptyString
  | String c s' =>
      match trimEnd s' with
      | EmptyString => if isWhiteSpace c then EmptyString else String c EmptyString
      | r => String c r
      end
  end.

(** [s.trim()] *)
Definition trim (s : string) : string := trimEnd (trimStart s).

(** [s.split(' ')[0]] *)
Fixpoint firstField (s : string) : string :=
  match s with
  | EmptyString => EmptyString
  | String c s' => if Ascii.eqb c " " then EmptyString else String c (firstField s')
  end.

(** [cmd] of line 1970: [cmdLine.trim().split(' ')[0]] *)
Definition commandWord (cmdLine : string) : string := firstField (trim cmdLine).

Module Terminal.

(** The value of [adventureState.currentStep]: the name of a step, or a
    value that a lookup in a [choices] object found in [Object.prototype]
    (a function or an object, which names no step). *)
Inductive Step : Type :=
| Named (name : string)
| Inherited.

(** [termState.commandHistory], [termState.historyIndex] and
    [termState.adventureState] ([None] is [undefined]).  The text of the
    input field is an argument of [executeCommand] and a result of the
    arrow keys; what the Enter key leaves in the field (line 2083, reached
    only when [executeCommand] returns without an exception) does not come
    back into these fields and is not kept. *)
Record t : Type := mk {
  commandHistory : list string;
  historyIndex : Z;
  adventureState : option Step
}.

(** [setupTerminalApp], line 1919. *)
Definition initial : t := mk [] (-1) None.

(** [ADVENTURE_STEPS], lines 1903-1912: the choices of each step. *)
Definition ADVENTURE_STEPS : list (string * list (string * string)) :=
  [ ("start", [("north", "forest_path"); ("east", "cave_entrance")]);
    ("forest_path", [("investigate", "rustle_source"); ("back", "start")]);
    ("cave_entrance", [("enter", "cave_glow"); ("back", "start")]);
    ("rustle_source", [("accept", "cookie_win"); ("decline", "bot_sad")]);
    ("cave_glow", [("pick", "chest_locked"); ("leave", "cave_entrance")]);
    ("cookie_win", []);
    ("bot_sad", []);
    ("chest_locked", []) ].

(** An own property of an object literal. *)
Fixpoint ownProperty {A : Type} (key : string) (o : list (string * A)) : option A :=
  match o with
  | [] => None
  | (k, v) :: rest => if (k =? key)%string then Some v else ownProperty key rest
  end.

(** The property names of [Object.prototype] that a lower-cased key can
    be: a lookup of one of them in a [choices] object gives a function or
    an object, which is truthy. *)
Definition inheritedKeys : list string := ["constructor"; "__proto__"].

Definition set_adventureState (a : option Step) (st : t) : t :=
  mk (commandHistory st) (historyIndex st) a.

(** [executeCommand(cmdLine)], lines 1939-2078, on the three fields of
    [termState].  Outside adventure mode the line is recorded (lines
    1942-1945) and only the command 'adventure' writes one of the fields
    (line 2048); the other commands print, change the theme or the
    wallpaper or open an app.  In adventure mode (lines 1947-1968) the
    step is written at line 1951 before the lines that throw for a value
    that names no step. *)
Definition executeCommand (cmdLine : string) (st : t) : t :=
  match adventureState st with
  | None =>
      let st1 :=
        if negb (isBlank cmdLine) then
          let h := (commandHistory st ++ [cmdLine])%list in
          mk h (Z.of_nat (List.length h)) (adventureState st)
        else st in
      if (toLowerCase (commandWord cmdLine) =? "adventure")%string
      then set_adventureState (Some (Named "start")) st1
      else st1
  | Some Inherited => st
  | Some (Named name) =>
      match ownProperty name ADVENTURE_STEPS with
      | None => st
      | Some choices =>
          let choiceKey := toLowerCase (trim cmdLine) in
          match ownProperty choiceKey choices with
          | Some next => set_adventureState (Some (Named next)) st
          | None =>
              if existsb (String.eqb choiceKey) inheritedKeys
              then set_adventureState (Some Inherited) st
              else if (choiceKey =? "exit")%string
              then set_adventureState None st
              else st
          end
      end
  end.

(** [termState.commandHistory[termState.historyIndex] || ''] *)
Definition recalled (h : list string) (i : Z) : string :=
  match itemAt h i with
  | Some c => c
  | None => ""
  end.

Definition inAdventure (st : t) : bool :=
  match adventureState st with Some _ => true | None => false end.

(** The ArrowUp branch of [inputEl.onkeydown], lines 2084-2087: the new
    fields and the text written to the input field, [None] when the field
    is left as it is. *)
Definition arrowUp (st : t) : t * option string :=
  if negb (Nat.eqb (List.length (commandHistory st)) 0) && negb (inAdventure st) then
    let i := Z.max 0 (historyIndex st - 1) in
    (mk (commandHistory st) i (adventureState st), Some (recalled (commandHistory st) i))
  else (st, None).

(** The ArrowDown branch, lines 2088-2091. *)
Definition arrowDown (st : t) : t * option string :=
  if negb (inAdventure st) then
    let i := Z.min (Z.of_nat (List.length (commandHistory st))) (historyIndex st + 1) in
    (mk (commandHistory st) i (adventureState st), Some (recalled (commandHistory st) i))
  else (st, None).

(** [k] presses of ArrowUp: the fields and what the last press wrote. *)
Fixpoint arrowUps (k : nat) (st : t) : t * option string :=
  match k with
  | O => (st, None)
  | S k' => arrowUp (fst (arrowUps k' st))
  end.

End Terminal.

(** ** MiniTunes: the track position (lines 2109-2163) *)

Module MusicPlayer.

(** [musicState.tracks], by duration in seconds. *)
Definition durations : list Z := [180; 240; 200; 150].

Record t : Type := mk {
  currentTrackIndex : Z;
  isPlaying : bool;
  currentTime : Z
}.

Definition initial : t := mk 0 false 0.

Definition tracksLength : Z := Z.of_nat (List.length durations).

(** The callback of the playback interval, lines 2135-2143.  [None] is the
    TypeError of reading [duration] of a track that does not exist. *)
Definition tick (st : t) : option t :=
  let time := currentTime st + 1 in
  match itemAt durations (currentTrackIndex st) with
  | Some duration =>
      if time >=? duration
      then Some (mk (Z.rem (currentTrackIndex st + 1) tracksLength) (isPlaying st) 0)
      else Some (mk (currentTrackIndex st) (isPlaying st) time)
  | None => None
  end.

(** [nextBtn.onclick], lines 2159-2163 *)
Definition next (st : t) : t :=
  mk (Z.rem (currentTrackIndex st + 1) tracksLength) (isPlaying st) 0.

(** [prevBtn.onclick], lines 2154-2158 *)
Definition prev (st : t) : t :=
  mk (Z.rem (currentTrackIndex st - 1 + tracksLength) tracksLength) (isPlaying st) 0.

Fixpoint ticks (n : nat) (st : t) : option t :=
  match n with
  | O => Some st
  | S n' =>
      match tick st with
      | Some st1 => ticks n' st1
      | None => None
      end
  end.

End MusicPlayer.

(** * Vocabulary of the properties *)

(** ** Projections of a record

    Each property below looks at a few fields of every record; an operation
    that leaves those fields alone leaves the property alone. *)

Definition core (w : AppWindow) : string * string * bool * Z * bool :=
  (id w, baseAppId w, isOpen w, zIndex w, isMinimized w).

Definition stackCore (w : AppWindow) : string * Z * bool :=
  (id w, zIndex w, isMinimized w).

Definition minimizedCore (w : AppWindow) : string * bool := (id w, isMinimized w).

Definition kindCore (w : AppWindow) : string * bool := (baseAppId w, isOpen w).

Definition openCore (w : AppWindow) : string * string * bool * bool :=
  (id w, baseAppId w, isOpen w, isMinimized w).

Definition snapshotCore (w : AppWindow) : bool * bool * option Geometry :=
  (isMaximized w, isMinimized w, originalPosition w).

Definition geometryCore (w : AppWindow) : string * Geometry := (id w, geometry w).

(** ** Relations between two states *)

(** Same focus, same counter, and the same id, kind, [isOpen], zIndex and
    [isMinimized] in every record. *)
Record frame (s s' : State) : Prop := mkFrame {
  frame_active : activeWindowId s' = activeWindowId s;
  frame_next : nextZIndex s' = nextZIndex s;
  frame_core : map core (windows s') = map core (windows s)
}.

(** Same focus, same counter, and the same id, zIndex and [isMinimized] in
    every record. *)
Record sameStack (s s' : State) : Prop := mkSameStack {
  sameStack_active : activeWindowId s' = activeWindowId s;
  sameStack_next : nextZIndex s' = nextZIndex s;
  sameStack_core : map stackCore (windows s') = map stackCore (windows s)
}.

(** No app kind has more open instances in [s'] than in [s]. *)
Definition instancesShrink (s s' : State) : Prop :=
  forall appId,
    (List.length (filter (isOpenInstanceOf appId) (windows s'))
     <= List.length (filter (isOpenInstanceOf appId) (windows s)))%nat.

(** Every record of [s] has a record of the same id in [s'], and the
    counter of zIndex has not gone back. *)
Record keeps (s s' : State) : Prop := mkKeeps {
  keeps_next : nextZIndex s <= nextZIndex s';
  keeps_ids : incl (map id (windows s)) (map id (windows s'))
}.

(** ** Invariants *)

Definition uniqueIds (s : State) : Prop := NoDup (map id (windows s)).

Definition zBelowNext (s : State) : Prop :=
  Forall (fun z => z < nextZIndex s) (map zIndex (windows s)).

Definition uniqueZ (s : State) : Prop := NoDup (map zIndex (windows s)).

Definition namedIds (s : State) : Prop :=
  Forall (fun i => i <> "") (map id (windows s)).

(** The facts about the stack that hold whoever is focused. *)
Record stacked (s : State) : Prop := mkStacked {
  stacked_ids : uniqueIds s;
  stacked_below : zBelowNext s;
  stacked_z : uniqueZ s;
  stacked_named : namedIds s
}.

(** The focused window exists, carries the last zIndex handed out and is
    not minimized. *)
Definition activeOnTop (s : State) : Prop :=
  forall a, activeWindowId s = Some a ->
    a <> "" /\
    exists w, In w (windows s) /\ id w = a /\ zIndex w = nextZIndex s - 1
              /\ isMinimized w = false.

Definition wellStacked (s : State) : Prop := stacked s /\ activeOnTop s.

(** An app kind that does not allow several instances has at most one
    record with [isOpen = true]. *)
Definition singleInstance (s : State) : Prop :=
  forall appId, allowsMultiple (findAppDef appId) = false ->
    (List.length (filter (isOpenInstanceOf appId) (windows s)) <= 1)%nat.

(** A record marked maximized or minimized has an [originalPosition]. *)
Definition hasSnapshot (w : AppWindow) : Prop :=
  isMaximized w = true \/ isMinimized w = true -> originalPosition w <> None.

Definition snapshotKept (s : State) : Prop := Forall hasSnapshot (windows s).

(** ** Names for what the functions compute *)

(** The windows after the body of [focusWindow] has run for [i]. *)
Definition focusedWindows (i : string) (z : Z) (ws : Windows) : Windows :=
  updateWindow i (set_classFocused true)
    (map (set_classFocused false) (updateWindow i (set_zIndex z) ws)).

(** The record that [createWindow] builds. *)
Definition newWindowOf (options : Options.t) (env : Env) (s : State)
    (windowEl : Element) : AppWindow :=
  mkAppWindow (windowId (Options.baseAppId options) (now env))
    (Options.baseAppId options) (Options.title options) windowEl
    false true (nextZIndex s) None false None.

(** The record that [minimizeWindow] leaves of [w]. *)
Definition minimizedRecord (w : AppWindow) : AppWindow :=
  set_isMinimized true
    (set_classMinimized true
       (set_isMaximized false
          (set_classMaximized false
             (set_originalPosition (Some (geometry w)) w)))).

(** The record that the menu action 'minimize-all' leaves of [w]. *)
Definition afterMinimizeAll (w : AppWindow) : AppWindow :=
  if negb (isMinimized w) && isOpen w then minimizedRecord w else w.

(** The screen edge that a pointer position selects during a drag, lines
    501-513: left before right before top. *)
Definition snapCandidate (e : MouseEvent) (m : Layout) : option SnapPosition :=
  if clientX e <? 20 then Some SnapLeft
  else if clientX e >? desktopClientWidth m - 20 then Some SnapRight
  else if clientY e <? menuBarOffsetHeight m + 20 then Some SnapTop
  else None.

(** The position that a move of a window drag writes. *)
Definition draggedLeft (ox : Z) (e : MouseEvent) (m : Layout) : Z :=
  clamp 0 (clientX e - ox) (boundsClientWidth m - targetOffsetWidth m).

Definition dockHeightOf (s : State) (m : Layout) : Z :=
  if isDockVisible s then dockOffsetHeight m + 10 else 0.

Definition draggedTop (oy : Z) (e : MouseEvent) (m : Layout) (s : State) : Z :=
  clamp (menuBarOffsetHeight m) (clientY e - oy)
    (boundsClientHeight m - targetOffsetHeight m - dockHeightOf s m).

(** ** What the claims say *)

(** C1 of a state: [activeWindowId] names at most one record; the record it
    names is not minimized and no record of the registry, open or closing,
    has a larger zIndex; and two records with the same zIndex are the same
    record. *)
Definition focusOnTop (s : State) : Prop :=
  (forall a v w, activeWindowId s = Some a ->
     In v (windows s) -> In w (windows s) -> id v = a -> id w = a -> v = w)
  /\ (forall a, activeWindowId s = Some a ->
        exists w, getWindow a (windows s) = Some w
                  /\ isMinimized w = false
                  /\ forall v, In v (windows s) -> zIndex v <= zIndex w)
  /\ (forall v w, In v (windows s) -> In w (windows s) -> zIndex v = zIndex w -> v = w).


(** C2, one call that finds an open instance [ex] in the registry: [openApp]
    creates nothing, restores that instance if it is minimized and focuses
    it. *)
Definition redirectsToExisting (appId : string) (s : State) : Prop :=
  forall env ex rest,
    filter (isOpenInstanceOf appId) (windows s) = ex :: rest ->
    let s' := openApp appId env s in
    map id (windows s') = map id (windows s)
    /\ activeWindowId s' = Some (id ex)
    /\ exists w', getWindow (id ex) (windows s') = Some w'
                  /\ isOpenInstanceOf appId w' = true
                  /\ isMinimized w' = false.

(** C3: the records of an app kind that are in the registry, whatever their
    [isOpen] flag.  A record leaves the registry only when the timer of
    [closeWindow] fires, so these are the records that are not yet Closed. *)
Definition recordsOfKind (appId : string) (s : State) : list AppWindow :=
  filter (fun w => (baseAppId w =? appId)%string) (windows s).

(** C5, as the code has it: each record marked maximized or minimized has
    an [originalPosition]; [minimizeWindow] and the maximizing branch of
    [toggleMaximizeWindow] store the geometry the window has when they are
    called; [applySnap] writes the edge rectangle and stores nothing. *)
Definition snapshotContract (s : State) : Prop :=
  (forall w, In w (windows s) ->
     isMaximized w = true \/ isMinimized w = true -> originalPosition w <> None)
  /\ (forall i w, getWindow i (windows s) = Some w -> isMinimized w = false ->
        exists w', getWindow i (windows (minimizeWindow i s)) = Some w'
                   /\ isMinimized w' = true
                   /\ originalPosition w' = Some (geometry w))
  /\ (forall i w, getWindow i (windows s) = Some w -> isMaximized w = false ->
        exists w', getWindow i (windows (toggleMaximizeWindow i s)) = Some w'
                   /\ isMaximized w' = true
                   /\ originalPosition w' = Some (geometry w))
  /\ (forall i w position,
        getWindow i (windows s) = Some w -> isSnapping w = Some position ->
        exists w', getWindow i (windows (applySnap i s)) = Some w'
                   /\ geometry w' = snapRectangle position (isDockVisible s)
                   /\ originalPosition w' = originalPosition w).

(** C8, the size bound for one window: width at least 300 and height at
    least 200, in pixels. *)
Definition atLeastMinimumSize (w : AppWindow) : Prop :=
  exists n k, pxOf (width (geometry w)) = Some n /\ 300 <= n
              /\ pxOf (height (geometry w)) = Some k /\ 200 <= k.

(** C8, as the code has it: what a pointer move of a session leaves behind,
    for the window [w] stored under [i] in [s]. *)
Definition moveBounds (i : string) (w : AppWindow) (s : State) : Prop :=
  (forall sx sy sw sh e,
     exists w',
       getWindow i (windows (resizeMouseMove i sx sy sw sh e s)) = Some w'
       /\ atLeastMinimumSize w'
       /\ top (geometry w') = top (geometry w)
       /\ left (geometry w') = left (geometry w))
  /\ (forall ox oy e m,
        exists w' x y,
          getWindow i (windows (dragMouseMove i true ox oy e m s)) = Some w'
          /\ left (geometry w') = CssPx x /\ top (geometry w') = CssPx y
          /\ 0 <= x
          /\ menuBarOffsetHeight m <= y
          /\ (targetOffsetWidth m <= boundsClientWidth m ->
              x + targetOffsetWidth m <= boundsClientWidth m)
          /\ (menuBarOffsetHeight m + targetOffsetHeight m + dockHeightOf s m
              <= boundsClientHeight m ->
              y + targetOffsetHeight m + dockHeightOf s m <= boundsClientHeight m)
          /\ width (geometry w') = width (geometry w)
          /\ height (geometry w') = height (geometry w)).

(** C8, as the code has it: the state in which a session ends; [w] is
    the record stored under [i] in [s].  For a release that follows a
    pointer move arriving in [s]: a resize ends with the minimum size and
    the position it had; a window drag ends with the snap rectangle of the
    edge its record is marked with, if it is marked; if it is not (as
    after a move away from the snap zones) it ends inside the bounds of
    the move and with the size it had.  For a release in [s] itself: a
    resize leaves the record as it is, and so does a window drag unless
    the record is marked, which gives it the snap rectangle. *)
Definition endBounds (i : string) (w : AppWindow) (s : State) : Prop :=
  (forall sx sy sw sh e m,
     pointerSession s = Some (Resizing i sx sy sw sh) ->
     let s' := mouseUp (mouseMove e m s) in
     pointerSession s' = None
     /\ exists w', getWindow i (windows s') = Some w'
                   /\ atLeastMinimumSize w'
                   /\ top (geometry w') = top (geometry w)
                   /\ left (geometry w') = left (geometry w))
  /\ (forall ox oy e m,
        pointerSession s = Some (Dragging i true ox oy) ->
        let moved := mouseMove e m s in
        let s' := mouseUp moved in
        pointerSession s' = None
        /\ exists w1 w',
             getWindow i (windows moved) = Some w1
             /\ getWindow i (windows s') = Some w'
             /\ (snapCandidate e m = None -> isSnapping w1 = None)
             /\ match isSnapping w1 with
                | Some position =>
                    geometry w' = snapRectangle position (isDockVisible s)
                | None =>
                    exists x y,
                      left (geometry w') = CssPx x /\ top (geometry w') = CssPx y
                      /\ 0 <= x
                      /\ menuBarOffsetHeight m <= y
                      /\ (targetOffsetWidth m <= boundsClientWidth m ->
                          x + targetOffsetWidth m <= boundsClientWidth m)
                      /\ (menuBarOffsetHeight m + targetOffsetHeight m + dockHeightOf s m
                          <= boundsClientHeight m ->
                          y + targetOffsetHeight m + dockHeightOf s m
                          <= boundsClientHeight m)
                      /\ width (geometry w') = width (geometry w)
                      /\ height (geometry w') = height (geometry w)
                end)
  /\ (forall sx sy sw sh,
        pointerSession s = Some (Resizing i sx sy sw sh) ->
        pointerSession (mouseUp s) = None
        /\ getWindow i (windows (mouseUp s)) = Some w)
  /\ (forall ox oy,
        pointerSession s = Some (Dragging i true ox oy) ->
        pointerSession (mouseUp s) = None
        /\ match isSnapping w with
           | Some position =>
               exists w', getWindow i (windows (mouseUp s)) = Some w'
                          /\ geometry w' = snapRectangle position (isDockVisible s)
           | None => getWindow i (windows (mouseUp s)) = Some w
           end).


(** ** Concrete runs

    An environment whose clock reads [t], with the random terms at zero and
    every content template present; two layouts of a 1280 by 800 desktop
    with a 28px menu bar and a 60px dock, one for a 350 by 450 window and
    one for a 250 by 250 window. *)

Definition envAt (t : Z) : Env := mkEnv t 0 0 0 0 (fun _ => true).

Definition someLayout : Layout := mkLayout 28 60 1280 800 1280 100 100 350 450 350 450.

Definition stickyLayout : Layout := mkLayout 28 60 1280 800 1280 50 50 250 250 250 250.

(** The state after: open About, open Notepad, click About's title bar. *)
Definition stateThreeSteps : State :=
  Eval vm_compute in
    match runTrace [EvOpenApp "About" (envAt 1); EvOpenApp "Notepad" (envAt 2);
                    EvFocusWindow "About-1"] initialState with
    | Some s => s
    | None => initialState
    end.

(** The state after opening one Notepad window. *)
Definition stateNotepad : State :=
  Eval vm_compute in openApp "Notepad" (envAt 1) initialState.

(** The state after opening a Notepad window and minimizing it. *)
Definition stateMinimized : State :=
  Eval vm_compute in minimizeWindow "Notepad-1" stateNotepad.



(** The state after: open Settings, close it, open Settings again before
    the 200 ms timer of the close has fired. *)
Definition stateReopenedWhileClosing : State :=
  Eval vm_compute in
    match runTrace [EvOpenApp "Settings" (envAt 1); EvCloseWindow "Settings-1";
                    EvOpenApp "Settings" (envAt 2)] initialState with
    | Some s => s
    | None => initialState
    end.



(** The state in the middle of a drag of a Notepad window whose pointer is
    at the left screen edge. *)
Definition stateDraggedLeft : State :=
  Eval vm_compute in
    match runTrace [EvOpenApp "Notepad" (envAt 1);
                    EvTitleBarMouseDown "Notepad-1" (mkMouseEvent 60 60) someLayout;
                    EvMouseMove (mkMouseEvent 5 300) someLayout] initialState with
    | Some s => s
    | None => initialState
    end.

(** The state after that drag was released. *)
Definition stateSnappedLeft : State :=
  Eval vm_compute in mouseUp stateDraggedLeft.

(** A state with a minimized window (About), a maximized one (Settings)
    and a window in the middle of a drag whose pointer is at the left
    screen edge (Notepad). *)
Definition stateSnapshots : State :=
  Eval vm_compute in
    match runTrace [EvOpenApp "About" (envAt 1); EvMinimizeWindow "About-1";
                    EvOpenApp "Settings" (envAt 2); EvToggleMaximizeWindow "Settings-2";
                    EvOpenApp "Notepad" (envAt 3);
                    EvTitleBarMouseDown "Notepad-3" (mkMouseEvent 160 160) someLayout;
                    EvMouseMove (mkMouseEvent 5 300) someLayout] initialState with
    | Some s => s
    | None => initialState
    end.

(** The state after a Sticky Notes window was opened and pressed on its
    title bar: the drag has begun. *)
Definition stateStickyDragging : State :=
  Eval vm_compute in
    match runTrace [EvOpenApp "StickyNotes" (envAt 1);
                    EvTitleBarMouseDown "StickyNotes-1" (mkMouseEvent 60 60) stickyLayout]
            initialState with
    | Some s => s
    | None => initialState
    end.

(** The state after a Sticky Notes window was opened and pressed on its
    resize handle: the resize has begun. *)
Definition stateStickyResizing : State :=
  Eval vm_compute in
    match runTrace [EvOpenApp "StickyNotes" (envAt 1);
                    EvResizeHandleMouseDown "StickyNotes-1" (mkMouseEvent 300 300)
                      stickyLayout] initialState with
    | Some s => s
    | None => initialState
    end.

(** The state after a Sticky Notes window was opened, dragged by its title
    bar and released away from the screen edges. *)
Definition stateStickyDragged : State :=
  Eval vm_compute in
    match runTrace [EvOpenApp "StickyNotes" (envAt 1);
                    EvTitleBarMouseDown "StickyNotes-1" (mkMouseEvent 60 60) stickyLayout;
                    EvMouseMove (mkMouseEvent 400 300) stickyLayout;
                    EvMouseUp] initialState with
    | Some s => s
    | None => initialState
    end.

(** ** Proof steps that repeat *)

(** A record update leaves [core] alone. *)
Ltac core_preserved :=
  let w := fresh "w" in
  intros w; unfold reapplyOriginalPosition; cbn;
  try destruct (originalPosition w); reflexivity.

(** A record update keeps [hasSnapshot]. *)
Ltac snapshot_preserved :=
  let w := fresh "w" in
  let H := fresh "H" in
  intros w H; unfold hasSnapshot, reapplyOriginalPosition in *; cbn in *;
  try destruct (originalPosition w) eqn:?; cbn in *;
  intuition (try discriminate; try congruence).

(** Comparisons of integers decided case by case. *)
Ltac by_comparisons :=
  repeat match goal with
         | |- context [(?x =? ?y)%Z] => destruct (Z.eqb_spec x y)
         | |- context [(?x <=? ?y)%Z] => destruct (Z.leb_spec x y)
         | |- context [(?x >=? ?y)%Z] => destruct (Z.geb_spec x y)
         | |- context [(?x <? ?y)%Z] => destruct (Z.ltb_spec x y)
         | |- context [(?x >? ?y)%Z] => destruct (Z.gtb_spec x y)
         end;
  try lia; try reflexivity.

(** * Properties *)

(** ** The registry as a list *)

Section RegistryFacts.

Lemma getWindow_id (i : string) (ws : Windows) (w : AppWindow) :
  getWindow i ws = Some w -> id w = i.
Proof.
  induction ws as [|x rest IH]; simpl; [discriminate|].
  destruct (String.eqb_spec (id x) i) as [E|E]; [|exact IH].
  intros H; injection H as <-; exact E.
Qed.

Lemma getWindow_In (i : string) (ws : Windows) (w : AppWindow) :
  getWindow i ws = Some w -> In w ws.
Proof.
  induction ws as [|x rest IH]; simpl; [discriminate|].
  destruct (id x =? i)%string; [|auto].
  intros H; injection H as <-; now left.
Qed.

Lemma getWindow_None (i : string) (ws : Windows) :
  getWindow i ws = None -> forall w, In w ws -> id w <> i.
Proof.
  induction ws as [|x rest IH]; simpl; [tauto|].
  destruct (String.eqb_spec (id x) i) as [E|E]; [discriminate|].
  intros H w [<-|Hin]; auto.
Qed.

Lemma In_getWindow (ws : Windows) (w : AppWindow) :
  NoDup (map id ws) -> In w ws -> getWindow (id w) ws = Some w.
Proof.
  induction ws as [|x rest IH]; simpl; [tauto|].
  intros Hnd [->|Hin]; [now rewrite String.eqb_refl|].
  inversion Hnd as [|? ? Hx Hrest]; subst.
  destruct (String.eqb_spec (id x) (id w)) as [E|E]; [|auto].
  exfalso; apply Hx; rewrite E; now apply in_map.
Qed.

Lemma In_some_getWindow (ws : Windows) (w : AppWindow) :
  In w ws -> exists v, getWindow (id w) ws = Some v.
Proof.
  induction ws as [|x rest IH]; simpl; [tauto|].
  intros [->|Hin].
  - rewrite String.eqb_refl; eauto.
  - destruct (id x =? id w)%string; eauto.
Qed.

(** *** [updateWindow] *)

Lemma map_updateWindow {B : Type} (g : AppWindow -> B) (i : string)
    (f : AppWindow -> AppWindow) (ws : Windows) :
  (forall w, id w = i -> g (f w) = g w) ->
  map g (updateWindow i f ws) = map g ws.
Proof.
  intros Hg; induction ws as [|x rest IH]; simpl; [reflexivity|].
  destruct (String.eqb_spec (id x) i) as [E|E]; simpl.
  - now rewrite Hg.
  - now rewrite IH.
Qed.

Lemma getWindow_updateWindow_same (i : string) (f : AppWindow -> AppWindow)
    (ws : Windows) :
  (forall w, id (f w) = id w) ->
  getWindow i (updateWindow i f ws) = option_map f (getWindow i ws).
Proof.
  intros Hf; induction ws as [|x rest IH]; simpl; [reflexivity|].
  destruct (String.eqb_spec (id x) i) as [E|E]; simpl.
  - now rewrite Hf, <- E, String.eqb_refl.
  - destruct (String.eqb_spec (id x) i); [contradiction|exact IH].
Qed.

Lemma getWindow_updateWindow_other (i j : string) (f : AppWindow -> AppWindow)
    (ws : Windows) :
  (forall w, id (f w) = id w) -> j <> i ->
  getWindow j (updateWindow i f ws) = getWindow j ws.
Proof.
  intros Hf Hji; induction ws as [|x rest IH]; simpl; [reflexivity|].
  destruct (String.eqb_spec (id x) i) as [E|E]; simpl.
  - rewrite Hf. destruct (String.eqb_spec (id x) j); [congruence|reflexivity].
  - now rewrite IH.
Qed.

Lemma Forall_updateWindow (P : AppWindow -> Prop) (i : string)
    (f : AppWindow -> AppWindow) (ws : Windows) :
  (forall w, id w = i -> P w -> P (f w)) ->
  Forall P ws -> Forall P (updateWindow i f ws).
Proof.
  intros Hf; induction 1 as [|x rest Hx Hrest IH]; simpl; [constructor|].
  destruct (String.eqb_spec (id x) i); constructor; auto.
Qed.

Lemma In_updateWindow_other (i : string) (f : AppWindow -> AppWindow)
    (ws : Windows) (w : AppWindow) :
  In w ws -> id w <> i -> In w (updateWindow i f ws).
Proof.
  induction ws as [|x rest IH]; simpl; [tauto|].
  intros [->|Hin] Hne.
  - destruct (String.eqb_spec (id w) i); [contradiction|now left].
  - destruct (id x =? i)%string; simpl; auto.
Qed.

Lemma updateWindow_absent (i : string) (f : AppWindow -> AppWindow) (ws : Windows) :
  getWindow i ws = None -> updateWindow i f ws = ws.
Proof.
  induction ws as [|x rest IH]; simpl; [reflexivity|].
  destruct (id x =? i)%string; [discriminate|].
  intros H; now rewrite IH.
Qed.

(** *** [setWindow] *)

Lemma getWindow_setWindow_same (w : AppWindow) (ws : Windows) :
  getWindow (id w) (setWindow w ws) = Some w.
Proof.
  induction ws as [|x rest IH]; simpl.
  - now rewrite String.eqb_refl.
  - destruct (String.eqb_spec (id x) (id w)) as [E|E]; simpl.
    + now rewrite String.eqb_refl.
    + destruct (String.eqb_spec (id x) (id w)); [contradiction|exact IH].
Qed.

Lemma getWindow_setWindow_other (j : string) (w : AppWindow) (ws : Windows) :
  j <> id w -> getWindow j (setWindow w ws) = getWindow j ws.
Proof.
  intros Hj; induction ws as [|x rest IH]; simpl.
  - destruct (String.eqb_spec (id w) j); [congruence|reflexivity].
  - destruct (String.eqb_spec (id x) (id w)) as [E|E]; simpl.
    + destruct (String.eqb_spec (id w) j); [congruence|].
      destruct (String.eqb_spec (id x) j); [congruence|reflexivity].
    + now rewrite IH.
Qed.

Lemma In_setWindow (v w : AppWindow) (ws : Windows) :
  In v (setWindow w ws) -> v = w \/ In v ws.
Proof.
  induction ws as [|x rest IH]; simpl.
  - intros [<-|[]]; now left.
  - destruct (id x =? id w)%string; simpl; intros [<-|Hin]; auto.
    destruct (IH Hin); auto.
Qed.


Lemma setWindow_present (w : AppWindow) (ws : Windows) (v : AppWindow) :
  getWindow (id w) ws = Some v -> setWindow w ws = updateWindow (id w) (fun _ => w) ws.
Proof.
  induction ws as [|x rest IH]; simpl; [discriminate|].
  destruct (id x =? id w)%string; [reflexivity|].
  intros H; now rewrite IH.
Qed.

(** *** [deleteWindow] *)

Lemma In_deleteWindow (i : string) (v : AppWindow) (ws : Windows) :
  In v (deleteWindow i ws) -> In v ws.
Proof.
  induction ws as [|x rest IH]; simpl; [tauto|].
  destruct (id x =? i)%string; simpl; [auto|].
  intros [<-|Hin]; auto.
Qed.

Lemma In_deleteWindow_other (i : string) (v : AppWindow) (ws : Windows) :
  In v ws -> id v <> i -> In v (deleteWindow i ws).
Proof.
  induction ws as [|x rest IH]; simpl; [tauto|].
  intros [->|Hin] Hne.
  - destruct (String.eqb_spec (id v) i); [contradiction|now left].
  - destruct (id x =? i)%string; simpl; auto.
Qed.

Lemma NoDup_map_deleteWindow {B : Type} (g : AppWindow -> B) (i : string) (ws : Windows) :
  NoDup (map g ws) -> NoDup (map g (deleteWindow i ws)).
Proof.
  induction ws as [|x rest IH]; simpl; [auto|].
  intros Hnd; inversion Hnd as [|? ? Hx Hrest]; subst.
  destruct (id x =? i)%string; simpl; [assumption|].
  constructor; [|auto].
  intros Hin; apply Hx.
  apply in_map_iff in Hin as (v & Hv & Hin).
  apply in_map_iff; exists v; split; [assumption|].
  eapply In_deleteWindow; eassumption.
Qed.

Lemma Forall_deleteWindow (P : AppWindow -> Prop) (i : string) (ws : Windows) :
  Forall P ws -> Forall P (deleteWindow i ws).
Proof.
  rewrite !Forall_forall; intros H v Hv; apply H.
  eapply In_deleteWindow; eassumption.
Qed.

(** *** Counting with [filter] *)

Lemma filter_length_map (p : AppWindow -> bool) (ws ws' : Windows) :
  map p ws' = map p ws ->
  List.length (filter p ws') = List.length (filter p ws).
Proof.
  revert ws'; induction ws as [|x rest IH]; intros [|x' rest']; simpl;
    try discriminate; [reflexivity|].
  intros H; injection H as Hx Hrest.
  rewrite Hx; destruct (p x); simpl; auto.
Qed.

Lemma filter_length_updateWindow_le (p : AppWindow -> bool) (i : string)
    (f : AppWindow -> AppWindow) (ws : Windows) :
  (forall w, p (f w) = true -> p w = true) ->
  (List.length (filter p (updateWindow i f ws)) <= List.length (filter p ws))%nat.
Proof.
  intros Hf; induction ws as [|x rest IH]; simpl; [lia|].
  destruct (id x =? i)%string; simpl.
  - destruct (p (f x)) eqn:E; [rewrite (Hf _ E); simpl; lia|].
    destruct (p x); simpl; lia.
  - destruct (p x); simpl; lia.
Qed.

Lemma filter_length_deleteWindow_le (p : AppWindow -> bool) (i : string) (ws : Windows) :
  (List.length (filter p (deleteWindow i ws)) <= List.length (filter p ws))%nat.
Proof.
  induction ws as [|x rest IH]; simpl; [lia|].
  destruct (id x =? i)%string; simpl; destruct (p x); simpl; lia.
Qed.

Lemma filter_length_setWindow_le (p : AppWindow -> bool) (w : AppWindow) (ws : Windows) :
  (List.length (filter p (setWindow w ws))
   <= List.length (filter p ws) + (if p w then 1 else 0))%nat.
Proof.
  induction ws as [|x rest IH]; simpl.
  - destruct (p w); simpl; lia.
  - destruct (id x =? id w)%string; simpl.
    + destruct (p w), (p x); simpl; lia.
    + destruct (p x); simpl; lia.
Qed.

Lemma filter_nil_of_existsb (p : AppWindow -> bool) (ws : Windows) :
  existsb p ws = false -> filter p ws = [].
Proof.
  induction ws as [|x rest IH]; simpl; [reflexivity|].
  destruct (p x); simpl; [discriminate|exact IH].
Qed.

End RegistryFacts.

(** ** Frames: operations that leave identity, kind, lifecycle flags and
    stacking of every record alone *)

Lemma frame_refl (s : State) : frame s s.
Proof. now constructor. Qed.

Lemma frame_trans (s1 s2 s3 : State) : frame s1 s2 -> frame s2 s3 -> frame s1 s3.
Proof.
  intros [A1 N1 C1] [A2 N2 C2]; constructor; congruence.
Qed.

Lemma frame_mutate (i : string) (f : AppWindow -> AppWindow) (s : State) :
  (forall w, core (f w) = core w) -> frame s (mutate i f s).
Proof.
  intros Hf; constructor; try reflexivity.
  simpl; apply map_updateWindow; auto.
Qed.

Lemma frame_map {B : Type} (g : AppWindow -> B) (h : string * string * bool * Z * bool -> B)
    (s s' : State) :
  (forall w, g w = h (core w)) -> frame s s' ->
  map g (windows s') = map g (windows s).
Proof.
  intros Hg [_ _ C].
  rewrite (map_ext g (fun w => h (core w)) Hg (windows s')).
  rewrite (map_ext g (fun w => h (core w)) Hg (windows s)).
  rewrite <- !(map_map core h); now rewrite C.
Qed.

Lemma frame_In (s s' : State) (w : AppWindow) :
  frame s s' -> In w (windows s) -> exists w', In w' (windows s') /\ core w' = core w.
Proof.
  intros [_ _ C] Hin.
  apply (in_map core) in Hin; rewrite <- C in Hin.
  apply in_map_iff in Hin as (w' & E & Hin'); eauto.
Qed.

Lemma frame_sym (s s' : State) : frame s s' -> frame s' s.
Proof. intros [A N C]; constructor; congruence. Qed.

Lemma getWindow_map_core (i : string) (ws ws' : Windows) (w : AppWindow) :
  map core ws' = map core ws -> getWindow i ws = Some w ->
  exists w', getWindow i ws' = Some w' /\ core w' = core w.
Proof.
  revert ws'; induction ws as [|x rest IH]; intros [|x' rest']; simpl;
    intros C Hw; try discriminate.
  injection C as Hid Hbase Hopen Hz Hmin Hrest.
  rewrite Hid; destruct (id x =? i)%string; [|now apply IH].
  injection Hw as <-; exists x'; split; [reflexivity|].
  unfold core; congruence.
Qed.

Lemma frame_getWindow (s s' : State) (i : string) (w : AppWindow) :
  frame s s' -> getWindow i (windows s) = Some w ->
  exists w', getWindow i (windows s') = Some w' /\ core w' = core w.
Proof.
  intros [_ _ C]; now apply getWindow_map_core.
Qed.

Lemma frame_toggleMaximizeWindow (i : string) (s : State) :
  frame s (toggleMaximizeWindow i s).
Proof.
  unfold toggleMaximizeWindow.
  destruct (getWindow i (windows s)) as [w|]; [|apply frame_refl].
  destruct (isMaximized w); apply frame_mutate; core_preserved.
Qed.

Lemma frame_applySnap (i : string) (s : State) : frame s (applySnap i s).
Proof.
  unfold applySnap.
  destruct (getWindow i (windows s)) as [w|]; [|apply frame_refl].
  destruct (isSnapping w); [|apply frame_refl].
  apply frame_mutate; core_preserved.
Qed.

Lemma frame_showSnapIndicator (p : SnapPosition) (s : State) :
  frame s (showSnapIndicator p s).
Proof.
  unfold showSnapIndicator.
  destruct (snapIndicator s); simpl; [|apply frame_refl].
  destruct (activeWindowId s) as [a|]; [|apply frame_refl].
  destruct (a =? "")%string; [apply frame_refl|].
  apply frame_mutate; core_preserved.
Qed.

Lemma frame_set_pointerSession (p : option Session) (s : State) :
  frame s (set_pointerSession p s).
Proof. now constructor. Qed.

Lemma frame_set_snapIndicator (b : bool) (s : State) :
  frame s (set_snapIndicator b s).
Proof. now constructor. Qed.

Lemma frame_set_isDockVisible (b : bool) (s : State) :
  frame s (set_isDockVisible b s).
Proof. now constructor. Qed.

Lemma frame_dragMouseMove (i : string) (h : bool) (ox oy : Z) (e : MouseEvent)
    (m : Layout) (s : State) :
  frame s (dragMouseMove i h ox oy e m s).
Proof.
  unfold dragMouseMove.
  set (s1 := if h then mutate i _ s else s).
  assert (F1 : frame s s1).
  { subst s1; destruct h; [apply frame_mutate; core_preserved|apply frame_refl]. }
  repeat match goal with
         | |- frame _ (if ?c then _ else _) => destruct c
         end;
    try (eapply frame_trans; [exact F1|apply frame_showSnapIndicator]);
    try exact F1.
  eapply frame_trans; [exact F1|apply frame_mutate; core_preserved].
Qed.

Lemma frame_dragMouseUp (i : string) (h : bool) (s : State) :
  frame s (dragMouseUp i h s).
Proof.
  unfold dragMouseUp; destruct h.
  - eapply frame_trans; [apply frame_set_pointerSession|apply frame_applySnap].
  - apply frame_set_pointerSession.
Qed.

Lemma frame_resizeMouseDown (i : string) (e : MouseEvent) (m : Layout) (s : State) :
  frame s (resizeMouseDown i e m s).
Proof.
  unfold resizeMouseDown.
  destruct (getWindow i (windows s)) as [w|]; [|apply frame_set_pointerSession].
  destruct (isMaximized w || _); [apply frame_refl|apply frame_set_pointerSession].
Qed.

Lemma frame_resizeMouseMove (i : string) (sx sy sw sh : Z) (e : MouseEvent) (s : State) :
  frame s (resizeMouseMove i sx sy sw sh e s).
Proof. apply frame_mutate; core_preserved. Qed.

Lemma frame_mouseMove (e : MouseEvent) (m : Layout) (s : State) :
  frame s (mouseMove e m s).
Proof.
  unfold mouseMove; destruct (pointerSession s) as [[i h ox oy|i sx sy sw sh]|].
  - apply frame_dragMouseMove.
  - apply frame_resizeMouseMove.
  - apply frame_refl.
Qed.

Lemma frame_mouseUp (s : State) : frame s (mouseUp s).
Proof.
  unfold mouseUp; destruct (pointerSession s) as [[i h ox oy|i sx sy sw sh]|].
  - apply frame_dragMouseUp.
  - apply frame_set_pointerSession.
  - apply frame_refl.
Qed.

Lemma frame_reapplyDockConstraints (s : State) (i : string) :
  frame s (reapplyDockConstraints s i).
Proof.
  unfold reapplyDockConstraints.
  destruct (getWindow i (windows s)) as [w|]; [|apply frame_refl].
  destruct (isOpen w && _); [|apply frame_refl].
  set (s1 := if isMaximized w then _ else s).
  assert (F1 : frame s s1).
  { subst s1; destruct (isMaximized w); [|apply frame_refl].
    eapply frame_trans; apply frame_toggleMaximizeWindow. }
  destruct (getWindow i (windows s1)) as [w1|]; [|exact F1].
  destruct (isSnapping w1); [|exact F1].
  eapply frame_trans; [exact F1|apply frame_applySnap].
Qed.

Lemma frame_fold_reapply (ids : list string) (s : State) :
  frame s (fold_left reapplyDockConstraints ids s).
Proof.
  revert s; induction ids as [|i rest IH]; intros s; simpl; [apply frame_refl|].
  eapply frame_trans; [apply frame_reapplyDockConstraints|apply IH].
Qed.

Lemma frame_toggleDockVisibility (s : State) : frame s (toggleDockVisibility s).
Proof.
  unfold toggleDockVisibility.
  eapply frame_trans; [apply frame_set_isDockVisible|apply frame_fold_reapply].
Qed.

(** ** Stacking and focus *)

Lemma map_via {A B C : Type} (c : A -> B) (g : A -> C) (h : B -> C) (l l' : list A) :
  (forall a, g a = h (c a)) -> map c l' = map c l -> map g l' = map g l.
Proof.
  intros Hg E.
  rewrite (map_ext g (fun a => h (c a)) Hg l'), (map_ext g (fun a => h (c a)) Hg l).
  rewrite <- !(map_map c h); now rewrite E.
Qed.

Lemma frame_sameStack (s s' : State) : frame s s' -> sameStack s s'.
Proof.
  intros [A N C]; constructor; auto.
  apply (map_via core stackCore (fun c => match c with (i, _, _, z, m) => (i, z, m) end));
    [reflexivity|exact C].
Qed.

Lemma sameStack_refl (s : State) : sameStack s s.
Proof. now constructor. Qed.

Lemma sameStack_trans (s1 s2 s3 : State) :
  sameStack s1 s2 -> sameStack s2 s3 -> sameStack s1 s3.
Proof. intros [A1 N1 C1] [A2 N2 C2]; constructor; congruence. Qed.

Lemma sameStack_mutate (i : string) (f : AppWindow -> AppWindow) (s : State) :
  (forall w, stackCore (f w) = stackCore w) -> sameStack s (mutate i f s).
Proof.
  intros Hf; constructor; try reflexivity.
  simpl; apply map_updateWindow; auto.
Qed.

Lemma stacked_sameStack (s s' : State) : sameStack s s' -> stacked s -> stacked s'.
Proof.
  intros [A N C] [I B U M].
  assert (Eid : map id (windows s') = map id (windows s))
    by (apply (map_via stackCore id (fun c => fst (fst c))); [reflexivity|exact C]).
  assert (Ez : map zIndex (windows s') = map zIndex (windows s))
    by (apply (map_via stackCore zIndex (fun c => snd (fst c))); [reflexivity|exact C]).
  constructor; unfold uniqueIds, zBelowNext, uniqueZ, namedIds;
    rewrite ?Eid, ?Ez, ?N; assumption.
Qed.

Lemma activeOnTop_sameStack (s s' : State) :
  sameStack s s' -> activeOnTop s -> activeOnTop s'.
Proof.
  intros [A N C] H a Ha; rewrite A in Ha.
  destruct (H a Ha) as (Hne & w & Hin & Hid & Hz & Hm); split; [assumption|].
  apply (in_map stackCore) in Hin; rewrite <- C in Hin.
  apply in_map_iff in Hin as (w' & E & Hin').
  unfold stackCore in E; injection E as E1 E2 E3.
  exists w'; rewrite N; repeat split; congruence.
Qed.

Lemma wellStacked_sameStack (s s' : State) :
  sameStack s s' -> wellStacked s -> wellStacked s'.
Proof.
  intros F [S A]; split;
    [eapply stacked_sameStack|eapply activeOnTop_sameStack]; eassumption.
Qed.

Lemma wellStacked_frame (s s' : State) : frame s s' -> wellStacked s -> wellStacked s'.
Proof. intros F; apply wellStacked_sameStack, frame_sameStack, F. Qed.

Lemma wellStacked_initial : wellStacked initialState.
Proof.
  split; [constructor; constructor|].
  intros a Ha; discriminate.
Qed.

(** *** [focusWindow] *)

Lemma getWindow_map (i : string) (f : AppWindow -> AppWindow) (ws : Windows) :
  (forall w, id (f w) = id w) ->
  getWindow i (map f ws) = option_map f (getWindow i ws).
Proof.
  intros Hf; induction ws as [|x rest IH]; simpl; [reflexivity|].
  rewrite Hf; destruct (id x =? i)%string; [reflexivity|exact IH].
Qed.

Lemma In_zIndex_raise (i : string) (z y : Z) (ws : Windows) :
  In y (map zIndex (updateWindow i (set_zIndex z) ws)) ->
  y = z \/ In y (map zIndex ws).
Proof.
  induction ws as [|x rest IH]; simpl; [tauto|].
  destruct (id x =? i)%string; simpl.
  - intros [<-|H]; auto.
  - intros [<-|H]; auto. destruct (IH H); auto.
Qed.

Lemma NoDup_zIndex_raise (i : string) (z : Z) (ws : Windows) :
  Forall (fun y => y < z) (map zIndex ws) -> NoDup (map zIndex ws) ->
  NoDup (map zIndex (updateWindow i (set_zIndex z) ws)).
Proof.
  induction ws as [|x rest IH]; simpl; [auto|].
  intros Hb Hnd; inversion Hb as [|? ? Hx Hrest]; inversion Hnd as [|? ? Nx Nrest]; subst.
  destruct (id x =? i)%string; simpl; constructor; auto.
  - intros Hin. rewrite Forall_forall in Hrest. specialize (Hrest _ Hin). lia.
  - intros Hin. apply In_zIndex_raise in Hin as [E|Hin]; [lia|contradiction].
Qed.

Lemma Forall_zIndex_raise (i : string) (z : Z) (ws : Windows) :
  Forall (fun y => y < z) (map zIndex ws) ->
  Forall (fun y => y < z + 1) (map zIndex (updateWindow i (set_zIndex z) ws)).
Proof.
  intros H; rewrite Forall_forall in *; intros y Hy.
  apply In_zIndex_raise in Hy as [->|Hy]; [lia|]. specialize (H _ Hy); lia.
Qed.

Lemma map_focusedWindows {B : Type} (g : AppWindow -> B) (i : string) (z : Z) (ws : Windows) :
  (forall b w, g (set_classFocused b w) = g w) ->
  map g (focusedWindows i z ws) = map g (updateWindow i (set_zIndex z) ws).
Proof.
  intros Hg; unfold focusedWindows.
  rewrite map_updateWindow by (intros; apply Hg).
  rewrite map_map; apply map_ext; intros; apply Hg.
Qed.

Lemma getWindow_focusedWindows (i : string) (z : Z) (ws : Windows) :
  getWindow i (focusedWindows i z ws)
  = option_map (fun w => set_classFocused true (set_classFocused false (set_zIndex z w)))
      (getWindow i ws).
Proof.
  unfold focusedWindows.
  rewrite getWindow_updateWindow_same by reflexivity.
  rewrite getWindow_map by reflexivity.
  rewrite getWindow_updateWindow_same by reflexivity.
  now destruct (getWindow i ws).
Qed.

(** [focusWindow] unfolded into its three outcomes. *)
Lemma focusWindow_cases (i : string) (s : State) :
  (focusWindow (Some i) s = set_activeWindowId None s
   /\ (i = "" \/ getWindow i (windows s) = None))
  \/ (focusWindow (Some i) s = s /\ i <> ""
      /\ exists w, getWindow i (windows s) = Some w /\ activeWindowId s = Some i
                   /\ zIndex w = nextZIndex s - 1 /\ isMinimized w = false)
  \/ (focusWindow (Some i) s
      = mkState (focusedWindows i (nextZIndex s) (windows s)) (Some i) (nextZIndex s + 1)
          (isDockVisible s) (snapIndicator s) (closeTimers s) (pointerSession s)
      /\ i <> "" /\ exists w, getWindow i (windows s) = Some w).
Proof.
  unfold focusWindow.
  destruct (String.eqb_spec i "") as [E|E]; [left; auto|].
  destruct (getWindow i (windows s)) as [w|] eqn:G; [|left; auto].
  destruct (isActive i s && (zIndex w =? nextZIndex s - 1) && negb (isMinimized w)) eqn:C.
  - right; left. apply andb_prop in C as [C Hm]; apply andb_prop in C as [Ha Hz].
    repeat split; auto. exists w; repeat split; auto.
    + unfold isActive in Ha. destruct (activeWindowId s) as [a|]; [|discriminate].
      apply String.eqb_eq in Ha; now subst.
    + now apply Z.eqb_eq.
    + now apply negb_true_iff.
  - right; right. split; [reflexivity|]. split; [assumption|eauto].
Qed.

Lemma stacked_set_activeWindowId (a : option string) (s : State) :
  stacked s -> stacked (set_activeWindowId a s).
Proof. intros [I B U M]; constructor; assumption. Qed.

Lemma stacked_focusWindow (o : option string) (s : State) :
  stacked s -> stacked (focusWindow o s).
Proof.
  intros S; destruct o as [i|]; [|now apply stacked_set_activeWindowId].
  destruct (focusWindow_cases i s) as [[-> _]|[[-> _]|[-> _]]];
    [now apply stacked_set_activeWindowId|assumption|].
  destruct S as [I B U M]; constructor;
    unfold uniqueIds, zBelowNext, uniqueZ, namedIds; simpl.
  - rewrite map_focusedWindows by reflexivity.
    rewrite map_updateWindow by reflexivity. exact I.
  - rewrite map_focusedWindows by reflexivity. now apply Forall_zIndex_raise.
  - rewrite map_focusedWindows by reflexivity. now apply NoDup_zIndex_raise.
  - rewrite map_focusedWindows by reflexivity.
    rewrite map_updateWindow by reflexivity. exact M.
Qed.

Lemma activeOnTop_none (s : State) : activeWindowId s = None -> activeOnTop s.
Proof. intros H a Ha; congruence. Qed.

Lemma activeOnTop_focusWindow (i : string) (s : State) :
  notMinimized i s = true -> activeOnTop (focusWindow (Some i) s).
Proof.
  intros Hvis.
  destruct (focusWindow_cases i s) as [[-> _]|[[-> (Hne & w & G & A & Hz & Hm)]|[-> (Hne & w & G)]]].
  - now apply activeOnTop_none.
  - intros a Ha. assert (a = i) by congruence; subst a. split; [assumption|].
    exists w; repeat split; auto.
    + eapply getWindow_In; eassumption.
    + eapply getWindow_id; eassumption.
  - intros a Ha; simpl in Ha; injection Ha as <-. split; [assumption|]. simpl.
    pose proof (getWindow_focusedWindows i (nextZIndex s) (windows s)) as G'.
    rewrite G in G'; simpl in G'.
    eexists; split; [eapply getWindow_In; exact G'|].
    unfold notMinimized in Hvis; rewrite G in Hvis.
    apply negb_true_iff in Hvis.
    simpl; repeat split; auto.
    + eapply getWindow_id; eassumption.
    + lia.
Qed.

Lemma wellStacked_focusWindow (i : string) (s : State) :
  stacked s -> notMinimized i s = true -> wellStacked (focusWindow (Some i) s).
Proof.
  intros S V; split; [now apply stacked_focusWindow|now apply activeOnTop_focusWindow].
Qed.

Lemma wellStacked_focusNone (s : State) : stacked s -> wellStacked (focusWindow None s).
Proof.
  intros S; split; [now apply stacked_focusWindow|now apply activeOnTop_none].
Qed.

(** What [focusWindow] leaves alone: anything that does not look at
    [zIndex] or at the class 'focused'. *)
Lemma map_focusWindow {B : Type} (g : AppWindow -> B) (o : option string) (s : State) :
  (forall z w, g (set_zIndex z w) = g w) ->
  (forall b w, g (set_classFocused b w) = g w) ->
  map g (windows (focusWindow o s)) = map g (windows s).
Proof.
  intros Hz Hc; destruct o as [i|]; [|reflexivity].
  destruct (focusWindow_cases i s) as [[-> _]|[[-> _]|[-> _]]]; try reflexivity.
  simpl. rewrite map_focusedWindows by assumption.
  apply map_updateWindow; auto.
Qed.

Lemma getWindow_via {B : Type} (c : AppWindow -> B) (k : B -> string) (i : string)
    (ws ws' : Windows) :
  (forall w, id w = k (c w)) -> map c ws' = map c ws ->
  option_map c (getWindow i ws') = option_map c (getWindow i ws).
Proof.
  intros Hk; revert ws'; induction ws as [|x rest IH]; intros [|x' rest']; simpl;
    intros E; try discriminate; [reflexivity|].
  injection E as Ex Erest.
  rewrite (Hk x'), (Hk x), Ex.
  destruct (k (c x) =? i)%string; simpl; [now rewrite Ex|now apply IH].
Qed.

Lemma notMinimized_via (i : string) (s s' : State) :
  map minimizedCore (windows s') = map minimizedCore (windows s) ->
  notMinimized i s' = notMinimized i s.
Proof.
  intros E. apply (getWindow_via minimizedCore fst i) in E; [|reflexivity].
  unfold notMinimized.
  destruct (getWindow i (windows s')) as [w'|], (getWindow i (windows s)) as [w|];
    simpl in E; try discriminate; [|reflexivity].
  unfold minimizedCore in E; congruence.
Qed.

Lemma notMinimized_focusWindow (i : string) (o : option string) (s : State) :
  notMinimized i (focusWindow o s) = notMinimized i s.
Proof. apply notMinimized_via, map_focusWindow; reflexivity. Qed.

Lemma notMinimized_sameStack (i : string) (s s' : State) :
  sameStack s s' -> notMinimized i s' = notMinimized i s.
Proof.
  intros [_ _ C]; apply notMinimized_via.
  apply (map_via stackCore minimizedCore (fun c => (fst (fst c), snd c)));
    [reflexivity|exact C].
Qed.

(** *** [closeWindow] and its timer *)

Lemma sameStack_closeWindow (i : string) (s : State) : sameStack s (closeWindow i s).
Proof.
  unfold closeWindow; destruct (getWindow i (windows s)); [|apply sameStack_refl].
  constructor; try reflexivity.
  simpl; apply map_updateWindow; reflexivity.
Qed.

Lemma In_map_deleteWindow {B : Type} (g : AppWindow -> B) (i : string) (y : B) (ws : Windows) :
  In y (map g (deleteWindow i ws)) -> In y (map g ws).
Proof.
  rewrite !in_map_iff; intros (v & E & Hin); exists v; split; [assumption|].
  eapply In_deleteWindow; eassumption.
Qed.

Lemma isActive_false (i a : string) (s : State) :
  isActive i s = false -> activeWindowId s = Some a -> a <> i.
Proof.
  unfold isActive; intros H Ha; rewrite Ha in H. now apply String.eqb_neq.
Qed.

Lemma wellStacked_closeTimeout (i : string) (s : State) :
  wellStacked s -> wellStacked (closeTimeout i s).
Proof.
  intros [[I B U M] A]; unfold closeTimeout.
  set (s2 := set_windows _ _).
  assert (S2 : stacked s2).
  { constructor; unfold uniqueIds, zBelowNext, uniqueZ, namedIds in *; simpl.
    - now apply NoDup_map_deleteWindow.
    - rewrite Forall_forall in *; intros z Hz; apply B.
      eapply In_map_deleteWindow; eassumption.
    - now apply NoDup_map_deleteWindow.
    - rewrite Forall_forall in *; intros j Hj; apply M.
      eapply In_map_deleteWindow; eassumption. }
  destruct (isActive i s2) eqn:Act; [now apply wellStacked_focusNone|].
  split; [assumption|].
  intros a Ha. pose proof (isActive_false _ _ _ Act Ha) as Hne.
  destruct (A a Ha) as (Hn & w & Hin & Hid & Hz & Hm); split; [assumption|].
  exists w; repeat split; auto.
  simpl; apply In_deleteWindow_other; congruence.
Qed.

(** *** [minimizeWindow] *)

Lemma wellStacked_mutate_other (i : string) (f : AppWindow -> AppWindow) (s : State) :
  (forall w, id (f w) = id w) -> (forall w, zIndex (f w) = zIndex w) ->
  wellStacked s -> isActive i s = false -> wellStacked (mutate i f s).
Proof.
  intros Hid Hz [[I B U M] A] Act; split.
  - constructor; unfold uniqueIds, zBelowNext, uniqueZ, namedIds; simpl;
      rewrite map_updateWindow by auto; assumption.
  - intros a Ha. pose proof (isActive_false _ _ _ Act Ha) as Hne.
    destruct (A a Ha) as (Hn & w & Hin & Hw & Hzw & Hm); split; [assumption|].
    exists w; repeat split; auto.
    simpl; apply In_updateWindow_other; congruence.
Qed.

Lemma stacked_mutate (i : string) (f : AppWindow -> AppWindow) (s : State) :
  (forall w, id (f w) = id w) -> (forall w, zIndex (f w) = zIndex w) ->
  stacked s -> stacked (mutate i f s).
Proof.
  intros Hid Hz [I B U M].
  constructor; unfold uniqueIds, zBelowNext, uniqueZ, namedIds; simpl;
    rewrite map_updateWindow by auto; assumption.
Qed.

Lemma wellStacked_minimizeWindow (i : string) (s : State) :
  wellStacked s -> wellStacked (minimizeWindow i s).
Proof.
  intros W; unfold minimizeWindow.
  destruct (getWindow i (windows s)) as [w|]; [|assumption].
  destruct (negb (isMinimized w)); [|assumption].
  set (s1 := mutate i _ s).
  destruct (isActive i s1) eqn:Act.
  - apply wellStacked_focusNone. subst s1; apply stacked_mutate; try reflexivity.
    apply W.
  - subst s1; apply wellStacked_mutate_other; auto.
Qed.

(** *** [restoreWindow] *)

Lemma notMinimized_mutate_restored (i : string) (f : AppWindow -> AppWindow) (s : State) :
  (forall w, id (f w) = id w) -> (forall w, isMinimized (f w) = false) ->
  notMinimized i (mutate i f s) = true.
Proof.
  intros Hid Hm; unfold notMinimized; simpl.
  rewrite getWindow_updateWindow_same by assumption.
  destruct (getWindow i (windows s)); simpl; [now rewrite Hm|reflexivity].
Qed.

Lemma restore_preserves_id (w : AppWindow) :
  id (set_isMinimized false (reapplyOriginalPosition (set_classMinimized false w))) = id w.
Proof. unfold reapplyOriginalPosition; cbn; now destruct (originalPosition w). Qed.

Lemma restore_preserves_zIndex (w : AppWindow) :
  zIndex (set_isMinimized false (reapplyOriginalPosition (set_classMinimized false w)))
  = zIndex w.
Proof. unfold reapplyOriginalPosition; cbn; now destruct (originalPosition w). Qed.

Lemma wellStacked_restoreWindow_ (openApp : string -> State -> State) (i : string) (s : State) :
  (forall appId s0, wellStacked s0 -> wellStacked (openApp appId s0)) ->
  wellStacked s -> wellStacked (restoreWindow_ openApp i s).
Proof.
  intros Hopen W; unfold restoreWindow_.
  destruct (getWindow i (windows s)) as [w|] eqn:G; [|assumption].
  destruct (isMinimized w) eqn:M.
  - apply wellStacked_focusWindow.
    + apply stacked_mutate;
        [apply restore_preserves_id|apply restore_preserves_zIndex|apply W].
    + apply notMinimized_mutate_restored; [apply restore_preserves_id|reflexivity].
  - destruct (negb (isOpen w)); [now apply Hopen|].
    apply wellStacked_focusWindow; [apply W|].
    unfold notMinimized; now rewrite G, M.
Qed.

Lemma notMinimized_restoreWindowInner (i : string) (s : State) (w : AppWindow) :
  getWindow i (windows s) = Some w -> isMinimized w = true ->
  notMinimized i (restoreWindowInner i s) = true.
Proof.
  intros G M; unfold restoreWindowInner, restoreWindow_; rewrite G, M.
  rewrite notMinimized_focusWindow.
  apply notMinimized_mutate_restored; [apply restore_preserves_id|reflexivity].
Qed.

(** *** [createWindow] and [openApp] *)

Lemma In_map_setWindow {B : Type} (g : AppWindow -> B) (y : B) (w : AppWindow) (ws : Windows) :
  In y (map g (setWindow w ws)) -> y = g w \/ In y (map g ws).
Proof.
  rewrite !in_map_iff; intros (v & E & Hin).
  apply In_setWindow in Hin as [->|Hin]; [now left|right; eauto].
Qed.

Lemma NoDup_id_setWindow (w : AppWindow) (ws : Windows) :
  NoDup (map id ws) -> NoDup (map id (setWindow w ws)).
Proof.
  induction ws as [|x rest IH]; simpl; [repeat constructor; auto|].
  intros Hnd; inversion Hnd as [|? ? Nx Nrest]; subst.
  destruct (String.eqb_spec (id x) (id w)) as [E|E]; simpl.
  - rewrite <- E; now constructor.
  - constructor; [|auto].
    intros Hin; apply In_map_setWindow in Hin as [E'|Hin]; [congruence|contradiction].
Qed.

Lemma NoDup_zIndex_setWindow (w : AppWindow) (ws : Windows) :
  Forall (fun y => y < zIndex w) (map zIndex ws) -> NoDup (map zIndex ws) ->
  NoDup (map zIndex (setWindow w ws)).
Proof.
  induction ws as [|x rest IH]; simpl; [repeat constructor; auto|].
  intros Hb Hnd; inversion Hb as [|? ? Hx Hrest]; inversion Hnd as [|? ? Nx Nrest]; subst.
  destruct (id x =? id w)%string; simpl; constructor; auto.
  - intros Hin. rewrite Forall_forall in Hrest. specialize (Hrest _ Hin). lia.
  - intros Hin. apply In_map_setWindow in Hin as [E'|Hin]; [lia|contradiction].
Qed.

Lemma windowId_nonempty (baseAppId : string) (t : Z) : windowId baseAppId t <> "".
Proof. unfold windowId; destruct baseAppId; discriminate. Qed.

Lemma stacked_setWindow (w : AppWindow) (s : State) :
  stacked s -> zIndex w = nextZIndex s -> id w <> "" ->
  stacked (set_windows (setWindow w (windows s)) (set_nextZIndex (nextZIndex s + 1) s)).
Proof.
  intros [I B U M] Hz Hn; constructor;
    unfold uniqueIds, zBelowNext, uniqueZ, namedIds in *; simpl.
  - now apply NoDup_id_setWindow.
  - rewrite Forall_forall in *; intros y Hy.
    apply In_map_setWindow in Hy as [->|Hy]; [lia|]. specialize (B _ Hy); lia.
  - apply NoDup_zIndex_setWindow; [rewrite Hz|]; assumption.
  - rewrite Forall_forall in *; intros y Hy.
    apply In_map_setWindow in Hy as [->|Hy]; auto.
Qed.

Lemma find_In_getWindow (p : AppWindow -> bool) (ws : Windows) (w : AppWindow) :
  NoDup (map id ws) -> find p ws = Some w -> getWindow (id w) ws = Some w.
Proof.
  intros Hnd Hf; apply find_some in Hf as [Hin _]. now apply In_getWindow.
Qed.

Lemma wellStacked_createWindow (options : Options.t) (env : Env) (s : State) :
  wellStacked s -> wellStacked (createWindow options env s).
Proof.
  intros W; unfold createWindow, createWindow_.
  set (appDef := findAppDef (Options.baseAppId options)).
  set (special := existsb (String.eqb _) _).
  set (body := if negb (allowsMultiple appDef) && _ then _ else _).
  assert (Hbody : wellStacked body).
  { subst body.
    destruct (negb (allowsMultiple appDef) && _).
    - destruct (find _ (windows s)) as [ex|] eqn:F; [|assumption].
      pose proof (find_In_getWindow _ _ _ (stacked_ids _ (proj1 W)) F) as G.
      destruct (isMinimized ex) eqn:M.
      + apply wellStacked_focusWindow.
        * apply wellStacked_restoreWindow_; auto.
        * eapply notMinimized_restoreWindowInner; eassumption.
      + apply wellStacked_focusWindow; [apply W|].
        unfold notMinimized; now rewrite G, M.
    - apply wellStacked_focusWindow.
      + match goal with
        | |- stacked (set_windows (setWindow ?w _) _) =>
            apply (stacked_setWindow w s);
              [apply W|reflexivity|apply windowId_nonempty]
        end.
      + unfold notMinimized; simpl.
        match goal with
        | |- context [getWindow ?i (setWindow ?w _)] =>
            change i with (id w); rewrite (getWindow_setWindow_same w)
        end.
        reflexivity. }
  destruct appDef; [exact Hbody|]. destruct special; [exact Hbody|exact W].
Qed.

Lemma wellStacked_openApp (appId : string) (env : Env) (s : State) :
  wellStacked s -> wellStacked (openApp appId env s).
Proof.
  intros W; unfold openApp, openApp_.
  destruct (findAppDef appId) as [d|]; [|assumption].
  destruct (negb (AppDef.isLaunchable d)); [assumption|].
  destruct (negb (AppDef.allowMultipleInstances d)),
    (filter (isOpenInstanceOf appId) (windows s)) as [|ex rest];
    try (apply wellStacked_restoreWindow_; auto);
    destruct (AppDef.contentTemplateId d) as [tpl|];
    try destruct (negb (templateExists env tpl));
    now apply wellStacked_createWindow.
Qed.

Lemma wellStacked_restoreWindow (env : Env) (i : string) (s : State) :
  wellStacked s -> wellStacked (restoreWindow env i s).
Proof.
  intros W; apply wellStacked_restoreWindow_; [|assumption].
  intros appId s0; apply wellStacked_openApp.
Qed.

(** *** Pointer sessions *)

Lemma lookupWindow_Some (i : string) (s : State) (w : AppWindow) :
  lookupWindow i s = Some w -> getWindow i (windows s) = Some w.
Proof.
  unfold lookupWindow; destruct (negb (i =? "")%string && hasWindow i (windows s));
    [auto|discriminate].
Qed.

Lemma wellStacked_dragMouseDown (i : string) (e : MouseEvent) (m : Layout) (s : State) :
  wellStacked s -> notMinimized i s = true -> wellStacked (dragMouseDown i e m s).
Proof.
  intros W V; unfold dragMouseDown.
  destruct (lookupWindow i s) as [w|] eqn:G.
  - apply lookupWindow_Some in G. rewrite (getWindow_id _ _ _ G).
    set (s1 := if negb (isActive i s) then _ else s).
    assert (W1 : wellStacked s1).
    { subst s1; destruct (negb (isActive i s)); [|assumption].
      apply wellStacked_focusWindow; [apply W|assumption]. }
    destruct (isMaximized w); [assumption|].
    eapply wellStacked_frame; [|exact W1].
    eapply frame_trans; [apply frame_set_snapIndicator|apply frame_set_pointerSession].
  - eapply wellStacked_frame; [|exact W].
    eapply frame_trans; [apply frame_set_snapIndicator|apply frame_set_pointerSession].
Qed.

Theorem wellStacked_run (ev : Event) (s : State) :
  wellStacked s -> enabled ev s = true -> wellStacked (run ev s).
Proof.
  intros W En; destruct ev; cbn [run enabled] in *.
  - now apply wellStacked_openApp.
  - now apply wellStacked_createWindow.
  - apply wellStacked_focusWindow; [apply W|assumption].
  - eapply wellStacked_sameStack; [apply sameStack_closeWindow|assumption].
  - now apply wellStacked_closeTimeout.
  - now apply wellStacked_minimizeWindow.
  - now apply wellStacked_restoreWindow.
  - eapply wellStacked_frame; [apply frame_toggleMaximizeWindow|assumption].
  - apply wellStacked_dragMouseDown.
    + apply wellStacked_focusWindow; [apply W|assumption].
    + now rewrite notMinimized_focusWindow.
  - eapply wellStacked_frame; [apply frame_resizeMouseDown|].
    apply wellStacked_focusWindow; [apply W|assumption].
  - eapply wellStacked_frame; [apply frame_mouseMove|assumption].
  - eapply wellStacked_frame; [apply frame_mouseUp|assumption].
  - eapply wellStacked_frame; [apply frame_toggleDockVisibility|assumption].
Qed.

Theorem reachable_wellStacked (s : State) : reachable s -> wellStacked s.
Proof.
  induction 1 as [|s ev _ IH En]; [apply wellStacked_initial|].
  now apply wellStacked_run.
Qed.

(** ** Open instances of an app kind *)

Lemma instancesShrink_refl (s : State) : instancesShrink s s.
Proof. intros appId; lia. Qed.

Lemma instancesShrink_trans (s1 s2 s3 : State) :
  instancesShrink s1 s2 -> instancesShrink s2 s3 -> instancesShrink s1 s3.
Proof. intros H1 H2 appId; specialize (H1 appId); specialize (H2 appId); lia. Qed.

Lemma singleInstance_shrink (s s' : State) :
  instancesShrink s s' -> singleInstance s -> singleInstance s'.
Proof. intros H S appId Hm; specialize (H appId); specialize (S appId Hm); lia. Qed.

Lemma instancesShrink_kinds (s s' : State) :
  map kindCore (windows s') = map kindCore (windows s) -> instancesShrink s s'.
Proof.
  intros E appId.
  rewrite (filter_length_map (isOpenInstanceOf appId) (windows s) (windows s')); [lia|].
  apply (map_via kindCore _ (fun c => (fst c =? appId)%string && snd c));
    [reflexivity|exact E].
Qed.

Lemma instancesShrink_frame (s s' : State) : frame s s' -> instancesShrink s s'.
Proof.
  intros [_ _ C]; apply instancesShrink_kinds.
  apply (map_via core kindCore (fun c => match c with (_, b, o, _, _) => (b, o) end));
    [reflexivity|exact C].
Qed.

Lemma instancesShrink_focusWindow (o : option string) (s : State) :
  instancesShrink s (focusWindow o s).
Proof. apply instancesShrink_kinds, map_focusWindow; reflexivity. Qed.

Lemma instancesShrink_mutate (i : string) (f : AppWindow -> AppWindow) (s : State) :
  (forall w, baseAppId (f w) = baseAppId w) ->
  (forall w, isOpen (f w) = true -> isOpen w = true) ->
  instancesShrink s (mutate i f s).
Proof.
  intros Hb Ho appId; simpl. apply filter_length_updateWindow_le.
  intros w; unfold isOpenInstanceOf; rewrite Hb.
  intros H; apply andb_prop in H as [H1 H2]; rewrite H1, (Ho _ H2); reflexivity.
Qed.

Lemma instancesShrink_closeWindow (i : string) (s : State) :
  instancesShrink s (closeWindow i s).
Proof.
  unfold closeWindow; destruct (getWindow i (windows s)); [|apply instancesShrink_refl].
  intros appId; simpl. apply filter_length_updateWindow_le.
  intros w; unfold isOpenInstanceOf; simpl. rewrite andb_false_r; discriminate.
Qed.

Lemma instancesShrink_closeTimeout (i : string) (s : State) :
  instancesShrink s (closeTimeout i s).
Proof.
  unfold closeTimeout. set (s2 := set_windows _ _).
  assert (H : instancesShrink s s2)
    by (intros appId; simpl; apply filter_length_deleteWindow_le).
  destruct (isActive i s2); [|assumption].
  eapply instancesShrink_trans; [exact H|apply instancesShrink_focusWindow].
Qed.

Lemma instancesShrink_minimizeWindow (i : string) (s : State) :
  instancesShrink s (minimizeWindow i s).
Proof.
  unfold minimizeWindow.
  destruct (getWindow i (windows s)) as [w|]; [|apply instancesShrink_refl].
  destruct (negb (isMinimized w)); [|apply instancesShrink_refl].
  set (s1 := mutate i _ s).
  assert (H : instancesShrink s s1)
    by (subst s1; apply instancesShrink_mutate; intros; auto).
  destruct (isActive i s1); [|assumption].
  eapply instancesShrink_trans; [exact H|apply instancesShrink_focusWindow].
Qed.

Lemma singleInstance_restoreWindow_ (openApp : string -> State -> State)
    (i : string) (s : State) :
  (forall appId s0, singleInstance s0 -> singleInstance (openApp appId s0)) ->
  singleInstance s -> singleInstance (restoreWindow_ openApp i s).
Proof.
  intros Hopen S; unfold restoreWindow_.
  destruct (getWindow i (windows s)) as [w|]; [|assumption].
  destruct (isMinimized w).
  - eapply singleInstance_shrink; [|exact S].
    eapply instancesShrink_trans; [|apply instancesShrink_focusWindow].
    apply instancesShrink_mutate; intros w0; unfold reapplyOriginalPosition; cbn;
      destruct (originalPosition w0); auto.
  - destruct (negb (isOpen w)); [now apply Hopen|].
    eapply singleInstance_shrink; [apply instancesShrink_focusWindow|exact S].
Qed.

Lemma singleInstance_setWindow (w : AppWindow) (s s' : State) :
  windows s' = windows s ->
  (allowsMultiple (findAppDef (baseAppId w)) = false ->
   existsb (isOpenInstanceOf (baseAppId w)) (windows s) = false) ->
  singleInstance s -> singleInstance (set_windows (setWindow w (windows s')) s').
Proof.
  intros E Hnew S appId Hm; simpl; rewrite E.
  pose proof (filter_length_setWindow_le (isOpenInstanceOf appId) w (windows s)) as L.
  specialize (S appId Hm).
  unfold isOpenInstanceOf at 3 in L.
  destruct (String.eqb_spec (baseAppId w) appId) as [Eq|Ne]; simpl in L; [|lia].
  subst appId. rewrite (filter_nil_of_existsb _ _ (Hnew Hm)) in L; simpl in L.
  destruct (isOpen w); simpl in L; lia.
Qed.

Lemma singleInstance_createWindow (options : Options.t) (env : Env) (s : State) :
  singleInstance s -> singleInstance (createWindow options env s).
Proof.
  intros S; unfold createWindow, createWindow_.
  set (appDef := findAppDef (Options.baseAppId options)).
  set (special := existsb (String.eqb _) _).
  set (body := if negb (allowsMultiple appDef) && _ then _ else _).
  assert (Hbody : singleInstance body).
  { subst body.
    destruct (negb (allowsMultiple appDef) && _) eqn:C.
    - destruct (find _ (windows s)) as [ex|]; [|assumption].
      eapply singleInstance_shrink; [apply instancesShrink_focusWindow|].
      destruct (isMinimized ex); [|assumption].
      apply singleInstance_restoreWindow_; auto.
    - eapply singleInstance_shrink; [apply instancesShrink_focusWindow|].
      match goal with
      | |- singleInstance (set_windows (setWindow ?w _) ?s1) =>
          apply (singleInstance_setWindow w s s1); [reflexivity| |assumption]
      end.
      simpl; fold appDef; intros Hm; rewrite Hm in C; exact C. }
  destruct appDef; [exact Hbody|]. destruct special; [exact Hbody|exact S].
Qed.

Lemma singleInstance_openApp (appId : string) (env : Env) (s : State) :
  singleInstance s -> singleInstance (openApp appId env s).
Proof.
  intros S; unfold openApp, openApp_.
  destruct (findAppDef appId) as [d|]; [|assumption].
  destruct (negb (AppDef.isLaunchable d)); [assumption|].
  destruct (negb (AppDef.allowMultipleInstances d)),
    (filter (isOpenInstanceOf appId) (windows s)) as [|ex rest];
    try (apply singleInstance_restoreWindow_; auto);
    destruct (AppDef.contentTemplateId d) as [tpl|];
    try destruct (negb (templateExists env tpl));
    now apply singleInstance_createWindow.
Qed.

Lemma singleInstance_restoreWindow (env : Env) (i : string) (s : State) :
  singleInstance s -> singleInstance (restoreWindow env i s).
Proof.
  intros S; apply singleInstance_restoreWindow_; [|assumption].
  intros appId s0; apply singleInstance_openApp.
Qed.

Lemma instancesShrink_dragMouseDown (i : string) (e : MouseEvent) (m : Layout) (s : State) :
  instancesShrink s (dragMouseDown i e m s).
Proof.
  unfold dragMouseDown.
  assert (F : forall p s0, instancesShrink s0 (set_pointerSession p (set_snapIndicator true s0)))
    by (intros p s0; apply instancesShrink_frame;
        eapply frame_trans; [apply frame_set_snapIndicator|apply frame_set_pointerSession]).
  destruct (lookupWindow i s) as [w|]; [|apply F].
  set (s1 := if negb (isActive (id w) s) then _ else s).
  assert (H1 : instancesShrink s s1).
  { subst s1; destruct (negb (isActive (id w) s));
      [apply instancesShrink_focusWindow|apply instancesShrink_refl]. }
  destruct (isMaximized w); [assumption|].
  eapply instancesShrink_trans; [exact H1|apply F].
Qed.

Theorem singleInstance_run (ev : Event) (s : State) :
  singleInstance s -> singleInstance (run ev s).
Proof.
  intros S; destruct ev; cbn [run].
  - now apply singleInstance_openApp.
  - now apply singleInstance_createWindow.
  - eapply singleInstance_shrink; [apply instancesShrink_focusWindow|assumption].
  - eapply singleInstance_shrink; [apply instancesShrink_closeWindow|assumption].
  - eapply singleInstance_shrink; [apply instancesShrink_closeTimeout|assumption].
  - eapply singleInstance_shrink; [apply instancesShrink_minimizeWindow|assumption].
  - now apply singleInstance_restoreWindow.
  - eapply singleInstance_shrink;
      [apply instancesShrink_frame, frame_toggleMaximizeWindow|assumption].
  - eapply singleInstance_shrink; [|exact S].
    eapply instancesShrink_trans;
      [apply instancesShrink_focusWindow|apply instancesShrink_dragMouseDown].
  - eapply singleInstance_shrink; [|exact S].
    eapply instancesShrink_trans;
      [apply instancesShrink_focusWindow|apply instancesShrink_frame, frame_resizeMouseDown].
  - eapply singleInstance_shrink; [apply instancesShrink_frame, frame_mouseMove|assumption].
  - eapply singleInstance_shrink; [apply instancesShrink_frame, frame_mouseUp|assumption].
  - eapply singleInstance_shrink;
      [apply instancesShrink_frame, frame_toggleDockVisibility|assumption].
Qed.

Theorem reachable_singleInstance (s : State) : reachable s -> singleInstance s.
Proof.
  induction 1 as [|s ev _ IH En]; [intros appId _; simpl; lia|].
  now apply singleInstance_run.
Qed.

(** ** Saved geometry *)

Lemma snapshotKept_via (s s' : State) :
  map snapshotCore (windows s') = map snapshotCore (windows s) ->
  snapshotKept s -> snapshotKept s'.
Proof.
  unfold snapshotKept; rewrite !Forall_forall; intros E H w' Hin.
  apply (in_map snapshotCore) in Hin; rewrite E in Hin.
  apply in_map_iff in Hin as (w & Ew & Hin).
  specialize (H w Hin); unfold snapshotCore in Ew; injection Ew as E1 E2 E3.
  unfold hasSnapshot in *; rewrite <- E1, <- E2, <- E3; exact H.
Qed.

Lemma snapshotKept_mutate (i : string) (f : AppWindow -> AppWindow) (s : State) :
  (forall w, hasSnapshot w -> hasSnapshot (f w)) ->
  snapshotKept s -> snapshotKept (mutate i f s).
Proof. intros Hf H; apply Forall_updateWindow; auto. Qed.

Lemma snapshotKept_focusWindow (o : option string) (s : State) :
  snapshotKept s -> snapshotKept (focusWindow o s).
Proof. apply snapshotKept_via, map_focusWindow; reflexivity. Qed.

Lemma snapshotKept_closeWindow (i : string) (s : State) :
  snapshotKept s -> snapshotKept (closeWindow i s).
Proof.
  intros H; unfold closeWindow; destruct (getWindow i (windows s)); [|assumption].
  apply (snapshotKept_mutate i (set_isOpen false) s); [snapshot_preserved|assumption].
Qed.

Lemma snapshotKept_closeTimeout (i : string) (s : State) :
  snapshotKept s -> snapshotKept (closeTimeout i s).
Proof.
  intros H; unfold closeTimeout. set (s2 := set_windows _ _).
  assert (H2 : snapshotKept s2) by (apply Forall_deleteWindow; exact H).
  destruct (isActive i s2); [now apply snapshotKept_focusWindow|assumption].
Qed.

Lemma snapshotKept_minimizeWindow (i : string) (s : State) :
  snapshotKept s -> snapshotKept (minimizeWindow i s).
Proof.
  intros H; unfold minimizeWindow.
  destruct (getWindow i (windows s)) as [w|]; [|assumption].
  destruct (negb (isMinimized w)); [|assumption].
  set (s1 := mutate i _ s).
  assert (H1 : snapshotKept s1)
    by (subst s1; apply snapshotKept_mutate; [snapshot_preserved|assumption]).
  destruct (isActive i s1); [now apply snapshotKept_focusWindow|assumption].
Qed.

Lemma snapshotKept_toggleMaximizeWindow (i : string) (s : State) :
  snapshotKept s -> snapshotKept (toggleMaximizeWindow i s).
Proof.
  intros H; unfold toggleMaximizeWindow.
  destruct (getWindow i (windows s)) as [w|]; [|assumption].
  destruct (isMaximized w); apply snapshotKept_mutate;
    solve [snapshot_preserved|assumption].
Qed.

Lemma snapshotKept_restoreWindow_ (openApp : string -> State -> State)
    (i : string) (s : State) :
  (forall appId s0, snapshotKept s0 -> snapshotKept (openApp appId s0)) ->
  snapshotKept s -> snapshotKept (restoreWindow_ openApp i s).
Proof.
  intros Hopen H; unfold restoreWindow_.
  destruct (getWindow i (windows s)) as [w|]; [|assumption].
  destruct (isMinimized w).
  - apply snapshotKept_focusWindow, snapshotKept_mutate;
      solve [snapshot_preserved|assumption].
  - destruct (negb (isOpen w)); [now apply Hopen|now apply snapshotKept_focusWindow].
Qed.

Lemma snapshotKept_createWindow (options : Options.t) (env : Env) (s : State) :
  snapshotKept s -> snapshotKept (createWindow options env s).
Proof.
  intros H; unfold createWindow, createWindow_.
  set (appDef := findAppDef (Options.baseAppId options)).
  set (special := existsb (String.eqb _) _).
  set (body := if negb (allowsMultiple appDef) && _ then _ else _).
  assert (Hbody : snapshotKept body).
  { subst body.
    destruct (negb (allowsMultiple appDef) && _).
    - destruct (find _ (windows s)) as [ex|]; [|assumption].
      apply snapshotKept_focusWindow.
      destruct (isMinimized ex); [|assumption].
      apply snapshotKept_restoreWindow_; auto.
    - apply snapshotKept_focusWindow.
      unfold snapshotKept in *; rewrite Forall_forall in *; simpl.
      intros v Hv; apply In_setWindow in Hv as [->|Hv]; [|auto].
      intros [C|C]; discriminate. }
  destruct appDef; [exact Hbody|]. destruct special; [exact Hbody|exact H].
Qed.

Lemma snapshotKept_openApp (appId : string) (env : Env) (s : State) :
  snapshotKept s -> snapshotKept (openApp appId env s).
Proof.
  intros S; unfold openApp, openApp_.
  destruct (findAppDef appId) as [d|]; [|assumption].
  destruct (negb (AppDef.isLaunchable d)); [assumption|].
  destruct (negb (AppDef.allowMultipleInstances d)),
    (filter (isOpenInstanceOf appId) (windows s)) as [|ex rest];
    try (apply snapshotKept_restoreWindow_; auto);
    destruct (AppDef.contentTemplateId d) as [tpl|];
    try destruct (negb (templateExists env tpl));
    now apply snapshotKept_createWindow.
Qed.

Lemma snapshotKept_restoreWindow (env : Env) (i : string) (s : State) :
  snapshotKept s -> snapshotKept (restoreWindow env i s).
Proof.
  intros S; apply snapshotKept_restoreWindow_; [|assumption].
  intros appId s0; apply snapshotKept_openApp.
Qed.

Lemma snapshotKept_applySnap (i : string) (s : State) :
  snapshotKept s -> snapshotKept (applySnap i s).
Proof.
  intros H; unfold applySnap.
  destruct (getWindow i (windows s)) as [w|]; [|assumption].
  destruct (isSnapping w); [|assumption].
  apply snapshotKept_mutate; solve [snapshot_preserved|assumption].
Qed.

Lemma snapshotKept_showSnapIndicator (p : SnapPosition) (s : State) :
  snapshotKept s -> snapshotKept (showSnapIndicator p s).
Proof.
  intros H; unfold showSnapIndicator.
  destruct (snapIndicator s); simpl; [|assumption].
  destruct (activeWindowId s) as [a|]; [|assumption].
  destruct (a =? "")%string; [assumption|].
  apply snapshotKept_mutate; solve [snapshot_preserved|assumption].
Qed.

Lemma snapshotKept_dragMouseDown (i : string) (e : MouseEvent) (m : Layout) (s : State) :
  snapshotKept s -> snapshotKept (dragMouseDown i e m s).
Proof.
  intros H; unfold dragMouseDown.
  destruct (lookupWindow i s) as [w|]; [|assumption].
  set (s1 := if negb (isActive (id w) s) then _ else s).
  assert (H1 : snapshotKept s1)
    by (subst s1; destruct (negb (isActive (id w) s));
        [now apply snapshotKept_focusWindow|assumption]).
  destruct (isMaximized w); assumption.
Qed.

Lemma snapshotKept_dragMouseMove (i : string) (h : bool) (ox oy : Z) (e : MouseEvent)
    (m : Layout) (s : State) :
  snapshotKept s -> snapshotKept (dragMouseMove i h ox oy e m s).
Proof.
  intros H; unfold dragMouseMove.
  set (s1 := if h then mutate i _ s else s).
  assert (H1 : snapshotKept s1).
  { subst s1; destruct h; [|assumption].
    apply snapshotKept_mutate; solve [snapshot_preserved|assumption]. }
  repeat match goal with
         | |- snapshotKept (if ?c then _ else _) => destruct c
         end;
    try (now apply snapshotKept_showSnapIndicator); try assumption.
  apply snapshotKept_mutate; solve [snapshot_preserved|assumption].
Qed.

Lemma snapshotKept_mouseMove (e : MouseEvent) (m : Layout) (s : State) :
  snapshotKept s -> snapshotKept (mouseMove e m s).
Proof.
  intros H; unfold mouseMove.
  destruct (pointerSession s) as [[i h ox oy|i sx sy sw sh]|]; [| |assumption].
  - now apply snapshotKept_dragMouseMove.
  - apply snapshotKept_mutate; solve [snapshot_preserved|assumption].
Qed.

Lemma snapshotKept_mouseUp (s : State) : snapshotKept s -> snapshotKept (mouseUp s).
Proof.
  intros H; unfold mouseUp, dragMouseUp, resizeMouseUp.
  destruct (pointerSession s) as [[i h ox oy|i sx sy sw sh]|]; [|assumption..].
  destruct h; [|assumption].
  now apply (snapshotKept_applySnap i (set_pointerSession None s)).
Qed.

Lemma snapshotKept_resizeMouseDown (i : string) (e : MouseEvent) (m : Layout) (s : State) :
  snapshotKept s -> snapshotKept (resizeMouseDown i e m s).
Proof.
  intros H; unfold resizeMouseDown.
  destruct (getWindow i (windows s)) as [w|]; [|assumption].
  destruct (isMaximized w || _); assumption.
Qed.

Lemma snapshotKept_reapplyDockConstraints (s : State) (i : string) :
  snapshotKept s -> snapshotKept (reapplyDockConstraints s i).
Proof.
  intros H; unfold reapplyDockConstraints.
  destruct (getWindow i (windows s)) as [w|]; [|assumption].
  destruct (isOpen w && _); [|assumption].
  set (s1 := if isMaximized w then _ else s).
  assert (H1 : snapshotKept s1)
    by (subst s1; destruct (isMaximized w);
        [now apply snapshotKept_toggleMaximizeWindow, snapshotKept_toggleMaximizeWindow
        |assumption]).
  destruct (getWindow i (windows s1)) as [w1|]; [|assumption].
  destruct (isSnapping w1); [now apply snapshotKept_applySnap|assumption].
Qed.

Lemma snapshotKept_toggleDockVisibility (s : State) :
  snapshotKept s -> snapshotKept (toggleDockVisibility s).
Proof.
  intros H; unfold toggleDockVisibility.
  set (s1 := set_isDockVisible _ s).
  assert (H1 : snapshotKept s1) by exact H.
  revert H1; generalize (map id (windows s1)); generalize s1.
  intros s0 ids; revert s0; induction ids as [|j rest IH]; intros s0 H0; simpl;
    [assumption|].
  apply IH; now apply snapshotKept_reapplyDockConstraints.
Qed.

Theorem snapshotKept_run (ev : Event) (s : State) :
  snapshotKept s -> snapshotKept (run ev s).
Proof.
  intros S; destruct ev; cbn [run].
  - now apply snapshotKept_openApp.
  - now apply snapshotKept_createWindow.
  - now apply snapshotKept_focusWindow.
  - now apply snapshotKept_closeWindow.
  - now apply snapshotKept_closeTimeout.
  - now apply snapshotKept_minimizeWindow.
  - now apply snapshotKept_restoreWindow.
  - now apply snapshotKept_toggleMaximizeWindow.
  - now apply snapshotKept_dragMouseDown, snapshotKept_focusWindow.
  - now apply snapshotKept_resizeMouseDown, snapshotKept_focusWindow.
  - now apply snapshotKept_mouseMove.
  - now apply snapshotKept_mouseUp.
  - now apply snapshotKept_toggleDockVisibility.
Qed.

Theorem reachable_snapshotKept (s : State) : reachable s -> snapshotKept s.
Proof.
  induction 1 as [|s ev _ IH En]; [constructor|].
  now apply snapshotKept_run.
Qed.

(** ** Traces *)

Lemma runTrace_reachable (evs : list Event) (s s' : State) :
  reachable s -> runTrace evs s = Some s' -> reachable s'.
Proof.
  revert s; induction evs as [|ev rest IH]; intros s R; simpl.
  - intros H; injection H as <-; exact R.
  - destruct (enabled ev s) eqn:En; [|discriminate].
    apply IH. now apply reachable_run.
Qed.

(** ** The layered definitions are the recursive ones

    In a registry with unique ids the calls that [createWindow] and
    [openApp] make to [restoreWindow] never reach its [openApp] branch, so
    the layered definitions satisfy the recursive equations of the source. *)

Lemma restoreWindow_inner_eq (openApp : string -> State -> State) (i : string)
    (s : State) (w : AppWindow) :
  getWindow i (windows s) = Some w ->
  isMinimized w = true \/ isOpen w = true ->
  restoreWindow_ openApp i s = restoreWindowInner i s.
Proof.
  intros G H; unfold restoreWindowInner, restoreWindow_; rewrite G.
  destruct (isMinimized w); [reflexivity|].
  destruct H as [H|H]; [discriminate|now rewrite H].
Qed.

Lemma createWindow_unfold (options : Options.t) (env : Env) (s : State) :
  uniqueIds s ->
  createWindow options env s = createWindow_ (restoreWindow env) options env s.
Proof.
  intros U; unfold createWindow, createWindow_.
  set (appDef := findAppDef (Options.baseAppId options)).
  set (special := existsb (String.eqb _) _).
  assert (E : forall fresh : State,
             (if negb (allowsMultiple appDef)
                 && existsb (isOpenInstanceOf (Options.baseAppId options)) (windows s)
              then
                match find (isOpenInstanceOf (Options.baseAppId options)) (windows s) with
                | Some ex =>
                    focusWindow (Some (id ex))
                      (if isMinimized ex then restoreWindowInner (id ex) s else s)
                | None => s
                end
              else fresh)
             = (if negb (allowsMultiple appDef)
                   && existsb (isOpenInstanceOf (Options.baseAppId options)) (windows s)
                then
                  match find (isOpenInstanceOf (Options.baseAppId options)) (windows s) with
                  | Some ex =>
                      focusWindow (Some (id ex))
                        (if isMinimized ex then restoreWindow env (id ex) s else s)
                  | None => s
                  end
                else fresh)).
  { intros fresh. destruct (negb _ && _); [|reflexivity].
    destruct (find _ (windows s)) as [ex|] eqn:F; [|reflexivity].
    destruct (isMinimized ex) eqn:M; [|reflexivity].
    pose proof (find_In_getWindow _ _ _ U F) as G.
    unfold restoreWindow.
    now rewrite (restoreWindow_inner_eq _ _ _ _ G (or_introl M)). }
  destruct appDef, special; try reflexivity; apply E.
Qed.

Lemma filter_head_In {A : Type} (p : A -> bool) (l : list A) (x : A) (rest : list A) :
  filter p l = x :: rest -> In x l /\ p x = true.
Proof.
  intros E. apply filter_In. rewrite E; now left.
Qed.

Lemma openApp_unfold (appId : string) (env : Env) (s : State) :
  uniqueIds s ->
  openApp appId env s
  = openApp_ (restoreWindow env) (createWindow_ (restoreWindow env)) appId env s.
Proof.
  intros U; unfold openApp, openApp_.
  destruct (findAppDef appId) as [d|]; [|reflexivity].
  destruct (negb (AppDef.isLaunchable d)); [reflexivity|].
  destruct (negb (AppDef.allowMultipleInstances d)),
    (filter (isOpenInstanceOf appId) (windows s)) as [|ex rest] eqn:F;
    try (destruct (AppDef.contentTemplateId d) as [tpl|];
         try destruct (negb (templateExists env tpl));
         now apply createWindow_unfold).
  apply filter_head_In in F as [Hin Hp].
  unfold restoreWindow.
  rewrite (restoreWindow_inner_eq _ _ _ ex (In_getWindow _ _ U Hin)); [reflexivity|].
  right. unfold isOpenInstanceOf in Hp. now apply andb_prop in Hp.
Qed.

(** * The claims *)

Lemma NoDup_map_injective {A B : Type} (g : A -> B) (l : list A) (a b : A) :
  NoDup (map g l) -> In a l -> In b l -> g a = g b -> a = b.
Proof.
  induction l as [|x rest IH]; simpl; [tauto|].
  intros Hnd; inversion Hnd as [|? ? Nx Nrest]; subst.
  intros [->|Ha] [->|Hb] E; auto.
  - exfalso; apply Nx; rewrite E; now apply in_map.
  - exfalso; apply Nx; rewrite <- E; now apply in_map.
Qed.

Lemma reachable_stateThreeSteps : reachable stateThreeSteps.
Proof.
  apply (runTrace_reachable
           [EvOpenApp "About" (envAt 1); EvOpenApp "Notepad" (envAt 2);
            EvFocusWindow "About-1"] initialState); [constructor|].
  vm_compute; reflexivity.
Qed.

(** C1.  In every reachable state at most one window is focused (the id in
    [state.activeWindowId] belongs to at most one record), the focused
    window is not minimized, its zIndex is the maximum over all windows of
    the registry (so over the open ones), and no two windows share a
    zIndex. *)
Theorem C1_single_focus_top_zIndex (s : State) :
  reachable s -> focusOnTop s.
Proof.
  intros R; destruct (reachable_wellStacked s R) as [[I B U M] A].
  repeat split.
  - intros a v w _ Hv Hw Ev Ew.
    apply (NoDup_map_injective id (windows s)); [exact I|assumption|assumption|congruence].
  - intros a Ha. destruct (A a Ha) as (_ & w & Hin & Hid & Hz & Hm).
    exists w; repeat split; auto.
    + rewrite <- Hid; now apply In_getWindow.
    + intros v Hv. unfold zBelowNext in B; rewrite Forall_forall in B.
      specialize (B (zIndex v) (in_map zIndex _ _ Hv)); lia.
  - intros v w Hv Hw E.
    apply (NoDup_map_injective zIndex (windows s)); [exact U|assumption..].
Qed.

Lemma C1_witness : reachable stateThreeSteps /\ focusOnTop stateThreeSteps.
Proof.
  split; [exact reachable_stateThreeSteps|].
  apply (C1_single_focus_top_zIndex stateThreeSteps).
  exact reachable_stateThreeSteps.
Defined.

Lemma reachable_stateNotepad : reachable stateNotepad.
Proof. exact (reachable_run initialState (EvOpenApp "Notepad" (envAt 1))
                reachable_initial eq_refl). Qed.

(** C4.  For a window that is not maximized, [toggleMaximizeWindow] twice
    gives back exactly the geometry (top, left, width, height) the window
    had before the first call, and the window is again not maximized. *)
Theorem C4_maximize_restore_roundtrip (i : string) (s : State) (w : AppWindow) :
  getWindow i (windows s) = Some w ->
  isMaximized w = false ->
  exists w',
    getWindow i (windows (toggleMaximizeWindow i (toggleMaximizeWindow i s))) = Some w'
    /\ geometry w' = geometry w
    /\ isMaximized w' = false
    /\ classMaximized (element w') = false.
Proof.
  intros G M.
  assert (G1 : getWindow i (windows (toggleMaximizeWindow i s))
               = Some (set_isMaximized true
                         (set_classMaximized true
                            (set_originalPosition (Some (geometry w)) w)))).
  { unfold toggleMaximizeWindow; rewrite G, M; simpl.
    rewrite getWindow_updateWindow_same by reflexivity. now rewrite G. }
  unfold toggleMaximizeWindow at 1; rewrite G1.
  cbn [isMaximized set_isMaximized]; simpl windows.
  rewrite getWindow_updateWindow_same
    by (intros w0; unfold reapplyOriginalPosition; cbn; now destruct (originalPosition w0)).
  rewrite G1; simpl.
  eexists; split; [reflexivity|]. destruct w as [? ? ? [[? ? ? ?] ? ? ?] ? ? ? ? ? ?].
  repeat split.
Qed.

Lemma C4_witness :
  exists w',
    getWindow "Notepad-1"
      (windows (toggleMaximizeWindow "Notepad-1"
                  (toggleMaximizeWindow "Notepad-1" stateNotepad))) = Some w'
    /\ geometry w' = mkGeometry (CssPx 50) (CssPx 50) CssNone CssNone
    /\ isMaximized w' = false
    /\ classMaximized (element w') = false.
Proof.
  exact (C4_maximize_restore_roundtrip "Notepad-1" stateNotepad
           (mkAppWindow "Notepad-1" "Notepad" "Notepad"
              (mkElement (mkGeometry (CssPx 50) (CssPx 50) CssNone CssNone) false false true)
              false true 101 None false None)
           eq_refl eq_refl).
Defined.

(** ** Minimize and maximize (C7) *)

Lemma getWindow_mutate_same (i : string) (f : AppWindow -> AppWindow) (s : State)
    (w : AppWindow) :
  (forall v, id (f v) = id v) -> getWindow i (windows s) = Some w ->
  getWindow i (windows (mutate i f s)) = Some (f w).
Proof.
  intros Hf G; simpl. rewrite getWindow_updateWindow_same by assumption. now rewrite G.
Qed.

Lemma windows_focusNone (s : State) : windows (focusWindow None s) = windows s.
Proof. reflexivity. Qed.

(** [minimizeWindow] on a window that is not minimized takes the snapshot,
    sets [isMinimized] and clears [isMaximized]. *)
Lemma minimizeWindow_effect (i : string) (s : State) (w : AppWindow) :
  getWindow i (windows s) = Some w -> isMinimized w = false ->
  exists w', getWindow i (windows (minimizeWindow i s)) = Some w'
             /\ isMinimized w' = true /\ isMaximized w' = false
             /\ originalPosition w' = Some (geometry w)
             /\ geometry w' = geometry w.
Proof.
  intros G M; unfold minimizeWindow; rewrite G, M; simpl negb; cbv iota.
  set (f := fun w0 : AppWindow => set_isMinimized true _).
  assert (G1 : getWindow i (windows (mutate i f s)) = Some (f w))
    by (apply getWindow_mutate_same; [reflexivity|assumption]).
  exists (f w); split.
  - destruct (isActive i (mutate i f s)); [rewrite windows_focusNone|]; exact G1.
  - subst f; destruct w as [? ? ? [[? ? ? ?] ? ? ?] ? ? ? ? ? ?]; repeat split.
Qed.

(** C7 (failing input).  [toggleMaximizeWindow] has no case for a minimized
    window: applied to a record that is minimized and not maximized it sets
    [isMaximized] and leaves [isMinimized] set, so the record is marked both
    minimized and maximized. *)
Theorem C7_toggleMaximize_of_minimized (i : string) (s : State) (w : AppWindow) :
  getWindow i (windows s) = Some w ->
  isMinimized w = true ->
  isMaximized w = false ->
  exists w',
    getWindow i (windows (toggleMaximizeWindow i s)) = Some w'
    /\ isMinimized w' = true
    /\ isMaximized w' = true.
Proof.
  intros G Hmin Hmax; unfold toggleMaximizeWindow; rewrite G, Hmax.
  eexists; split; [apply getWindow_mutate_same; [reflexivity|exact G]|].
  simpl; auto.
Qed.

Lemma C7_witness :
  exists w',
    getWindow "Notepad-1" (windows (toggleMaximizeWindow "Notepad-1" stateMinimized))
    = Some w'
    /\ isMinimized w' = true
    /\ isMaximized w' = true.
Proof.
  exact (C7_toggleMaximize_of_minimized "Notepad-1" stateMinimized
           (mkAppWindow "Notepad-1" "Notepad" "Notepad"
              (mkElement (mkGeometry (CssPx 50) (CssPx 50) CssNone CssNone) false true true)
              true true 101
              (Some (mkGeometry (CssPx 50) (CssPx 50) CssNone CssNone)) false None)
           eq_refl eq_refl eq_refl).
Defined.

(** The minimized Notepad of [stateMinimized] is reached by events. *)
Lemma reachable_stateMinimized : reachable stateMinimized.
Proof.
  exact (reachable_run stateNotepad (EvMinimizeWindow "Notepad-1")
           reachable_stateNotepad eq_refl).
Qed.

(** [toggleMaximizeWindow] is an operation of the registry like the others:
    the record marked both ways sits in a state reached by three of them. *)
Lemma minimized_and_maximized_reachable :
  reachable (toggleMaximizeWindow "Notepad-1" stateMinimized)
  /\ map (fun w => (id w, isMinimized w, isMaximized w))
       (windows (toggleMaximizeWindow "Notepad-1" stateMinimized))
     = [("Notepad-1", true, true)].
Proof.
  split; [|reflexivity].
  exact (reachable_run stateMinimized (EvToggleMaximizeWindow "Notepad-1")
           reachable_stateMinimized eq_refl).
Qed.

(** ** Window ids (C9) *)

(** C9 (failing input).  Two Notepad windows opened while [Date.now()]
    returns the same value get the same id: the second
    [state.windows.set] overwrites the record of the first window, and the
    registry holds one record (with the zIndex of the second window) for
    two windows. *)
Theorem C9_same_timestamp_same_id :
  let first := openApp "Notepad" (envAt 1000) initialState in
  let second := openApp "Notepad" (envAt 1000) first in
  windowId "Notepad" 1000 = "Notepad-1000"
  /\ map (fun w => (id w, zIndex w)) (windows first) = [("Notepad-1000", 101)]
  /\ map (fun w => (id w, zIndex w)) (windows second) = [("Notepad-1000", 102)].
Proof. vm_compute; repeat split. Qed.

(** The id is not kept away from later windows either: after the record is
    removed, a window of the same kind created at the same clock value gets
    the id again. *)
Lemma windowId_reused_after_removal :
  let opened := openApp "Notepad" (envAt 1000) initialState in
  let removed := closeTimeout "Notepad-1000" (closeWindow "Notepad-1000" opened) in
  let again := openApp "Notepad" (envAt 1000) removed in
  map id (windows opened) = ["Notepad-1000"]
  /\ windows removed = []
  /\ map id (windows again) = ["Notepad-1000"].
Proof. vm_compute; repeat split. Qed.

(** ** Resizing (C6) *)

(** A maximized window, and a window that is the snap candidate of a drag
    in progress, take no resize. *)
Lemma resizeMouseDown_rejected (i : string) (e : MouseEvent) (m : Layout) (s : State)
    (w : AppWindow) :
  getWindow i (windows s) = Some w ->
  isMaximized w = true \/ isSnapping w <> None ->
  resizeMouseDown i e m s = s.
Proof.
  intros G H; unfold resizeMouseDown; rewrite G.
  destruct (isMaximized w); [reflexivity|].
  destruct (isSnapping w); [reflexivity|].
  destruct H as [H|H]; [discriminate|contradiction].
Qed.

(** Every move of a resize writes the clamped size and nothing else. *)
Lemma resizeMouseMove_effect (i : string) (sx sy sw sh : Z) (e : MouseEvent) (s : State)
    (w : AppWindow) :
  getWindow i (windows s) = Some w ->
  exists w',
    getWindow i (windows (resizeMouseMove i sx sy sw sh e s)) = Some w'
    /\ width (geometry w') = CssPx (Z.max 300 (sw + (clientX e - sx)))
    /\ height (geometry w') = CssPx (Z.max 200 (sh + (clientY e - sy)))
    /\ top (geometry w') = top (geometry w)
    /\ left (geometry w') = left (geometry w).
Proof.
  intros G; unfold resizeMouseMove.
  eexists; split; [apply getWindow_mutate_same; [reflexivity|exact G]|].
  repeat split.
Qed.

(** C6 (failing input).  When a drag that has a snap candidate is released,
    [applySnap] writes the edge rectangle and resets [isSnapping] to null;
    the snapped window is then neither [isMaximized] nor [isSnapping], so a
    press on its resize handle starts a resize session and the next
    pointer move rewrites its width and height. *)
Theorem C6_snapped_window_resizes (i : string) (s : State) (w : AppWindow)
    (position : SnapPosition) (ox oy : Z) (e e' : MouseEvent) (m : Layout) :
  getWindow i (windows s) = Some w ->
  isSnapping w = Some position ->
  pointerSession s = Some (Dragging i true ox oy) ->
  let released := mouseUp s in
  let pressed := resizeMouseDown i e m released in
  let moved := mouseMove e' m pressed in
  (exists w1, getWindow i (windows released) = Some w1
              /\ geometry w1 = snapRectangle position (isDockVisible s)
              /\ isSnapping w1 = None /\ isMaximized w1 = false)
  /\ pointerSession pressed
     = Some (Resizing i (clientX e) (clientY e) (computedWidth m) (computedHeight m))
  /\ (exists w2, getWindow i (windows moved) = Some w2
                 /\ width (geometry w2)
                    = CssPx (Z.max 300 (computedWidth m + (clientX e' - clientX e)))
                 /\ height (geometry w2)
                    = CssPx (Z.max 200 (computedHeight m + (clientY e' - clientY e)))).
Proof.
  intros G Hs Hp released pressed moved.
  assert (R : released
              = mutate i (fun w0 =>
                  set_isSnapping None
                    (set_style (snapRectangle position (isDockVisible s))
                       (set_classMaximized false (set_isMaximized false w0))))
                  (set_pointerSession None s)).
  { subst released; unfold mouseUp, dragMouseUp, applySnap; rewrite Hp; simpl.
    now rewrite G, Hs. }
  assert (G1 : getWindow i (windows released)
               = Some (set_isSnapping None
                         (set_style (snapRectangle position (isDockVisible s))
                            (set_classMaximized false (set_isMaximized false w)))))
    by (rewrite R;
        exact (getWindow_mutate_same i
                 (fun w0 =>
                    set_isSnapping None
                      (set_style (snapRectangle position (isDockVisible s))
                         (set_classMaximized false (set_isMaximized false w0))))
                 (set_pointerSession None s) w (fun _ => eq_refl) G)).
  assert (P : pressed
              = set_pointerSession
                  (Some (Resizing i (clientX e) (clientY e) (computedWidth m)
                           (computedHeight m))) released)
    by (subst pressed; unfold resizeMouseDown; now rewrite G1).
  split; [|split].
  - eexists; split; [exact G1|]. repeat split.
  - now rewrite P.
  - subst moved; unfold mouseMove; rewrite P; simpl pointerSession.
    destruct (resizeMouseMove_effect i (clientX e) (clientY e) (computedWidth m)
                (computedHeight m) e'
                (set_pointerSession
                   (Some (Resizing i (clientX e) (clientY e) (computedWidth m)
                            (computedHeight m))) released) _ G1)
      as (w2 & G2 & Hw & Hh & _).
    exists w2; auto.
Qed.

Lemma reachable_stateDraggedLeft : reachable stateDraggedLeft.
Proof.
  apply (runTrace_reachable
           [EvOpenApp "Notepad" (envAt 1);
            EvTitleBarMouseDown "Notepad-1" (mkMouseEvent 60 60) someLayout;
            EvMouseMove (mkMouseEvent 5 300) someLayout] initialState); [constructor|].
  vm_compute; reflexivity.
Qed.

Lemma C6_witness :
  let released := mouseUp stateDraggedLeft in
  let pressed := resizeMouseDown "Notepad-1" (mkMouseEvent 700 600) someLayout released in
  let moved := mouseMove (mkMouseEvent 740 630) someLayout pressed in
  (exists w1, getWindow "Notepad-1" (windows released) = Some w1
              /\ geometry w1 = snapRectangle SnapLeft true
              /\ isSnapping w1 = None /\ isMaximized w1 = false)
  /\ pointerSession pressed = Some (Resizing "Notepad-1" 700 600 350 450)
  /\ (exists w2, getWindow "Notepad-1" (windows moved) = Some w2
                 /\ width (geometry w2) = CssPx (Z.max 300 (350 + (740 - 700)))
                 /\ height (geometry w2) = CssPx (Z.max 200 (450 + (630 - 600)))).
Proof.
  exact (C6_snapped_window_resizes "Notepad-1" stateDraggedLeft
           (mkAppWindow "Notepad-1" "Notepad" "Notepad"
              (mkElement (mkGeometry (CssPx 280) (CssPx 45) CssNone CssNone) false false true)
              false true 101 None false (Some SnapLeft))
           SnapLeft (-40) (-40) (mkMouseEvent 700 600) (mkMouseEvent 740 630) someLayout
           eq_refl eq_refl eq_refl).
Defined.

(** ** Single-instance kinds (C3) *)

Lemma reachable_stateReopenedWhileClosing : reachable stateReopenedWhileClosing.
Proof.
  apply (runTrace_reachable
           [EvOpenApp "Settings" (envAt 1); EvCloseWindow "Settings-1";
            EvOpenApp "Settings" (envAt 2)] initialState); [constructor|].
  vm_compute; reflexivity.
Qed.

(** C3, refuted as stated.  Settings does not allow several instances, yet
    in a reachable state the registry holds two Settings records: the one
    that is closing, its timer still pending, and the new open one. *)
Lemma C3_counterexample :
  reachable stateReopenedWhileClosing
  /\ allowsMultiple (findAppDef "Settings") = false
  /\ map (fun w => (id w, isOpen w)) (recordsOfKind "Settings" stateReopenedWhileClosing)
     = [("Settings-1", false); ("Settings-2", true)]
  /\ closeTimers stateReopenedWhileClosing = ["Settings-1"]
  /\ ~ (List.length (recordsOfKind "Settings" stateReopenedWhileClosing) <= 1)%nat.
Proof.
  split; [exact reachable_stateReopenedWhileClosing|].
  repeat split. vm_compute; lia.
Qed.

(** C3, amended.  In every reachable state an app kind that does not allow
    several instances has at most one record with [isOpen = true]; records
    that are closing ([isOpen = false], not yet removed) are not counted. *)
Theorem C3_one_open_instance (s : State) (appId : string) :
  reachable s ->
  allowsMultiple (findAppDef appId) = false ->
  (List.length (filter (isOpenInstanceOf appId) (windows s)) <= 1)%nat.
Proof. intros R; exact (reachable_singleInstance s R appId). Qed.

Lemma C3_witness :
  (List.length (filter (isOpenInstanceOf "Settings") (windows stateReopenedWhileClosing))
   <= 1)%nat.
Proof.
  exact (C3_one_open_instance stateReopenedWhileClosing "Settings"
           reachable_stateReopenedWhileClosing eq_refl).
Defined.

(** ** Saved geometry and snapping (C5) *)

Lemma reachable_stateSnappedLeft : reachable stateSnappedLeft.
Proof.
  exact (reachable_run stateDraggedLeft EvMouseUp reachable_stateDraggedLeft eq_refl).
Qed.

(** C5, refuted as stated.  After a drag to the left edge is released the
    window has the left-edge rectangle and no [originalPosition]:
    [applySnap] took no snapshot of the geometry the window had before. *)
Lemma C5_counterexample :
  reachable stateSnappedLeft
  /\ exists w, getWindow "Notepad-1" (windows stateSnappedLeft) = Some w
               /\ geometry w = snapRectangle SnapLeft true
               /\ originalPosition w = None.
Proof.
  split; [exact reachable_stateSnappedLeft|].
  eexists; split; [reflexivity|]. split; reflexivity.
Qed.

Lemma applySnap_effect (i : string) (s : State) (w : AppWindow) (position : SnapPosition) :
  getWindow i (windows s) = Some w -> isSnapping w = Some position ->
  exists w', getWindow i (windows (applySnap i s)) = Some w'
             /\ geometry w' = snapRectangle position (isDockVisible s)
             /\ originalPosition w' = originalPosition w
             /\ isSnapping w' = None
             /\ isMaximized w' = false.
Proof.
  intros G Hs; unfold applySnap; rewrite G, Hs.
  eexists; split.
  - exact (getWindow_mutate_same i
             (fun w0 =>
                set_isSnapping None
                  (set_style (snapRectangle position (isDockVisible s))
                     (set_classMaximized false (set_isMaximized false w0))))
             s w (fun _ => eq_refl) G).
  - repeat split.
Qed.

Lemma toggleMaximizeWindow_maximizes (i : string) (s : State) (w : AppWindow) :
  getWindow i (windows s) = Some w -> isMaximized w = false ->
  exists w', getWindow i (windows (toggleMaximizeWindow i s)) = Some w'
             /\ isMaximized w' = true
             /\ originalPosition w' = Some (geometry w).
Proof.
  intros G M; unfold toggleMaximizeWindow; rewrite G, M.
  eexists; split.
  - exact (getWindow_mutate_same i
             (fun w0 =>
                set_isMaximized true
                  (set_classMaximized true (set_originalPosition (Some (geometry w0)) w0)))
             s w (fun _ => eq_refl) G).
  - split; reflexivity.
Qed.

Lemma reachable_stateSnapshots : reachable stateSnapshots.
Proof.
  apply (runTrace_reachable
           [EvOpenApp "About" (envAt 1); EvMinimizeWindow "About-1";
            EvOpenApp "Settings" (envAt 2); EvToggleMaximizeWindow "Settings-2";
            EvOpenApp "Notepad" (envAt 3);
            EvTitleBarMouseDown "Notepad-3" (mkMouseEvent 160 160) someLayout;
            EvMouseMove (mkMouseEvent 5 300) someLayout] initialState); [constructor|].
  vm_compute; reflexivity.
Qed.

(** C5, amended.  In every reachable state each record marked maximized or
    minimized has an [originalPosition]; [minimizeWindow] and the maximizing
    branch of [toggleMaximizeWindow] store there the geometry the window
    has when they are called.  [applySnap] stores nothing: it writes the
    edge rectangle and leaves [originalPosition] as it was. *)
Theorem C5_snapshots_of_maximize_and_minimize (s : State) :
  reachable s -> snapshotContract s.
Proof.
  intros R; split; [|split; [|split]].
  - pose proof (reachable_snapshotKept s R) as K.
    unfold snapshotKept in K; rewrite Forall_forall in K. exact K.
  - intros i w G M.
    destruct (minimizeWindow_effect i s w G M) as (w' & G' & A & _ & B & _); eauto.
  - intros i w G M. now apply toggleMaximizeWindow_maximizes.
  - intros i w position G Hs.
    destruct (applySnap_effect i s w position G Hs) as (w' & G' & A & B & _); eauto.
Qed.

(** The theorem at a state that has a minimized record, a maximized one
    and one marked for snapping. *)
Lemma C5_witness :
  (reachable stateSnapshots
   /\ map (fun w => (id w, isMinimized w, isMaximized w, isSnapping w))
        (windows stateSnapshots)
      = [("About-1", true, false, None); ("Settings-2", false, true, None);
         ("Notepad-3", false, false, Some SnapLeft)])
  /\ snapshotContract stateSnapshots.
Proof.
  split; [split; [exact reachable_stateSnapshots|reflexivity]|].
  exact (C5_snapshots_of_maximize_and_minimize stateSnapshots reachable_stateSnapshots).
Defined.

(** ** Geometry bounds of drag and resize (C8) *)

Lemma clamp_lower (lo v hi : Z) : lo <= clamp lo v hi.
Proof. unfold clamp; lia. Qed.

Lemma clamp_upper (lo v hi : Z) : lo <= hi -> clamp lo v hi <= hi.
Proof. unfold clamp; lia. Qed.

Lemma geometry_showSnapIndicator (p : SnapPosition) (s : State) :
  map geometryCore (windows (showSnapIndicator p s)) = map geometryCore (windows s).
Proof.
  unfold showSnapIndicator.
  destruct (snapIndicator s); simpl; [|reflexivity].
  destruct (activeWindowId s) as [a|]; [|reflexivity].
  destruct (a =? "")%string; [reflexivity|].
  simpl; apply map_updateWindow; reflexivity.
Qed.

Lemma getWindow_geometry_via (i : string) (s s' : State) (w : AppWindow) :
  map geometryCore (windows s') = map geometryCore (windows s) ->
  getWindow i (windows s) = Some w ->
  exists w', getWindow i (windows s') = Some w' /\ geometry w' = geometry w.
Proof.
  intros E G. apply (getWindow_via geometryCore fst i) in E; [|reflexivity].
  rewrite G in E; simpl in E.
  destruct (getWindow i (windows s')) as [w'|]; [|discriminate].
  simpl in E; unfold geometryCore in E; injection E as _ E2. eauto.
Qed.

Lemma dragMouseMove_effect (i : string) (ox oy : Z) (e : MouseEvent) (m : Layout)
    (s : State) (w : AppWindow) :
  getWindow i (windows s) = Some w ->
  exists w',
    getWindow i (windows (dragMouseMove i true ox oy e m s)) = Some w'
    /\ left (geometry w') = CssPx (draggedLeft ox e m)
    /\ top (geometry w') = CssPx (draggedTop oy e m s)
    /\ width (geometry w') = width (geometry w)
    /\ height (geometry w') = height (geometry w).
Proof.
  intros G; unfold dragMouseMove.
  set (f := fun w0 : AppWindow => set_top _ (set_left _ w0)).
  set (s1 := mutate i f s).
  assert (G1 : getWindow i (windows s1) = Some (f w))
    by (apply getWindow_mutate_same; [reflexivity|exact G]).
  assert (K : forall s2, map geometryCore (windows s2) = map geometryCore (windows s1) ->
                exists w', getWindow i (windows s2) = Some w'
                           /\ left (geometry w') = CssPx (draggedLeft ox e m)
                           /\ top (geometry w') = CssPx (draggedTop oy e m s)
                           /\ width (geometry w') = width (geometry w)
                           /\ height (geometry w') = height (geometry w)).
  { intros s2 E. destruct (getWindow_geometry_via i s1 s2 (f w) E G1) as (w' & G2 & Eg).
    exists w'; split; [exact G2|]. rewrite Eg. subst f; repeat split. }
  cbv iota.
  repeat match goal with
         | |- context [if ?c then _ else _] => destruct c
         end;
    apply K; try apply geometry_showSnapIndicator.
  simpl; apply map_updateWindow; reflexivity.
Qed.

Lemma reachable_stateStickyDragged : reachable stateStickyDragged.
Proof.
  apply (runTrace_reachable
           [EvOpenApp "StickyNotes" (envAt 1);
            EvTitleBarMouseDown "StickyNotes-1" (mkMouseEvent 60 60) stickyLayout;
            EvMouseMove (mkMouseEvent 400 300) stickyLayout;
            EvMouseUp] initialState); [constructor|].
  vm_compute; reflexivity.
Qed.

(** C8, refuted as stated.  A Sticky Notes window is created 250px by 250px
    (APP_DEFINITIONS, line 80); a drag moves it and leaves its size alone,
    so the drag session ends with a width below 300. *)
Lemma C8_counterexample :
  reachable stateStickyDragged
  /\ pointerSession stateStickyDragged = None
  /\ exists w, getWindow "StickyNotes-1" (windows stateStickyDragged) = Some w
               /\ geometry w = mkGeometry (CssPx 290) (CssPx 390) (CssPx 250) (CssPx 250)
               /\ ~ atLeastMinimumSize w.
Proof.
  split; [exact reachable_stateStickyDragged|]. split; [reflexivity|].
  eexists; split; [reflexivity|]. split; [reflexivity|].
  intros (n & k & Hn & Hn' & _). simpl in Hn; injection Hn as <-. lia.
Qed.

(** What every pointer move of a session writes. *)
Lemma moveBounds_of_record (i : string) (s : State) (w : AppWindow) :
  getWindow i (windows s) = Some w -> moveBounds i w s.
Proof.
  intros G; split.
  - intros sx sy sw sh e.
    destruct (resizeMouseMove_effect i sx sy sw sh e s w G) as (w' & G' & Hw & Hh & Ht & Hl).
    exists w'; repeat split; auto.
    exists (Z.max 300 (sw + (clientX e - sx))), (Z.max 200 (sh + (clientY e - sy))).
    rewrite Hw, Hh; simpl; repeat split; lia.
  - intros ox oy e m.
    destruct (dragMouseMove_effect i ox oy e m s w G) as (w' & G' & Hl & Ht & Hw & Hh).
    exists w', (draggedLeft ox e m), (draggedTop oy e m s).
    repeat split; auto.
    + apply clamp_lower.
    + apply clamp_lower.
    + intros Hfit.
      pose proof (clamp_upper 0 (clientX e - ox)
                    (boundsClientWidth m - targetOffsetWidth m)) as U.
      unfold draggedLeft; lia.
    + intros Hfit.
      pose proof (clamp_upper (menuBarOffsetHeight m) (clientY e - oy)
                    (boundsClientHeight m - targetOffsetHeight m - dockHeightOf s m)) as U.
      unfold draggedTop; lia.
Qed.

Lemma rest_showSnapIndicator (p : SnapPosition) (s : State) :
  pointerSession (showSnapIndicator p s) = pointerSession s
  /\ isDockVisible (showSnapIndicator p s) = isDockVisible s.
Proof.
  unfold showSnapIndicator.
  destruct (negb (snapIndicator s)); [auto|].
  destruct (activeWindowId s) as [a|]; [|auto].
  destruct (a =? "")%string; auto.
Qed.

Lemma rest_dragMouseMove (i : string) (h : bool) (ox oy : Z) (e : MouseEvent)
    (m : Layout) (s : State) :
  pointerSession (dragMouseMove i h ox oy e m s) = pointerSession s
  /\ isDockVisible (dragMouseMove i h ox oy e m s) = isDockVisible s.
Proof.
  unfold dragMouseMove.
  set (s1 := if h then mutate i _ s else s).
  assert (H1 : pointerSession s1 = pointerSession s /\ isDockVisible s1 = isDockVisible s)
    by (subst s1; destruct h; auto).
  destruct H1 as [P D].
  repeat match goal with
         | |- context [if ?c then _ else _] => destruct c
         end;
    try (destruct (rest_showSnapIndicator SnapLeft s1) as [P' D'];
         split; congruence);
    try (destruct (rest_showSnapIndicator SnapRight s1) as [P' D'];
         split; congruence);
    try (destruct (rest_showSnapIndicator SnapTop s1) as [P' D'];
         split; congruence);
    auto.
Qed.

(** A move away from the snap zones clears the mark of the dragged
    record. *)
Lemma dragMouseMove_away (i : string) (ox oy : Z) (e : MouseEvent) (m : Layout)
    (s : State) (w w1 : AppWindow) :
  getWindow i (windows s) = Some w ->
  getWindow i (windows (dragMouseMove i true ox oy e m s)) = Some w1 ->
  snapCandidate e m = None -> isSnapping w1 = None.
Proof.
  intros G G1 C. unfold dragMouseMove in G1. unfold snapCandidate in C.
  cbv zeta in G1.
  destruct (clientX e <? 20); [discriminate|].
  destruct (clientX e >? desktopClientWidth m - 20); [discriminate|].
  destruct (clientY e <? menuBarOffsetHeight m + 20); [discriminate|].
  cbv iota in G1. simpl in G1.
  rewrite !getWindow_updateWindow_same in G1 by reflexivity.
  rewrite G in G1. cbn in G1. injection G1 as <-. reflexivity.
Qed.

(** C8, amended.  A resize that ends after a pointer move leaves a width
    of at least 300 and a height of at least 200 and the position the
    window had.  A window drag that ends after a pointer move leaves, when
    the record is not marked for snapping (as after a move away from the
    snap zones), a left of at least 0 and a top at or below the menu bar,
    the right edge inside the container and the bottom edge above the dock
    (when it is visible) whenever the window is small enough to fit there,
    and the width and height the window had, whatever they were; when the
    record is marked, the release writes the rectangle of the marked edge
    instead.  The bounds of the first two cases hold after every single
    pointer move as well. *)
Theorem C8_session_bounds (i : string) (s : State) (w : AppWindow) :
  getWindow i (windows s) = Some w -> moveBounds i w s /\ endBounds i w s.
Proof.
  intros G. pose proof (moveBounds_of_record i s w G) as [MR MD].
  split; [split; assumption|]. split; [|split; [|split]].
  - intros sx sy sw sh e m P s'.
    assert (E : s' = set_pointerSession None (resizeMouseMove i sx sy sw sh e s)).
    { unfold s', mouseMove. rewrite P. unfold mouseUp, resizeMouseMove; simpl.
      now rewrite P. }
    rewrite E. split; [reflexivity|]. exact (MR sx sy sw sh e).
  - intros ox oy e m P moved s'.
    assert (Em : moved = dragMouseMove i true ox oy e m s)
      by (unfold moved, mouseMove; now rewrite P).
    destruct (rest_dragMouseMove i true ox oy e m s) as [Pm Dm].
    destruct (MD ox oy e m) as (w1 & x & y & G1 & Hl & Ht & Bx & By & Fx & Fy & Hw & Hh).
    rewrite <- Em in G1, Pm, Dm.
    assert (E : s' = applySnap i (set_pointerSession None moved)).
    { unfold s', mouseUp. rewrite Pm, P. reflexivity. }
    assert (Away : snapCandidate e m = None -> isSnapping w1 = None).
    { apply (dragMouseMove_away i ox oy e m s w w1 G). now rewrite <- Em. }
    assert (G1' : getWindow i (windows (set_pointerSession None moved)) = Some w1)
      by exact G1.
    destruct (isSnapping w1) as [position|] eqn:Hs.
    + destruct (applySnap_effect i _ w1 position G1' Hs) as (w' & G' & Eg & _).
      rewrite E. split.
      * unfold applySnap. rewrite G1', Hs. reflexivity.
      * exists w1, w'. rewrite Hs. repeat split; auto.
        rewrite Eg. f_equal. exact Dm.
    + assert (E' : s' = set_pointerSession None moved)
        by (rewrite E; unfold applySnap; now rewrite G1', Hs).
      rewrite E'. split; [reflexivity|].
      exists w1, w1. rewrite Hs. repeat split; auto.
      exists x, y. repeat split; auto.
  - intros sx sy sw sh P. unfold mouseUp. rewrite P. split; [reflexivity|exact G].
  - intros ox oy P.
    assert (E : mouseUp s = applySnap i (set_pointerSession None s))
      by (unfold mouseUp; rewrite P; reflexivity).
    assert (G0 : getWindow i (windows (set_pointerSession None s)) = Some w) by exact G.
    rewrite E. destruct (isSnapping w) as [position|] eqn:Hs.
    + destruct (applySnap_effect i _ w position G0 Hs) as (w' & G' & Eg & _).
      split; [unfold applySnap; rewrite G0, Hs; reflexivity|].
      exists w'. split; [exact G'|exact Eg].
    + unfold applySnap. rewrite G0, Hs. split; [reflexivity|exact G].
Qed.

(** The theorem at a window in the middle of a drag and at a window in the
    middle of a resize. *)
Lemma C8_witness :
  (pointerSession stateStickyDragging = Some (Dragging "StickyNotes-1" true 10 10)
   /\ moveBounds "StickyNotes-1"
        (mkAppWindow "StickyNotes-1" "StickyNotes" "Sticky Notes"
           (mkElement (mkGeometry (CssPx 50) (CssPx 50) (CssPx 250) (CssPx 250))
              false false true)
           false true 101 None false None)
        stateStickyDragging
   /\ endBounds "StickyNotes-1"
        (mkAppWindow "StickyNotes-1" "StickyNotes" "Sticky Notes"
           (mkElement (mkGeometry (CssPx 50) (CssPx 50) (CssPx 250) (CssPx 250))
              false false true)
           false true 101 None false None)
        stateStickyDragging)
  /\ (pointerSession stateStickyResizing
      = Some (Resizing "StickyNotes-1" 300 300 250 250)
      /\ moveBounds "StickyNotes-1"
           (mkAppWindow "StickyNotes-1" "StickyNotes" "Sticky Notes"
              (mkElement (mkGeometry (CssPx 50) (CssPx 50) (CssPx 250) (CssPx 250))
                 false false true)
              false true 101 None false None)
           stateStickyResizing
      /\ endBounds "StickyNotes-1"
           (mkAppWindow "StickyNotes-1" "StickyNotes" "Sticky Notes"
              (mkElement (mkGeometry (CssPx 50) (CssPx 50) (CssPx 250) (CssPx 250))
                 false false true)
              false true 101 None false None)
           stateStickyResizing).
Proof.
  split; (split; [reflexivity|]).
  - exact (C8_session_bounds "StickyNotes-1" stateStickyDragging _ eq_refl).
  - exact (C8_session_bounds "StickyNotes-1" stateStickyResizing _ eq_refl).
Defined.

(** ** Opening an app: what the registry looks like afterwards *)

Lemma focusWindow_active (j : string) (s : State) (w : AppWindow) :
  j <> "" -> getWindow j (windows s) = Some w ->
  activeWindowId (focusWindow (Some j) s) = Some j.
Proof.
  intros Hj G.
  destruct (focusWindow_cases j s)
    as [[_ [E|E]]|[[-> (_ & w' & _ & A & _)]|[-> _]]]; try congruence.
  reflexivity.
Qed.

Lemma openCore_focusWindow (o : option string) (s : State) :
  map openCore (windows (focusWindow o s)) = map openCore (windows s).
Proof. apply map_focusWindow; reflexivity. Qed.

Lemma getWindow_openCore_via (i : string) (ws ws' : Windows) (w : AppWindow) :
  map openCore ws' = map openCore ws ->
  getWindow i ws = Some w ->
  exists w', getWindow i ws' = Some w' /\ openCore w' = openCore w.
Proof.
  intros E G.
  apply (getWindow_via openCore (fun c => fst (fst (fst c))) i) in E; [|reflexivity].
  rewrite G in E; simpl in E.
  destruct (getWindow i ws') as [w'|]; [|discriminate].
  simpl in E; exists w'; split; [reflexivity|congruence].
Qed.

Lemma existsb_false_of_filter_nil {A : Type} (p : A -> bool) (l : list A) :
  filter p l = [] -> existsb p l = false.
Proof.
  induction l as [|x rest IH]; simpl; [reflexivity|].
  destruct (p x); [discriminate|exact IH].
Qed.

Lemma createWindow_creates (options : Options.t) (env : Env) (s : State) (d : AppDef.t) :
  findAppDef (Options.baseAppId options) = Some d ->
  AppDef.allowMultipleInstances d = true
  \/ filter (isOpenInstanceOf (Options.baseAppId options)) (windows s) = [] ->
  exists windowEl,
    createWindow options env s
    = focusWindow (Some (windowId (Options.baseAppId options) (now env)))
        (set_windows (setWindow (newWindowOf options env s windowEl) (windows s))
           (set_nextZIndex (nextZIndex s + 1) s)).
Proof.
  intros D H; unfold createWindow, createWindow_; rewrite D.
  assert (C : negb (allowsMultiple (Some d))
              && existsb (isOpenInstanceOf (Options.baseAppId options)) (windows s) = false).
  { destruct H as [H|H]; simpl.
    - now rewrite H.
    - rewrite (existsb_false_of_filter_nil _ _ H). apply andb_false_r. }
  rewrite C. eexists; reflexivity.
Qed.

Lemma openApp_creates (appId : string) (env : Env) (s : State) (d : AppDef.t) :
  findAppDef appId = Some d ->
  AppDef.isLaunchable d = true ->
  AppDef.allowMultipleInstances d = true
  \/ filter (isOpenInstanceOf appId) (windows s) = [] ->
  exists options,
    Options.baseAppId options = appId
    /\ openApp appId env s = createWindow options env s.
Proof.
  intros D L H; unfold openApp, openApp_; rewrite D, L; simpl negb; cbv iota.
  destruct (negb (AppDef.allowMultipleInstances d)) eqn:N,
    (filter (isOpenInstanceOf appId) (windows s)) as [|ex rest] eqn:F.
  4: destruct (AppDef.contentTemplateId d) as [tpl|];
     [destruct (negb (templateExists env tpl))|]; eexists; (split; [|reflexivity]);
     reflexivity.
  3: destruct (AppDef.contentTemplateId d) as [tpl|];
     [destruct (negb (templateExists env tpl))|]; eexists; (split; [|reflexivity]);
     reflexivity.
  1: destruct (AppDef.contentTemplateId d) as [tpl|];
     [destruct (negb (templateExists env tpl))|]; eexists; (split; [|reflexivity]);
     reflexivity.
  destruct H as [H|H]; [rewrite H in N; discriminate|discriminate].
Qed.




(** ** Restoring a record that is closing (C10) *)



(** A closing record of a kind without a launchable definition (the Trash
    message window): [restoreWindow] does nothing at all. *)
Lemma restoreWindow_closing_unlaunchable :
  let options := Options.mk "TrashMessage" "Trash" (Some 490) (Some 310)
                   (Some (CssPx 300)) (Some (CssPx 180)) in
  let closing := closeWindow "TrashMessage-1" (createWindow options (envAt 1) initialState) in
  map (fun w => (id w, isOpen w, isMinimized w)) (windows closing)
  = [("TrashMessage-1", false, false)]
  /\ restoreWindow (envAt 5) "TrashMessage-1" closing = closing.
Proof. vm_compute; split; reflexivity. Qed.

(** A closing record of a single-instance kind that has been opened again
    in the meantime: [restoreWindow] focuses the open instance and creates
    nothing. *)
Lemma restoreWindow_closing_redirects :
  let after := restoreWindow (envAt 5) "Settings-1" stateReopenedWhileClosing in
  map (fun w => (id w, isOpen w)) (windows after)
  = [("Settings-1", false); ("Settings-2", true)]
  /\ activeWindowId after = Some "Settings-2".
Proof. vm_compute; split; reflexivity. Qed.



(** ** Opening a single-instance app twice (C2) *)

Lemma focus_existing (j : string) (s0 : State) (w0 : AppWindow) :
  j <> "" -> getWindow j (windows s0) = Some w0 ->
  let s' := focusWindow (Some j) s0 in
  activeWindowId s' = Some j
  /\ map id (windows s') = map id (windows s0)
  /\ exists w', getWindow j (windows s') = Some w' /\ openCore w' = openCore w0.
Proof.
  intros Hj G s'; subst s'; split; [|split].
  - now apply (focusWindow_active j s0 w0).
  - apply map_focusWindow; reflexivity.
  - apply (getWindow_openCore_via j (windows s0)); [apply openCore_focusWindow|exact G].
Qed.

Lemma In_id_nonempty (s : State) (w : AppWindow) :
  stacked s -> In w (windows s) -> id w <> "".
Proof.
  intros [_ _ _ M] Hin. unfold namedIds in M; rewrite Forall_forall in M.
  apply M. now apply in_map.
Qed.

Lemma openApp_existing (appId : string) (s : State) (d : AppDef.t) :
  stacked s ->
  findAppDef appId = Some d ->
  AppDef.isLaunchable d = true ->
  AppDef.allowMultipleInstances d = false ->
  redirectsToExisting appId s.
Proof.
  intros S D L M env ex rest F.
  assert (E : openApp appId env s = restoreWindowInner (id ex) s)
    by (unfold openApp, openApp_; now rewrite D, L, M, F).
  destruct (filter_head_In _ _ _ _ F) as [Hin Hp].
  pose proof (In_getWindow _ _ (stacked_ids _ S) Hin) as G.
  pose proof (In_id_nonempty _ _ S Hin) as Hne.
  assert (Ho : isOpen ex = true)
    by (unfold isOpenInstanceOf in Hp; now apply andb_prop in Hp).
  simpl; rewrite E; unfold restoreWindowInner, restoreWindow_; rewrite G.
  destruct (isMinimized ex) eqn:Hm.
  - set (f := fun w0 : AppWindow => set_isMinimized false _).
    assert (Hf : forall v, id (f v) = id v) by (intros v; apply restore_preserves_id).
    pose proof (getWindow_mutate_same (id ex) f s ex Hf G) as G1.
    destruct (focus_existing (id ex) (mutate (id ex) f s) (f ex) Hne G1)
      as (A & I & w' & G' & Ec).
    split; [|split; [exact A|]].
    + rewrite I; simpl. apply map_updateWindow; intros; apply Hf.
    + exists w'; split; [exact G'|].
      unfold openCore in Ec; injection Ec as _ E2 E3 E4.
      unfold isOpenInstanceOf in *; rewrite E2, E3, E4.
      subst f; unfold reapplyOriginalPosition; cbn.
      destruct (originalPosition ex); cbn; auto.
  - rewrite Ho; simpl negb; cbv iota.
    destruct (focus_existing (id ex) s ex Hne G) as (A & I & w' & G' & Ec).
    split; [exact I|split; [exact A|]].
    exists w'; split; [exact G'|].
    unfold openCore in Ec; injection Ec as _ E2 E3 E4.
    unfold isOpenInstanceOf in *; rewrite E2, E3, E4; auto.
Qed.





(** The spec's own example of C2 with a minimized instance: Settings is
    opened, minimized and opened again. *)
Example openApp_restores_minimized_Settings :
  let opened := openApp "Settings" (envAt 1) initialState in
  let again := openApp "Settings" (envAt 2) (minimizeWindow "Settings-1" opened) in
  map (fun w => (id w, isOpen w, isMinimized w)) (windows again)
  = [("Settings-1", true, false)]
  /\ activeWindowId again = Some "Settings-1".
Proof. vm_compute; split; reflexivity. Qed.

(** ** Checks of the embedding on the source's own strings and scenario *)

Example WBrowse_allows_multiple : allowsMultiple (findAppDef "WBrowse") = true.
Proof. reflexivity. Qed.

Example render_snap_left :
  map render [top (snapRectangle SnapLeft true); left (snapRectangle SnapLeft true);
              width (snapRectangle SnapLeft true); height (snapRectangle SnapLeft true)]
  = ["30px"; "2px"; "calc(50vw - 4px)"; "calc(100vh - 102px)"].
Proof. reflexivity. Qed.

Example render_snap_top_without_dock :
  map render [left (snapRectangle SnapRight false); width (snapRectangle SnapTop false);
              height (snapRectangle SnapTop false)]
  = ["calc(50vw + 2px)"; "calc(100vw - 4px)"; "calc(50vh - 16px)"].
Proof. reflexivity. Qed.

Example windowId_of_Notepad : windowId "Notepad" 1712345678901 = "Notepad-1712345678901".
Proof. reflexivity. Qed.

(** The scenario of the specification: open A, open B, click A's title
    bar, minimize A, close B and let its timer fire.  The registry then
    holds A alone, minimized, and no window is focused.  ([createWindow]
    hands out one zIndex for the record and [focusWindow] a second one, so
    A is at 101, B at 103 and A again at 104.) *)
Example scenario_of_the_specification :
  option_map
    (fun s => (map (fun w => (id w, zIndex w, isMinimized w)) (windows s),
               activeWindowId s))
    (runTrace [EvOpenApp "About" (envAt 1); EvOpenApp "Notepad" (envAt 2);
               EvFocusWindow "About-1"; EvMinimizeWindow "About-1";
               EvCloseWindow "Notepad-2"; EvCloseTimeout "Notepad-2"] initialState)
  = Some ([("About-1", 104, true)], None).
Proof. reflexivity. Qed.

(** * Further properties of the code *)

(** ** The dock *)

Lemma shown_instances (appId : string) (ws : Windows) :
  existsb (fun win => (baseAppId win =? appId)%string && isOpen win
                      && negb (isMinimized win)) ws
  = existsb (isOpenInstanceOf appId) ws
    && negb (forallb isMinimized (filter (isOpenInstanceOf appId) ws)).
Proof.
  induction ws as [|x rest IH]; simpl; [reflexivity|].
  rewrite IH; clear IH.
  assert (Hx : isOpenInstanceOf appId x = (baseAppId x =? appId)%string && isOpen x)
    by reflexivity.
  destruct (isOpenInstanceOf appId x); rewrite <- Hx; simpl; [|reflexivity].
  destruct (existsb (isOpenInstanceOf appId) rest) eqn:E.
  - destruct (isMinimized x), (forallb _ (filter _ rest)); reflexivity.
  - rewrite (filter_nil_of_existsb _ _ E). now destruct (isMinimized x).
Qed.

(** X1.  A dock item carries the class 'active-app' exactly when its app
    has an open window, minimized or not, or when the focused window is a
    window of that app that is not minimized.  The dock flags of the app
    ([isFinderLike], [isEssentialDock]) make no difference. *)
Theorem dock_item_active_iff_open_or_focused (appId : string) (s : State) :
  dockItemActive appId s
  = existsb (isOpenInstanceOf appId) (windows s)
    || match activeWindow s with
       | Some w => (baseAppId w =? appId)%string && negb (isMinimized w)
       | None => false
       end.
Proof.
  unfold dockItemActive. rewrite shown_instances.
  destruct (existsb (isOpenInstanceOf appId) (windows s));
    destruct (forallb isMinimized _);
    destruct (match activeWindow s with Some _ => _ | None => false end);
    destruct (match findAppDef appId with Some _ => _ | None => false end);
    reflexivity.
Qed.

Lemma finderItems_renderDock (s : State) : finderItems (renderDock s) = ["About"].
Proof. reflexivity. Qed.

Lemma essentialItems_renderDock (s : State) :
  essentialItems (renderDock s) = ["Portfolio"; "WinsAssistant"; "Settings"; "Terminal"].
Proof. reflexivity. Qed.

Lemma systemItems_renderDock (s : State) :
  systemItems (renderDock s) = ["AppLibraryLauncher"; "Trash"].
Proof. reflexivity. Qed.

Lemma In_dynamicItems (s : State) (i : string) :
  In i (dynamicItems (renderDock s)) <->
  exists d, In d APP_DEFINITIONS /\ AppDef.id d = i
            /\ In i (map baseAppId (filter isOpen (windows s)))
            /\ isFinderLike d = false /\ isEssentialDock d = false
            /\ isPermanentDock d = false /\ AppDef.isLaunchable d = true.
Proof.
  unfold renderDock; cbn [dynamicItems]. rewrite in_map_iff. split.
  - intros (d & E & H). apply filter_In in H as [Hin H].
    repeat (apply andb_prop in H as [H ?]).
    apply existsb_exists in H as (j & Hj & Ej). apply String.eqb_eq in Ej.
    exists d. repeat split; auto; try (now apply negb_true_iff); congruence.
  - intros (d & Hin & E & Hrun & F1 & F2 & F3 & F4).
    exists d; split; [exact E|]. apply filter_In; split; [exact Hin|].
    rewrite F1, F2, F3, F4; simpl. rewrite !andb_true_r.
    apply existsb_exists. exists i; split; [exact Hrun|]. now apply String.eqb_eq.
Qed.

Lemma existsb_eqb_In (i : string) (l : list string) :
  existsb (String.eqb i) l = true <-> In i l.
Proof.
  rewrite existsb_exists; split.
  - intros (j & Hj & E). apply String.eqb_eq in E; now subst.
  - intros H; exists i; split; [exact H|apply String.eqb_refl].
Qed.

Lemma unlaunchable_is_permanent (d : AppDef.t) :
  In d APP_DEFINITIONS -> AppDef.isLaunchable d = false -> isPermanentDock d = true.
Proof.
  intros Hin L.
  assert (A : forallb (fun d => AppDef.isLaunchable d || isPermanentDock d)
                APP_DEFINITIONS = true) by reflexivity.
  rewrite forallb_forall in A. specialize (A d Hin). now rewrite L in A.
Qed.

(** X2.  Every app of [APP_DEFINITIONS] that has an open window has an item
    in the dock that [renderDock] builds. *)
Theorem dock_has_item_of_open_window (s : State) (w : AppWindow) (d : AppDef.t) :
  In w (windows s) -> isOpen w = true -> findAppDef (baseAppId w) = Some d ->
  In (baseAppId w) (dockItems (renderDock s)).
Proof.
  intros Hin Ho F. apply find_some in F as [Hd E]. apply String.eqb_eq in E.
  unfold dockItems.
  rewrite finderItems_renderDock, essentialItems_renderDock, systemItems_renderDock.
  rewrite !in_app_iff.
  destruct (isFinderLike d) eqn:F1.
  { left. apply existsb_eqb_In in F1. now rewrite <- E. }
  destruct (isEssentialDock d) eqn:F2.
  { right; left. apply existsb_eqb_In in F2. now rewrite <- E. }
  destruct (isPermanentDock d) eqn:F3.
  { right; right; right. apply existsb_eqb_In in F3. now rewrite <- E. }
  right; right; left. apply In_dynamicItems.
  exists d; repeat split; auto.
  - apply in_map, filter_In; auto.
  - destruct (AppDef.isLaunchable d) eqn:L; [reflexivity|].
    apply unlaunchable_is_permanent in L; [congruence|assumption].
Qed.

Lemma dock_has_item_of_open_window_witness :
  In "Notepad" (dockItems (renderDock stateNotepad)).
Proof.
  exact (dock_has_item_of_open_window stateNotepad
           (mkAppWindow "Notepad-1" "Notepad" "Notepad"
              (mkElement (mkGeometry (CssPx 50) (CssPx 50) CssNone CssNone)
                 false false true)
              false true 101 None false None)
           (AppDef.mk "Notepad" "Notepad" (Some "notepad-content") true true None None)
           (or_introl eq_refl) eq_refl eq_refl).
Defined.

Lemma NoDup_app_disjoint {A : Type} (l1 l2 : list A) :
  NoDup l1 -> NoDup l2 -> (forall x, In x l1 -> In x l2 -> False) -> NoDup (l1 ++ l2).
Proof.
  induction 1 as [|x l Hx Hl IH]; simpl; intros H2 D; [exact H2|].
  constructor.
  - rewrite in_app_iff; intros [H|H]; [exact (Hx H)|exact (D x (or_introl eq_refl) H)].
  - apply IH; [exact H2|]. intros y Hy; apply D; now right.
Qed.

Lemma NoDup_ids_filter (keep : AppDef.t -> bool) (defs : list AppDef.t) :
  NoDup (map AppDef.id defs) -> NoDup (map AppDef.id (filter keep defs)).
Proof.
  induction defs as [|d rest IH]; simpl; [auto|].
  intros H; inversion H as [|? ? Hd Hrest]; subst.
  destruct (keep d); simpl; [|auto]. constructor; [|auto].
  intros Hin; apply Hd. apply in_map_iff in Hin as (y & E & Hy).
  apply filter_In in Hy as [Hy _]. rewrite <- E; now apply in_map.
Qed.

Lemma NoDup_app_ids : NoDup (map AppDef.id APP_DEFINITIONS).
Proof.
  simpl. repeat (constructor; [simpl; intuition discriminate|]). constructor.
Qed.

(** X3.  The dock never shows an app twice, however many windows of the app
    are open. *)
Theorem dock_items_are_distinct (s : State) : NoDup (dockItems (renderDock s)).
Proof.
  unfold dockItems.
  rewrite finderItems_renderDock, essentialItems_renderDock, systemItems_renderDock.
  assert (D : forall i, In i (dynamicItems (renderDock s)) ->
                ~ In i ["About"] /\ ~ In i ["Portfolio"; "WinsAssistant"; "Settings"; "Terminal"]
                /\ ~ In i ["AppLibraryLauncher"; "Trash"]).
  { intros i H. apply In_dynamicItems in H as (d & _ & E & _ & F1 & F2 & F3 & _).
    subst i. repeat split; intros H; apply existsb_eqb_In in H.
    - unfold isFinderLike in F1; congruence.
    - unfold isEssentialDock in F2; congruence.
    - unfold isPermanentDock in F3; congruence. }
  assert (N : NoDup (dynamicItems (renderDock s)))
    by (apply NoDup_ids_filter, NoDup_app_ids).
  apply NoDup_app_disjoint.
  - repeat (constructor; [simpl; intuition discriminate|]). constructor.
  - apply NoDup_app_disjoint.
    + repeat (constructor; [simpl; intuition discriminate|]). constructor.
    + apply NoDup_app_disjoint; [exact N| |].
      * repeat (constructor; [simpl; intuition discriminate|]). constructor.
      * intros i H1 H2. now apply (D i) in H1 as (_ & _ & H1).
    + intros i H1 H2. apply in_app_iff in H2 as [H2|H2].
      * now apply (D i) in H2 as (_ & H2 & _).
      * simpl in H1, H2; intuition (subst; discriminate).
  - intros i H1 H2. rewrite !in_app_iff in H2. destruct H2 as [H2|[H2|H2]].
    + simpl in H1, H2; intuition (subst; discriminate).
    + now apply (D i) in H2 as (H2 & _).
    + simpl in H1, H2; intuition (subst; discriminate).
Qed.

(** X4.  [renderDock] never displays the second separator, also when items
    of running apps stand before the system items: the system container is
    still empty when the separators are decided.  The first separator is
    always displayed. *)
Theorem dock_separators (s : State) :
  separator2 (renderDock s) = false /\ separator1 (renderDock s) = true.
Proof.
  split; [|reflexivity].
  unfold renderDock; cbn [separator2]. apply andb_false_r.
Qed.

(** ** The Window menu and the menu actions *)

Lemma prefix_app (p s : string) : String.prefix p (p ++ s) = true.
Proof.
  induction p as [|c p IH]; simpl; [now destruct s|].
  destruct (ascii_dec c c); [exact IH|contradiction].
Qed.

Lemma dropChars_app (p s : string) : dropChars (String.length p) (p ++ s) = s.
Proof. induction p as [|c p IH]; simpl; [now destruct s|exact IH]. Qed.

(** Removing a prefix with [replace]: the first occurrence of [p] in
    [p ++ s] is the prefix itself. *)
Lemma replaceFirst_prefix (p s : string) : replaceFirst p "" (p ++ s) = s.
Proof.
  assert (U : forall t, replaceFirst p "" t
                        = if String.prefix p t
                          then ("" ++ dropChars (String.length p) t)%string
                          else match t with
                               | EmptyString => EmptyString
                               | String c t' => String c (replaceFirst p "" t')
                               end)
    by (intros [|c t]; reflexivity).
  rewrite U, prefix_app, dropChars_app. reflexivity.
Qed.

Lemma handleMenuAction_focus (i : string) (env : Env) (s : State) :
  handleMenuAction ("focus-window-" ++ i) env s = Some (focusWindow (Some i) s).
Proof.
  unfold handleMenuAction, startsWith.
  rewrite prefix_app, replaceFirst_prefix. reflexivity.
Qed.

(** X5.  Every entry that [updateWindowMenu] builds belongs to a window
    that is open and not minimized, and [handleMenuAction], called with
    the [data-action] of the entry, calls [focusWindow] for exactly that
    window, which is then the focused one.  This is a property of the two
    functions, not of a click: [setupMenuBar] binds its click listeners
    once, to the items that exist when it runs (lines 1426-1434), so a
    click on an entry built later reaches only the document listener that
    closes the menus (line 1462). *)
Theorem window_menu_entry_focuses_its_window (s : State) (env : Env) (item : MenuItem) :
  stacked s -> In item (updateWindowMenu s) ->
  exists w, getWindow (id w) (windows s) = Some w
            /\ isOpen w = true /\ isMinimized w = false
            /\ enabled (EvFocusWindow (id w)) s = true
            /\ handleMenuAction (itemAction item) env s
               = Some (focusWindow (Some (id w)) s)
            /\ activeWindowId (focusWindow (Some (id w)) s) = Some (id w).
Proof.
  intros [I _ _ N] H. unfold updateWindowMenu in H.
  apply in_map_iff in H as (w & <- & H). apply filter_In in H as [Hin Hs].
  unfold isShown in Hs. apply andb_prop in Hs as [Ho Hm].
  apply negb_true_iff in Hm.
  assert (G : getWindow (id w) (windows s) = Some w) by now apply In_getWindow.
  exists w; repeat split; auto.
  - cbn [enabled]. unfold notMinimized. now rewrite G, Hm.
  - apply handleMenuAction_focus.
  - apply focusWindow_active with (w := w); [|exact G].
    unfold namedIds in N. rewrite Forall_forall in N.
    apply N. now apply in_map.
Qed.

Lemma window_menu_entry_focuses_its_window_witness :
  exists w, getWindow (id w) (windows stateThreeSteps) = Some w
            /\ isOpen w = true /\ isMinimized w = false
            /\ enabled (EvFocusWindow (id w)) stateThreeSteps = true
            /\ handleMenuAction "focus-window-Notepad-2" (envAt 3) stateThreeSteps
               = Some (focusWindow (Some (id w)) stateThreeSteps)
            /\ activeWindowId (focusWindow (Some (id w)) stateThreeSteps) = Some (id w).
Proof.
  refine (window_menu_entry_focuses_its_window stateThreeSteps (envAt 3)
            (mkMenuItem "Notepad" "focus-window-Notepad-2" false) _ _).
  - split; unfold uniqueIds, zBelowNext, uniqueZ, namedIds; simpl;
      repeat constructor; simpl; try lia; intuition discriminate.
  - simpl. right; left. reflexivity.
Defined.

(** *** 'minimize-all' *)

Lemma updateWindow_at (i : string) (f g : AppWindow -> AppWindow) (ws : Windows)
    (w : AppWindow) :
  getWindow i ws = Some w -> f w = g w -> updateWindow i f ws = updateWindow i g ws.
Proof.
  induction ws as [|x rest IH]; simpl; [reflexivity|].
  destruct (id x =? i)%string.
  - intros H E; injection H as ->. now rewrite E.
  - intros H E; now rewrite IH.
Qed.

Lemma updateWindow_same (i : string) (g : AppWindow -> AppWindow) (ws : Windows)
    (w : AppWindow) :
  getWindow i ws = Some w -> g w = w -> updateWindow i g ws = ws.
Proof.
  induction ws as [|x rest IH]; simpl; [reflexivity|].
  destruct (id x =? i)%string.
  - intros H E; injection H as ->. now rewrite E.
  - intros H E; now rewrite IH.
Qed.

Lemma updateWindow_app_skip (i : string) (f : AppWindow -> AppWindow)
    (done rest : Windows) :
  (forall y, In y done -> id y <> i) ->
  updateWindow i f (done ++ rest)%list = (done ++ updateWindow i f rest)%list.
Proof.
  induction done as [|y done IH]; simpl; intros H; [reflexivity|].
  destruct (String.eqb_spec (id y) i) as [E|E].
  - exfalso; exact (H y (or_introl eq_refl) E).
  - rewrite IH; [reflexivity|]. intros z Hz; apply H; now right.
Qed.

Lemma id_afterMinimizeAll (w : AppWindow) : id (afterMinimizeAll w) = id w.
Proof. unfold afterMinimizeAll. now destruct (negb (isMinimized w) && isOpen w). Qed.

Lemma windows_minimizeIfShown (s : State) (i : string) :
  windows (minimizeIfShown s i) = updateWindow i afterMinimizeAll (windows s).
Proof.
  unfold minimizeIfShown.
  destruct (getWindow i (windows s)) as [win|] eqn:G;
    [|now rewrite updateWindow_absent].
  destruct (negb (isMinimized win) && isOpen win) eqn:C.
  - apply andb_prop in C as [M O]. unfold minimizeWindow. rewrite G, M.
    match goal with
    | |- windows (if ?c then _ else _) = _ => destruct c
    end; [rewrite windows_focusNone|]; simpl;
      apply (updateWindow_at i _ _ _ win G);
      unfold afterMinimizeAll; now rewrite M, O.
  - symmetry. apply (updateWindow_same i _ _ win G).
    unfold afterMinimizeAll. now rewrite C.
Qed.

Lemma activeWindowId_minimizeIfShown (s : State) (i : string) :
  activeWindowId (minimizeIfShown s i) = activeWindowId s
  \/ activeWindowId (minimizeIfShown s i) = None.
Proof.
  unfold minimizeIfShown.
  destruct (getWindow i (windows s)) as [win|] eqn:G; [|now left].
  destruct (negb (isMinimized win) && isOpen win) eqn:C; [|now left].
  apply andb_prop in C as [M O]. unfold minimizeWindow. rewrite G, M.
  match goal with
  | |- activeWindowId (if ?c then _ else _) = _ \/ _ => destruct c
  end; [now right|now left].
Qed.

Lemma minimizeIfShown_clears (s : State) (a : string) (w : AppWindow) :
  activeWindowId s = Some a -> getWindow a (windows s) = Some w -> isShown w = true ->
  activeWindowId (minimizeIfShown s a) = None.
Proof.
  intros A G S. unfold isShown in S. apply andb_prop in S as [O M].
  unfold minimizeIfShown. rewrite G, M, O; simpl.
  unfold minimizeWindow. rewrite G, M; simpl.
  unfold isActive; simpl. rewrite A, String.eqb_refl. reflexivity.
Qed.

Lemma minimizeIfShown_other (s : State) (a i : string) :
  activeWindowId s = Some a -> i <> a ->
  activeWindowId (minimizeIfShown s i) = Some a.
Proof.
  intros A Hne. unfold minimizeIfShown.
  destruct (getWindow i (windows s)) as [win|] eqn:G; [|exact A].
  destruct (negb (isMinimized win) && isOpen win) eqn:C; [|exact A].
  apply andb_prop in C as [M O]. unfold minimizeWindow. rewrite G, M.
  unfold isActive; simpl. rewrite A.
  destruct (String.eqb_spec a i); [congruence|exact A].
Qed.

Lemma fold_minimize_none (ids : list string) (s : State) :
  activeWindowId s = None ->
  activeWindowId (fold_left minimizeIfShown ids s) = None.
Proof.
  revert s; induction ids as [|i rest IH]; simpl; intros s A; [exact A|].
  apply IH. destruct (activeWindowId_minimizeIfShown s i) as [E|E]; congruence.
Qed.

Lemma fold_minimize_clears (ids : list string) (s : State) (a : string) (w : AppWindow) :
  activeWindowId s = Some a -> In a ids ->
  getWindow a (windows s) = Some w -> isShown w = true ->
  activeWindowId (fold_left minimizeIfShown ids s) = None.
Proof.
  revert s; induction ids as [|i rest IH]; simpl; intros s A Hin G S; [contradiction|].
  destruct (String.eqb_spec i a) as [->|Hne].
  - apply fold_minimize_none. now apply (minimizeIfShown_clears s a w).
  - destruct Hin as [E|Hin]; [contradiction|].
    apply IH; auto.
    + now apply minimizeIfShown_other.
    + rewrite windows_minimizeIfShown.
      rewrite getWindow_updateWindow_other; auto using id_afterMinimizeAll.
Qed.

Lemma windows_fold_minimize (ids : list string) (s : State) :
  windows (fold_left minimizeIfShown ids s)
  = fold_left (fun ws i => updateWindow i afterMinimizeAll ws) ids (windows s).
Proof.
  revert s; induction ids as [|i rest IH]; simpl; intros s; [reflexivity|].
  now rewrite IH, windows_minimizeIfShown.
Qed.

Lemma fold_updateWindow_all (g : AppWindow -> AppWindow) (l done : Windows) :
  (forall w, id (g w) = id w) ->
  NoDup (map id l) ->
  (forall y, In y done -> ~ In (id y) (map id l)) ->
  fold_left (fun ws i => updateWindow i g ws) (map id l) (done ++ l)%list
  = (done ++ map g l)%list.
Proof.
  intros Hg; revert done; induction l as [|x rest IH]; simpl; intros done N D;
    [reflexivity|].
  inversion N as [|? ? Hx Hrest]; subst.
  rewrite updateWindow_app_skip
    by (intros y Hy E; apply (D y Hy); now left).
  simpl. rewrite String.eqb_refl.
  change (done ++ g x :: rest)%list with (done ++ [g x] ++ rest)%list.
  rewrite app_assoc, IH; [now rewrite <- app_assoc|exact Hrest|].
  intros y Hy Hin. apply in_app_iff in Hy as [Hy|[<-|[]]].
  - apply (D y Hy); now right.
  - rewrite Hg in Hin; contradiction.
Qed.

Lemma windows_minimizeAll (s : State) :
  uniqueIds s -> windows (minimizeAll s) = map afterMinimizeAll (windows s).
Proof.
  intros U. unfold minimizeAll. rewrite windows_fold_minimize.
  apply (fold_updateWindow_all afterMinimizeAll (windows s) []);
    [exact id_afterMinimizeAll|exact U|intros y []].
Qed.

(** X6.  After the menu action 'minimize-all' every open window is
    minimized and the Window menu is empty; no record is added or removed;
    and if the focused window was open and visible, no window is focused
    any more. *)
Theorem minimize_all_minimizes_every_open_window (s : State) :
  uniqueIds s ->
  (forall w, In w (windows (minimizeAll s)) -> isOpen w = true -> isMinimized w = true)
  /\ updateWindowMenu (minimizeAll s) = []
  /\ map id (windows (minimizeAll s)) = map id (windows s)
  /\ (forall w, activeWindow s = Some w -> isShown w = true ->
        activeWindowId (minimizeAll s) = None).
Proof.
  intros U.
  assert (A : forall w, isOpen (afterMinimizeAll w) = true ->
                isMinimized (afterMinimizeAll w) = true).
  { intros w. unfold afterMinimizeAll.
    destruct (isMinimized w) eqn:M, (isOpen w) eqn:O; simpl; congruence. }
  repeat split.
  - intros w Hin. rewrite windows_minimizeAll in Hin by assumption.
    apply in_map_iff in Hin as (v & <- & _). apply A.
  - unfold updateWindowMenu. rewrite windows_minimizeAll by assumption.
    replace (filter isShown (map afterMinimizeAll (windows s))) with (@nil AppWindow);
      [reflexivity|].
    induction (windows s) as [|x rest IH]; simpl; [reflexivity|].
    unfold isShown at 1. specialize (A x).
    destruct (isOpen (afterMinimizeAll x)); simpl; [rewrite A by reflexivity|]; exact IH.
  - rewrite windows_minimizeAll by assumption. rewrite map_map.
    apply map_ext, id_afterMinimizeAll.
  - intros w Aw S. unfold activeWindow in Aw.
    destruct (activeWindowId s) as [a|] eqn:E; [|discriminate].
    destruct (a =? "")%string; [discriminate|].
    apply (fold_minimize_clears _ s a w); auto.
    apply getWindow_In in Aw as Hin. apply getWindow_id in Aw. subst a.
    now apply in_map.
Qed.

Lemma minimize_all_minimizes_every_open_window_witness :
  (forall w, In w (windows (minimizeAll stateThreeSteps)) -> isOpen w = true ->
     isMinimized w = true)
  /\ updateWindowMenu (minimizeAll stateThreeSteps) = []
  /\ map id (windows (minimizeAll stateThreeSteps)) = map id (windows stateThreeSteps)
  /\ (forall w, activeWindow stateThreeSteps = Some w -> isShown w = true ->
        activeWindowId (minimizeAll stateThreeSteps) = None).
Proof.
  apply (minimize_all_minimizes_every_open_window stateThreeSteps).
  unfold uniqueIds; simpl. repeat (constructor; [simpl; intuition discriminate|]).
  constructor.
Defined.

(** ** Keyboard shortcuts *)

Lemma activeWindow_Some (s : State) (w : AppWindow) :
  activeWindow s = Some w ->
  activeWindowId s = Some (id w) /\ id w <> "" /\ getWindow (id w) (windows s) = Some w.
Proof.
  unfold activeWindow. destruct (activeWindowId s) as [a|]; [|discriminate].
  destruct (String.eqb_spec a "") as [E|E]; [discriminate|].
  intros G. pose proof (getWindow_id _ _ _ G) as <-. auto.
Qed.

Lemma getWindow_minimizeWindow (i : string) (s : State) (w : AppWindow) :
  getWindow i (windows s) = Some w -> isMinimized w = false ->
  getWindow i (windows (minimizeWindow i s)) = Some (minimizedRecord w).
Proof.
  intros G M. unfold minimizeWindow. rewrite G, M; simpl negb; cbv iota.
  match goal with
  | |- getWindow i (windows (if ?c then _ else _)) = _ => destruct c
  end; [rewrite windows_focusNone|];
    exact (getWindow_mutate_same i minimizedRecord s w (fun _ => eq_refl) G).
Qed.

(** X7.  Ctrl or Cmd with M, in either case of the letter, minimizes the
    focused window, keeps its geometry as [originalPosition] and leaves no
    window focused; after that no window shortcut has any effect until a
    window is focused again. *)
Theorem shortcut_M_minimizes_focused_window (key : string) (s : State) (w : AppWindow) :
  activeWindow s = Some w -> isMinimized w = false -> toLowerCase key = "m" ->
  let s' := keyShortcut key s in
  s' = minimizeWindow (id w) s
  /\ activeWindowId s' = None
  /\ getWindow (id w) (windows s') = Some (minimizedRecord w)
  /\ forall key', keyShortcut key' s' = s'.
Proof.
  intros A M K s'.
  destruct (activeWindow_Some s w A) as (Ai & Hne & G).
  assert (E : s' = minimizeWindow (id w) s).
  { unfold s', keyShortcut. now rewrite A, M, K. }
  assert (N : activeWindowId s' = None).
  { rewrite E. unfold minimizeWindow. rewrite G, M; simpl negb; cbv iota.
    unfold isActive; simpl. now rewrite Ai, String.eqb_refl. }
  repeat split; auto.
  - rewrite E. now apply getWindow_minimizeWindow.
  - intros key'. unfold keyShortcut, activeWindow. now rewrite N.
Qed.

Lemma shortcut_M_minimizes_focused_window_witness :
  let s' := keyShortcut "M" stateNotepad in
  s' = minimizeWindow "Notepad-1" stateNotepad
  /\ activeWindowId s' = None
  /\ getWindow "Notepad-1" (windows s')
     = Some (minimizedRecord
               (mkAppWindow "Notepad-1" "Notepad" "Notepad"
                  (mkElement (mkGeometry (CssPx 50) (CssPx 50) CssNone CssNone)
                     false false true)
                  false true 101 None false None))
  /\ forall key', keyShortcut key' s' = s'.
Proof.
  exact (shortcut_M_minimizes_focused_window "M" stateNotepad
           (mkAppWindow "Notepad-1" "Notepad" "Notepad"
              (mkElement (mkGeometry (CssPx 50) (CssPx 50) CssNone CssNone)
                 false false true)
              false true 101 None false None)
           eq_refl eq_refl eq_refl).
Defined.

(** ** Focus, minimize, restore and close *)

(** X8.  Focusing a window that is not minimized twice is the same as
    focusing it once: the second call returns at once and takes no further
    zIndex. *)
Theorem focusWindow_twice (i : string) (s : State) :
  notMinimized i s = true ->
  focusWindow (Some i) (focusWindow (Some i) s) = focusWindow (Some i) s.
Proof.
  intros Hm.
  destruct (focusWindow_cases i s)
    as [[E [H|H]]|[[E _]|[E (Hne & w & G)]]]; rewrite E.
  - subst i; reflexivity.
  - unfold focusWindow. destruct (i =? "")%string; [reflexivity|].
    simpl. now rewrite H.
  - exact E.
  - unfold notMinimized in Hm. rewrite G in Hm. apply negb_true_iff in Hm.
    unfold focusWindow at 1. destruct (String.eqb_spec i "") as [|_]; [contradiction|].
    cbn [windows]. rewrite getWindow_focusedWindows, G. cbn [option_map].
    unfold isActive; cbn [activeWindowId nextZIndex]. rewrite String.eqb_refl.
    destruct w; cbn in *. rewrite Hm.
    replace (nextZIndex s + 1 - 1) with (nextZIndex s) by lia.
    now rewrite Z.eqb_refl.
Qed.

Lemma focusWindow_twice_witness :
  focusWindow (Some "Notepad-2") (focusWindow (Some "Notepad-2") stateThreeSteps)
  = focusWindow (Some "Notepad-2") stateThreeSteps.
Proof. exact (focusWindow_twice "Notepad-2" stateThreeSteps eq_refl). Defined.

(** X9.  Minimizing a window and restoring it gives the window back with
    the geometry it had, focused and on top of the stack.  It comes back
    un-maximized, also when it was maximized before. *)
Theorem minimize_then_restore (i : string) (env : Env) (s : State) (w : AppWindow) :
  i <> "" -> getWindow i (windows s) = Some w -> isMinimized w = false ->
  let s' := restoreWindow env i (minimizeWindow i s) in
  exists w', getWindow i (windows s') = Some w'
             /\ geometry w' = geometry w
             /\ isMinimized w' = false /\ isMaximized w' = false
             /\ isOpen w' = isOpen w
             /\ activeWindowId s' = Some i
             /\ zIndex w' = nextZIndex s' - 1.
Proof.
  intros Hne G M s'.
  pose proof (getWindow_minimizeWindow i s w G M) as G1.
  set (s1 := minimizeWindow i s) in *.
  set (f := fun v : AppWindow =>
              set_isMinimized false (reapplyOriginalPosition (set_classMinimized false v))).
  assert (E : s' = focusWindow (Some i) (mutate i f s1)).
  { unfold s', restoreWindow, restoreWindow_. now rewrite G1. }
  assert (Hf : forall v, id (f v) = id v).
  { intros v; unfold f, reapplyOriginalPosition; cbn.
    now destruct (originalPosition v). }
  pose proof (getWindow_mutate_same i f s1 _ Hf G1) as G2.
  set (s2 := mutate i f s1) in *.
  set (w2 := f (minimizedRecord w)) in *.
  assert (W : geometry w2 = geometry w /\ isMinimized w2 = false
              /\ isMaximized w2 = false /\ isOpen w2 = isOpen w).
  { unfold w2, f, minimizedRecord, reapplyOriginalPosition.
    destruct w as [? ? ? [[? ? ? ?] ? ? ?] ? ? ? ? ? ?]; cbn. auto. }
  destruct W as (W1 & W2 & W3 & W4).
  rewrite E.
  destruct (focusWindow_cases i s2)
    as [[_ [H|H]]|[[-> (_ & v & Gv & A & Z1 & _)]|[-> _]]]; try congruence.
  - exists w2. rewrite G2 in Gv; injection Gv as <-. repeat split; auto.
  - exists (set_classFocused true (set_classFocused false (set_zIndex (nextZIndex s2) w2))).
    cbn [windows activeWindowId nextZIndex].
    rewrite getWindow_focusedWindows, G2. cbn [option_map].
    destruct w2 as [? ? ? [[? ? ? ?] ? ? ?] ? ? ? ? ? ?]; cbn in *.
    repeat split; auto; lia.
Qed.

Lemma minimize_then_restore_witness :
  exists w', getWindow "Notepad-1"
               (windows (restoreWindow (envAt 2) "Notepad-1"
                           (minimizeWindow "Notepad-1" stateNotepad))) = Some w'
             /\ geometry w' = mkGeometry (CssPx 50) (CssPx 50) CssNone CssNone
             /\ isMinimized w' = false /\ isMaximized w' = false
             /\ isOpen w' = true
             /\ activeWindowId (restoreWindow (envAt 2) "Notepad-1"
                                  (minimizeWindow "Notepad-1" stateNotepad))
                = Some "Notepad-1"
             /\ zIndex w'
                = nextZIndex (restoreWindow (envAt 2) "Notepad-1"
                                (minimizeWindow "Notepad-1" stateNotepad)) - 1.
Proof.
  refine (minimize_then_restore "Notepad-1" (envAt 2) stateNotepad
            (mkAppWindow "Notepad-1" "Notepad" "Notepad"
               (mkElement (mkGeometry (CssPx 50) (CssPx 50) CssNone CssNone)
                  false false true)
               false true 101 None false None) _ eq_refl eq_refl).
  discriminate.
Defined.

Lemma deleteWindow_updateWindow (i : string) (f : AppWindow -> AppWindow) (ws : Windows) :
  (forall w, id (f w) = id w) ->
  deleteWindow i (updateWindow i f ws) = deleteWindow i ws.
Proof.
  intros Hf; induction ws as [|x rest IH]; simpl; [reflexivity|].
  destruct (String.eqb_spec (id x) i) as [E|E]; simpl.
  - now rewrite Hf, <- E, String.eqb_refl.
  - destruct (String.eqb_spec (id x) i); [contradiction|now rewrite IH].
Qed.

Lemma getWindow_deleteWindow_same (i : string) (ws : Windows) :
  NoDup (map id ws) -> getWindow i (deleteWindow i ws) = None.
Proof.
  induction ws as [|x rest IH]; simpl; [reflexivity|].
  intros N; inversion N as [|? ? Hx Hrest]; subst.
  destruct (String.eqb_spec (id x) i) as [E|E]; simpl.
  - destruct (getWindow i rest) as [v|] eqn:G; [|reflexivity].
    exfalso; apply Hx. rewrite E, <- (getWindow_id _ _ _ G).
    apply in_map; exact (getWindow_In _ _ _ G).
  - destruct (String.eqb_spec (id x) i); [contradiction|auto].
Qed.

Lemma getWindow_deleteWindow_other (i j : string) (ws : Windows) :
  j <> i -> getWindow j (deleteWindow i ws) = getWindow j ws.
Proof.
  intros Hne; induction ws as [|x rest IH]; simpl; [reflexivity|].
  destruct (String.eqb_spec (id x) i) as [E|E]; simpl.
  - destruct (String.eqb_spec (id x) j); [congruence|reflexivity].
  - now rewrite IH.
Qed.

Lemma removeTimer_last (i : string) (t : list string) :
  ~ In i t -> removeTimer i (t ++ [i])%list = t.
Proof.
  induction t as [|j rest IH]; simpl; intros H.
  - now rewrite String.eqb_refl.
  - destruct (String.eqb_spec j i) as [E|E]; [exfalso; auto|].
    rewrite IH; auto.
Qed.

(** X10.  Closing a window and letting its timer fire removes exactly that
    record: every other record stays as it was, the counter of zIndex is
    not touched, and the focus is dropped if the window had it and kept
    otherwise.  No other window is focused in its place. *)
Theorem close_then_timeout (i : string) (s : State) (w : AppWindow) :
  uniqueIds s -> getWindow i (windows s) = Some w ->
  let s' := closeTimeout i (closeWindow i s) in
  windows s' = deleteWindow i (windows s)
  /\ getWindow i (windows s') = None
  /\ (forall j, j <> i -> getWindow j (windows s') = getWindow j (windows s))
  /\ activeWindowId s' = (if isActive i s then None else activeWindowId s)
  /\ nextZIndex s' = nextZIndex s
  /\ (~ In i (closeTimers s) -> closeTimers s' = closeTimers s).
Proof.
  intros U G s'.
  assert (W : windows s' = deleteWindow i (windows s)).
  { unfold s', closeTimeout, closeWindow. rewrite G.
    match goal with
    | |- windows (if ?c then _ else _) = _ => destruct c
    end; [rewrite windows_focusNone|]; simpl;
      apply deleteWindow_updateWindow; reflexivity. }
  repeat split.
  - exact W.
  - rewrite W. now apply getWindow_deleteWindow_same.
  - intros j Hne. rewrite W. now apply getWindow_deleteWindow_other.
  - unfold s', closeTimeout, closeWindow. rewrite G. clear.
    destruct s as [ws [a|] z dv si t ps]; unfold isActive; cbn; [|reflexivity].
    now destruct (a =? i)%string.
  - unfold s', closeTimeout, closeWindow. rewrite G.
    match goal with
    | |- nextZIndex (if ?c then _ else _) = _ => destruct c
    end; reflexivity.
  - intros T. unfold s', closeTimeout, closeWindow. rewrite G.
    match goal with
    | |- closeTimers (if ?c then _ else _) = _ => destruct c
    end; simpl; now apply removeTimer_last.
Qed.

Lemma close_then_timeout_witness :
  let s' := closeTimeout "About-1" (closeWindow "About-1" stateThreeSteps) in
  windows s' = deleteWindow "About-1" (windows stateThreeSteps)
  /\ getWindow "About-1" (windows s') = None
  /\ (forall j, j <> "About-1" ->
        getWindow j (windows s') = getWindow j (windows stateThreeSteps))
  /\ activeWindowId s'
     = (if isActive "About-1" stateThreeSteps then None else activeWindowId stateThreeSteps)
  /\ nextZIndex s' = nextZIndex stateThreeSteps
  /\ (~ In "About-1" (closeTimers stateThreeSteps) ->
      closeTimers s' = closeTimers stateThreeSteps).
Proof.
  refine (close_then_timeout "About-1" stateThreeSteps _ _ eq_refl).
  unfold uniqueIds; simpl. repeat (constructor; [simpl; intuition discriminate|]).
  constructor.
Defined.

(** ** The accent colour and the two click counters *)

Lemma dateTimeClick_bounds (now : Z) (st : AccentState) :
  0 <= currentAccentIndex st < 5 /\ 0 <= dateTimeClickCount st <= 2 ->
  0 <= currentAccentIndex (dateTimeClick now st) < 5
  /\ 0 <= dateTimeClickCount (dateTimeClick now st) <= 2.
Proof.
  intros [Hi Hc]. unfold dateTimeClick.
  change (Z.of_nat (List.length accentColors)) with 5.
  pose proof (Z.rem_bound_pos (currentAccentIndex st + 1) 5).
  destruct (now - lastDateTimeClick st <? 300);
    match goal with |- context [?c >=? 3] => destruct (Z.geb_spec c 3) end;
    cbn; lia.
Qed.

(** X11.  Whatever the times of the clicks on the date and time, the accent
    index stays an index of [accentColors], so the CSS variable
    [--current-accent] always receives one of the five colours, and the
    click counter stays below three. *)
Theorem accent_index_stays_in_range (ts : list Z) :
  let st := dateTimeClicksAt ts initialAccentState in
  0 <= currentAccentIndex st < 5
  /\ 0 <= dateTimeClickCount st <= 2
  /\ exists colour, currentAccent st = Some colour /\ In colour accentColors.
Proof.
  intros st.
  assert (B : 0 <= currentAccentIndex st < 5 /\ 0 <= dateTimeClickCount st <= 2).
  { unfold st, dateTimeClicksAt.
    assert (G : forall s0, 0 <= currentAccentIndex s0 < 5 /\ 0 <= dateTimeClickCount s0 <= 2 ->
                  0 <= currentAccentIndex (fold_left (fun st now => dateTimeClick now st) ts s0) < 5
                  /\ 0 <= dateTimeClickCount
                            (fold_left (fun st now => dateTimeClick now st) ts s0) <= 2).
    { induction ts as [|t rest IH]; simpl; intros s0 H0; [exact H0|].
      apply IH, dateTimeClick_bounds, H0. }
    apply G; cbn; lia. }
  destruct B as [Bi Bc]. repeat split; try lia.
  unfold currentAccent.
  destruct (Z.ltb_spec (currentAccentIndex st) 0) as [L|_]; [lia|].
  assert (C : currentAccentIndex st = 0 \/ currentAccentIndex st = 1
              \/ currentAccentIndex st = 2 \/ currentAccentIndex st = 3
              \/ currentAccentIndex st = 4) by lia.
  destruct C as [E|[E|[E|[E|E]]]]; rewrite E; cbn;
    eexists; (split; [reflexivity|]); simpl; tauto.
Qed.

(** X12.  After a pause of at least 300 ms, three clicks on the date and
    time that follow each other within 300 ms move the accent to the next
    colour, wrapping after the fifth, and reset the counter; the first two
    of them leave the accent as it is. *)
Theorem triple_click_cycles_accent (t1 t2 t3 : Z) (st : AccentState) :
  0 <= currentAccentIndex st < 5 ->
  300 <= t1 - lastDateTimeClick st -> t2 - t1 < 300 -> t3 - t2 < 300 ->
  currentAccentIndex (dateTimeClicksAt [t1; t2] st) = currentAccentIndex st
  /\ dateTimeClicksAt [t1; t2; t3] st
     = mkAccentState (if currentAccentIndex st =? 4 then 0 else currentAccentIndex st + 1)
         0 t3.
Proof.
  intros Hi H1 H2 H3.
  set (i := currentAccentIndex st) in *.
  assert (S1 : dateTimeClick t1 st = mkAccentState i 1 t1).
  { unfold dateTimeClick.
    destruct (Z.ltb_spec (t1 - lastDateTimeClick st) 300) as [L|_]; [lia|reflexivity]. }
  assert (S2 : dateTimeClick t2 (mkAccentState i 1 t1) = mkAccentState i 2 t2).
  { unfold dateTimeClick; cbn.
    destruct (Z.ltb_spec (t2 - t1) 300) as [_|L]; [reflexivity|lia]. }
  assert (S3 : dateTimeClick t3 (mkAccentState i 2 t2)
               = mkAccentState (Z.rem (i + 1) 5) 0 t3).
  { unfold dateTimeClick; cbn.
    destruct (Z.ltb_spec (t3 - t2) 300) as [_|L]; [reflexivity|lia]. }
  unfold dateTimeClicksAt; simpl. rewrite S1, S2. split; [reflexivity|].
  rewrite S3. f_equal.
  destruct (Z.eqb_spec i 4) as [->|N]; [reflexivity|].
  apply Z.rem_small; lia.
Qed.

Lemma triple_click_cycles_accent_witness :
  currentAccentIndex (dateTimeClicksAt [1000; 1100] (mkAccentState 4 0 0)) = 4
  /\ dateTimeClicksAt [1000; 1100; 1200] (mkAccentState 4 0 0) = mkAccentState 0 0 1200.
Proof.
  apply (triple_click_cycles_accent 1000 1100 1200 (mkAccentState 4 0 0)); cbn; lia.
Defined.

(** X13.  In a run of clicks on the apple menu button that follow each
    other within 300 ms, the easter egg is shown once for every fifth
    click, counted from the clicks already on the counter. *)
Theorem apple_logo_alert_every_fifth_click (ts : list Z) (st : AppleLogoState) :
  0 <= appleLogoClicks st < 5 -> rapidClicks (appleLogoLastClickTime st) ts ->
  snd (appleLogoClicksAt ts st)
  = Z.to_nat ((appleLogoClicks st + Z.of_nat (List.length ts)) / 5).
Proof.
  revert st; induction ts as [|t rest IH]; intros st Hc R.
  - simpl. rewrite Z.add_0_r, Z.div_small by lia. reflexivity.
  - destruct R as [R1 R2]. cbn [appleLogoClicksAt]. unfold appleLogoClick.
    change (List.length (t :: rest)) with (S (List.length rest)).
    rewrite Nat2Z.inj_succ.
    destruct (Z.ltb_spec (t - appleLogoLastClickTime st) 300) as [_|L]; [|lia].
    destruct (Z.geb_spec (appleLogoClicks st + 1) 5) as [G|G].
    + assert (E : appleLogoClicks st = 4) by lia.
      pose proof (IH (mkAppleLogoState 0 t)) as IH0.
      change (appleLogoClicks (mkAppleLogoState 0 t)) with 0 in IH0.
      change (appleLogoLastClickTime (mkAppleLogoState 0 t)) with t in IH0.
      specialize (IH0 ltac:(lia) R2).
      destruct (appleLogoClicksAt rest (mkAppleLogoState 0 t)) as [st2 n].
      cbn [snd] in *. rewrite IH0, E.
      replace (4 + Z.succ (Z.of_nat (List.length rest)))
        with (Z.of_nat (List.length rest) + 1 * 5) by lia.
      rewrite Z.div_add by lia.
      rewrite Z2Nat.inj_add by (try apply Z.div_pos; lia).
      rewrite Nat.add_comm. reflexivity.
    + pose proof (IH (mkAppleLogoState (appleLogoClicks st + 1) t)) as IH0.
      change (appleLogoClicks (mkAppleLogoState (appleLogoClicks st + 1) t))
        with (appleLogoClicks st + 1) in IH0.
      change (appleLogoLastClickTime (mkAppleLogoState (appleLogoClicks st + 1) t))
        with t in IH0.
      specialize (IH0 ltac:(lia) R2).
      destruct (appleLogoClicksAt rest (mkAppleLogoState (appleLogoClicks st + 1) t))
        as [st2 n].
      cbn [snd] in *. rewrite IH0. f_equal. f_equal. lia.
Qed.

Lemma apple_logo_alert_every_fifth_click_witness :
  snd (appleLogoClicksAt [1000; 1100; 1200; 1300; 1400; 1500]
         (mkAppleLogoState 0 900)) = 1%nat.
Proof.
  apply (apple_logo_alert_every_fifth_click [1000; 1100; 1200; 1300; 1400; 1500]
           (mkAppleLogoState 0 900)); cbn; lia.
Defined.

Lemma lowerChar_not_A (c : ascii) : Ascii.eqb "A" (lowerChar c) = false.
Proof. destruct c as [[] [] [] [] [] [] [] []]; reflexivity. Qed.

Lemma toLowerCase_not_ArrowUp (key : string) : ("ArrowUp" =? toLowerCase key)%string = false.
Proof.
  destruct key as [|c k]; [reflexivity|].
  cbn [toLowerCase String.eqb]. now rewrite lowerChar_not_A.
Qed.

(** X14.  The Konami sequence can never be completed: the listener
    compares the entries of [konamiSequence], which begin with 'ArrowUp',
    with the lower-cased key, so [konamiProgress] never leaves 0 and
    [triggerKonamiEffect] never runs, whatever keys are pressed. *)
Theorem konami_effect_never_runs (keys : list (bool * string)) :
  konamiKeys keys 0 = (O, false).
Proof.
  induction keys as [|[onDesktop key] rest IH]; [reflexivity|].
  cbn [konamiKeys].
  assert (E : konamiKeyDown onDesktop key 0 = (O, false)).
  { unfold konamiKeyDown. destruct onDesktop; [|reflexivity].
    cbn [nth_error konamiSequence]. now rewrite toLowerCase_not_ArrowUp. }
  rewrite E, IH. reflexivity.
Qed.

(** ** Spotlight results *)

Lemma map_false_repeat (items : list bool) :
  map (fun _ => false) items = repeat false (List.length items).
Proof. induction items as [|x rest IH]; simpl; [reflexivity|now rewrite IH]. Qed.

Lemma firstn_repeat_le {A : Type} (a : A) (k n : nat) :
  (k <= n)%nat -> firstn k (repeat a n) = repeat a k.
Proof.
  revert n; induction k as [|k IH]; intros [|n] H; simpl; try reflexivity; try lia.
  rewrite IH by lia. reflexivity.
Qed.

Lemma skipn_repeat_sub {A : Type} (a : A) (k n : nat) :
  skipn k (repeat a n) = repeat a (n - k).
Proof.
  revert n; induction k as [|k IH]; intros [|n]; simpl; try reflexivity.
  apply IH.
Qed.

Lemma selectAt_cleared (i : Z) (n : nat) :
  0 <= i < Z.of_nat n ->
  selectAt i (repeat false n) = Some (onlySelected (Z.to_nat i) n).
Proof.
  intros H. unfold selectAt, onlySelected. rewrite repeat_length.
  destruct (Z.leb_spec 0 i); [|lia]. destruct (Z.ltb_spec i (Z.of_nat n)); [|lia].
  cbn [andb]. rewrite firstn_repeat_le by lia.
  change (skipn (S (Z.to_nat i)) (repeat false n))
    with (skipn (S (Z.to_nat i)) (repeat false n)).
  now rewrite skipn_repeat_sub.
Qed.

Lemma findIndexSelected_bounds (items : list bool) :
  -1 <= findIndexSelected items < Z.of_nat (List.length items)
  \/ (findIndexSelected items = -1 /\ items = []).
Proof.
  induction items as [|x rest IH]; [right; auto|left].
  cbn [findIndexSelected List.length]. rewrite Nat2Z.inj_succ.
  destruct x; [lia|].
  destruct (Z.ltb_spec (findIndexSelected rest) 0); [lia|].
  destruct IH as [IH|[IH _]]; lia.
Qed.

Lemma findIndexSelected_onlySelected (k n : nat) :
  findIndexSelected (onlySelected k n) = Z.of_nat k.
Proof.
  unfold onlySelected. generalize (repeat false (n - S k)) as r; intros r.
  induction k as [|k IH]; [reflexivity|].
  cbn [repeat app findIndexSelected]. rewrite IH.
  destruct (Z.ltb_spec (Z.of_nat k) 0); lia.
Qed.

Lemma length_onlySelected (k n : nat) :
  (k < n)%nat -> List.length (onlySelected k n) = n.
Proof.
  intros H. unfold onlySelected.
  rewrite length_app. cbn [List.length]. rewrite !repeat_length. lia.
Qed.

(** X15.  On a list of results that is not empty, [navigateSpotlightResults]
    never indexes outside the list, also when no result was selected, and
    leaves exactly one result selected. *)
Theorem spotlight_navigation_selects_one (key : ArrowKey) (items : list bool) :
  items <> [] ->
  exists k, (k < List.length items)%nat
            /\ navigateSpotlightResults key items
               = Some (onlySelected k (List.length items)).
Proof.
  intros Hne. unfold navigateSpotlightResults.
  destruct items as [|x rest] eqn:E; [contradiction|]. rewrite <- E in *.
  assert (L : 0 < Z.of_nat (List.length items)) by (rewrite E; cbn; lia).
  rewrite map_false_repeat.
  destruct (findIndexSelected_bounds items) as [B|[_ B]]; [|congruence].
  set (n := List.length items) in *. set (c := findIndexSelected items) in *.
  assert (R : forall a, Z.of_nat n - 2 <= a -> -1 <= a ->
                0 <= Z.rem a (Z.of_nat n) < Z.of_nat n).
  { intros a Hn Ha. destruct (Z.eq_dec (Z.of_nat n) 1) as [->|H1].
    - rewrite Z.rem_1_r. lia.
    - apply Z.rem_bound_pos; lia. }
  destruct key.
  - exists (Z.to_nat (Z.rem (c + 1) (Z.of_nat n))).
    assert (R' : 0 <= Z.rem (c + 1) (Z.of_nat n) < Z.of_nat n)
      by (apply Z.rem_bound_pos; lia).
    clear R; rename R' into R.
    split; [lia|]. now apply selectAt_cleared.
  - exists (Z.to_nat (Z.rem (c - 1 + Z.of_nat n) (Z.of_nat n))).
    specialize (R (c - 1 + Z.of_nat n) ltac:(lia) ltac:(lia)).
    split; [lia|]. now apply selectAt_cleared.
Qed.

Lemma spotlight_navigation_selects_one_witness :
  exists k, (k < 3)%nat
            /\ navigateSpotlightResults ArrowUp [false; false; false]
               = Some (onlySelected k 3).
Proof.
  apply (spotlight_navigation_selects_one ArrowUp [false; false; false]).
  discriminate.
Defined.

(** X16.  With one result selected, ArrowDown moves the mark to the next
    result and from the last to the first, ArrowUp to the one before and
    from the first to the last; ArrowDown followed by ArrowUp leaves the
    selection where it was. *)
Theorem spotlight_navigation_wraps (k n : nat) :
  (k < n)%nat ->
  navigateSpotlightResults ArrowDown (onlySelected k n)
  = Some (onlySelected (if Nat.eqb (S k) n then 0 else S k) n)
  /\ navigateSpotlightResults ArrowUp (onlySelected k n)
     = Some (onlySelected (if Nat.eqb k 0 then n - 1 else k - 1) n)
  /\ match navigateSpotlightResults ArrowDown (onlySelected k n) with
     | Some items => navigateSpotlightResults ArrowUp items
     | None => None
     end = Some (onlySelected k n).
Proof.
  assert (U : forall key j m, (j < m)%nat ->
            navigateSpotlightResults key (onlySelected j m)
            = selectAt (match key with
                        | ArrowDown => Z.rem (Z.of_nat j + 1) (Z.of_nat m)
                        | ArrowUp => Z.rem (Z.of_nat j - 1 + Z.of_nat m) (Z.of_nat m)
                        end) (repeat false m)).
  { intros key j m H. unfold navigateSpotlightResults.
    rewrite map_false_repeat, findIndexSelected_onlySelected, length_onlySelected by lia.
    destruct (onlySelected j m) eqn:E; [|reflexivity].
    apply (f_equal (@List.length bool)) in E. rewrite length_onlySelected in E by lia.
    cbn in E; lia. }
  assert (D : forall j m, (j < m)%nat ->
            navigateSpotlightResults ArrowDown (onlySelected j m)
            = Some (onlySelected (if Nat.eqb (S j) m then 0 else S j) m)).
  { intros j m H. rewrite U by lia.
    destruct (Nat.eqb_spec (S j) m) as [E|E].
    - replace (Z.of_nat j + 1) with (Z.of_nat m) by lia.
      rewrite Z.rem_same by lia. now rewrite selectAt_cleared by lia.
    - rewrite Z.rem_small by lia. rewrite selectAt_cleared by lia.
      do 2 f_equal. lia. }
  assert (P : forall j m, (j < m)%nat ->
            navigateSpotlightResults ArrowUp (onlySelected j m)
            = Some (onlySelected (if Nat.eqb j 0 then m - 1 else j - 1) m)).
  { intros j m H. rewrite U by lia.
    destruct (Nat.eqb_spec j 0) as [E|E].
    - subst j. rewrite Z.rem_small by lia. rewrite selectAt_cleared by lia.
      do 2 f_equal. lia.
    - replace (Z.of_nat j - 1 + Z.of_nat m) with (Z.of_nat j - 1 + 1 * Z.of_nat m) by lia.
      rewrite Z.rem_mod_nonneg, Z.mod_add, Z.mod_small by lia.
      rewrite selectAt_cleared by lia. do 2 f_equal. lia. }
  intros H. repeat split; [now apply D|now apply P|].
  rewrite D by lia.
  destruct (Nat.eqb_spec (S k) n) as [E|E]; rewrite P by lia; cbn [Nat.eqb].
  - do 2 f_equal. lia.
  - do 2 f_equal. lia.
Qed.

Lemma spotlight_navigation_wraps_witness :
  navigateSpotlightResults ArrowDown (onlySelected 2 3) = Some (onlySelected 0 3)
  /\ navigateSpotlightResults ArrowUp (onlySelected 2 3) = Some (onlySelected 1 3)
  /\ match navigateSpotlightResults ArrowDown (onlySelected 2 3) with
     | Some items => navigateSpotlightResults ArrowUp items
     | None => None
     end = Some (onlySelected 2 3).
Proof. apply (spotlight_navigation_wraps 2 3). lia. Defined.

(** ** W-Browse history *)

Lemma itemAt_last {A : Type} (l : list A) (x : A) :
  itemAt (l ++ [x])%list (Z.of_nat (List.length (l ++ [x])%list) - 1) = Some x.
Proof.
  unfold itemAt. rewrite length_app; cbn [List.length].
  destruct (Z.ltb_spec (Z.of_nat (List.length l + 1) - 1) 0); [lia|].
  replace (Z.to_nat (Z.of_nat (List.length l + 1) - 1)) with (List.length l) by lia.
  rewrite nth_error_app2 by lia. now rewrite Nat.sub_diag.
Qed.

Lemma itemAt_in_range {A : Type} (l : list A) (i : Z) :
  0 <= i < Z.of_nat (List.length l) -> exists x, itemAt l i = Some x.
Proof.
  intros H. unfold itemAt. destruct (Z.ltb_spec i 0); [lia|].
  destruct (nth_error l (Z.to_nat i)) as [x|] eqn:E; [eauto|].
  apply nth_error_None in E. lia.
Qed.

(** A navigation that is not a move in the history ends in a consistent
    state, whatever the state before. *)
Lemma consistent_navigate_new (url : string) (isHome : bool) (st : WBrowse.t) :
  WBrowse.consistent (WBrowse.navigateToUrlInWBrowse url false isHome st).
Proof.
  unfold WBrowse.navigateToUrlInWBrowse, WBrowse.consistent. cbn [negb].
  set (loading := if isHome then "internal:home" else url).
  set (h0 := if WBrowse.currentIndex st <? _ then _ else _).
  cbn. rewrite itemAt_last. rewrite length_app; cbn [List.length].
  repeat split; by_comparisons.
Qed.

Lemma consistent_navigateToEntry (st : WBrowse.t) (i : Z) :
  0 <= i < Z.of_nat (List.length (WBrowse.history st)) ->
  exists st', WBrowse.navigateToEntry (WBrowse.set_currentIndex i st) = Some st'
              /\ WBrowse.consistent st'
              /\ WBrowse.history st' = WBrowse.history st
              /\ WBrowse.currentIndex st' = i.
Proof.
  intros H. unfold WBrowse.navigateToEntry. cbn.
  destruct (itemAt_in_range _ _ H) as [url E]. rewrite E.
  eexists; split; [reflexivity|].
  unfold WBrowse.navigateToUrlInWBrowse, WBrowse.consistent; cbn.
  repeat split; try (rewrite E; destruct (String.eqb_spec url "internal:home"); congruence);
    by_comparisons.
Qed.

Lemma consistent_click (a : WBrowse.Action) (st : WBrowse.t) :
  WBrowse.consistent st ->
  exists st', WBrowse.click a st = Some st' /\ WBrowse.consistent st'.
Proof.
  intros C. pose proof C as (R & L & _). destruct a; cbn [WBrowse.click].
  - destruct (url =? "")%string; eauto using consistent_navigate_new.
  - destruct (Z.gtb_spec (WBrowse.currentIndex st) 0); [|eauto].
    destruct (consistent_navigateToEntry st (WBrowse.currentIndex st - 1))
      as (st' & E & C' & _); [lia|eauto].
  - destruct (Z.ltb_spec (WBrowse.currentIndex st)
                (Z.of_nat (List.length (WBrowse.history st)) - 1)); [|eauto].
    destruct (consistent_navigateToEntry st (WBrowse.currentIndex st + 1))
      as (st' & E & C' & _); [lia|eauto].
  - destruct (itemAt (WBrowse.history st) (WBrowse.currentIndex st)) as [u|] eqn:E;
      [|eauto].
    destruct (String.eqb_spec u "internal:home") as [->|_]; [|eauto].
    eexists; split; [reflexivity|].
    destruct C as (C1 & C2 & C3 & C4).
    unfold WBrowse.navigateToUrlInWBrowse, WBrowse.consistent; cbn.
    repeat split; auto; by_comparisons.
  - eauto using consistent_navigate_new.
Qed.

(** X17.  Whatever buttons of a W-Browse window are used, from its setup
    on: no click reads outside the history (so none throws), the position
    stays an entry of the history, the page shown is that entry, and the
    back and forward buttons are disabled exactly at the first and at the
    last entry. *)
Theorem wbrowse_history_stays_consistent (initialUrl : option string)
    (l : list WBrowse.Action) :
  exists st, WBrowse.clicks l (WBrowse.setup initialUrl) = Some st
             /\ WBrowse.consistent st.
Proof.
  assert (S : WBrowse.consistent (WBrowse.setup initialUrl)).
  { unfold WBrowse.setup. destruct initialUrl as [url|];
      [destruct (url =? "")%string|]; apply consistent_navigate_new. }
  revert S; generalize (WBrowse.setup initialUrl) as st.
  induction l as [|a rest IH]; intros st C; cbn [WBrowse.clicks]; [eauto|].
  destruct (consistent_click a st C) as (st' & E & C'). rewrite E. now apply IH.
Qed.



(** X19.  Loading a new address drops the entries after the current
    position and appends the address: the new page is the last entry of
    the history and Forward is disabled. *)
Theorem wbrowse_new_address_drops_forward_entries (url : string) (st : WBrowse.t) :
  WBrowse.consistent st -> url <> "" ->
  exists st', WBrowse.click (WBrowse.Go url) st = Some st'
              /\ WBrowse.history st'
                 = (firstn (Z.to_nat (WBrowse.currentIndex st + 1)) (WBrowse.history st)
                    ++ [url])%list
              /\ WBrowse.currentIndex st' = WBrowse.currentIndex st + 1
              /\ WBrowse.currentLoadingUrl st' = Some url
              /\ WBrowse.forwardDisabled st' = true.
Proof.
  intros (R & _) Hne. cbn [WBrowse.click].
  destruct (String.eqb_spec url ""); [contradiction|].
  eexists; split; [reflexivity|].
  unfold WBrowse.navigateToUrlInWBrowse. cbn [negb].
  set (h := WBrowse.history st) in *. set (i := WBrowse.currentIndex st) in *.
  assert (E : (if i <? Z.of_nat (List.length h) - 1 then slice0 (i + 1) h else h)
              = firstn (Z.to_nat (i + 1)) h).
  { destruct (Z.ltb_spec i (Z.of_nat (List.length h) - 1)).
    - unfold slice0. destruct (Z.ltb_spec (i + 1) 0); [lia|].
      now rewrite Z.min_l by lia.
    - replace (Z.to_nat (i + 1)) with (List.length h) by lia.
      now rewrite firstn_all. }
  rewrite E. cbn. rewrite length_app, length_firstn. cbn [List.length].
  repeat split; by_comparisons.
Qed.

Lemma wbrowse_new_address_drops_forward_entries_witness :
  exists st',
    WBrowse.click (WBrowse.Go "rocq-prover.org")
      (WBrowse.mk ["internal:home"; "example.org"] 0 (Some "internal:home") true false)
    = Some st'
    /\ WBrowse.history st'
       = (firstn (Z.to_nat (0 + 1)) ["internal:home"; "example.org"]
          ++ ["rocq-prover.org"])%list
    /\ WBrowse.currentIndex st' = 0 + 1
    /\ WBrowse.currentLoadingUrl st' = Some "rocq-prover.org"
    /\ WBrowse.forwardDisabled st' = true.
Proof.
  apply (wbrowse_new_address_drops_forward_entries "rocq-prover.org"
           (WBrowse.mk ["internal:home"; "example.org"] 0 (Some "internal:home")
              true false)).
  - unfold WBrowse.consistent; cbn. repeat split; lia.
  - discriminate.
Defined.

(** ** The command history of the Terminal *)

Lemma arrowUps_outside_adventure (k : nat) (st : Terminal.t) :
  Terminal.commandHistory st <> [] -> Terminal.adventureState st = None ->
  0 <= Terminal.historyIndex st ->
  let r := Terminal.arrowUps k st in
  Terminal.commandHistory (fst r) = Terminal.commandHistory st
  /\ Terminal.adventureState (fst r) = None
  /\ Terminal.historyIndex (fst r) = Z.max 0 (Terminal.historyIndex st - Z.of_nat k)
  /\ ((1 <= k)%nat ->
      snd r = Some (Terminal.recalled (Terminal.commandHistory st)
                      (Terminal.historyIndex (fst r)))).
Proof.
  intros Hne A H0. induction k as [|k IH].
  - cbn. repeat split; try assumption; lia.
  - cbv zeta in IH. destruct IH as (Ih & Ia & Ii & _).
    cbn [Terminal.arrowUps].
    set (st1 := fst (Terminal.arrowUps k st)) in *.
    unfold Terminal.arrowUp, Terminal.inAdventure. rewrite Ih, Ia.
    destruct (Terminal.commandHistory st) as [|c h] eqn:E; [contradiction|].
    cbn [List.length Nat.eqb negb andb fst snd Terminal.commandHistory
         Terminal.historyIndex Terminal.adventureState].
    rewrite Ii. repeat split; try lia.
Qed.

Lemma recalled_nth (h : list string) (j : nat) :
  (j < List.length h)%nat -> Terminal.recalled h (Z.of_nat j) = nth j h "".
Proof.
  intros H. unfold Terminal.recalled, itemAt.
  destruct (Z.ltb_spec (Z.of_nat j) 0); [lia|]. rewrite Nat2Z.id.
  destruct (nth_error h j) as [c|] eqn:E.
  - symmetry; now apply nth_error_nth.
  - apply nth_error_None in E; lia.
Qed.

(** X20.  Outside adventure mode, after [executeCommand] has run for a
    line of ASCII characters that is not blank and whose command is not
    'adventure', [k] presses of ArrowUp write the [k]-th most recent
    command line into the input field (the line just executed for
    [k = 1]); presses beyond the oldest line stay on the oldest.  (The
    command 'adventure' starts the adventure mode, in which ArrowUp
    recalls nothing.) *)
Theorem terminal_arrow_up_recalls (k : nat) (cmdLine : string) (st : Terminal.t) :
  Terminal.adventureState st = None ->
  isAscii cmdLine = true -> isBlank cmdLine = false ->
  toLowerCase (commandWord cmdLine) <> "adventure" ->
  (1 <= k)%nat ->
  let st1 := Terminal.executeCommand cmdLine st in
  let h := (Terminal.commandHistory st ++ [cmdLine])%list in
  Terminal.commandHistory st1 = h
  /\ Terminal.adventureState st1 = None
  /\ snd (Terminal.arrowUps k st1) = Some (nth (List.length h - k) h "").
Proof.
  intros A _ B W K st1 h.
  assert (E : st1 = Terminal.mk h (Z.of_nat (List.length h)) None).
  { unfold st1, Terminal.executeCommand. rewrite A, B. cbn [negb].
    destruct (String.eqb_spec (toLowerCase (commandWord cmdLine)) "adventure");
      [contradiction|reflexivity]. }
  split; [now rewrite E|]. split; [now rewrite E|].
  assert (Hne : Terminal.commandHistory st1 <> []).
  { rewrite E; cbn. unfold h. now destruct (Terminal.commandHistory st). }
  destruct (arrowUps_outside_adventure k st1 Hne) as (_ & _ & Ii & Iv);
    [rewrite E; reflexivity|rewrite E; cbn; lia|].
  rewrite (Iv K), Ii. rewrite E; cbn [Terminal.commandHistory Terminal.historyIndex].
  assert (L : (1 <= List.length h)%nat)
    by (unfold h; rewrite length_app; cbn; lia).
  replace (Z.max 0 (Z.of_nat (List.length h) - Z.of_nat k))
    with (Z.of_nat (List.length h - k)) by lia.
  f_equal. apply recalled_nth. lia.
Qed.

Lemma terminal_arrow_up_recalls_witness :
  Terminal.commandHistory
    (Terminal.executeCommand "echo hello" (Terminal.mk ["help"; "ls"] 2 None))
  = ["help"; "ls"; "echo hello"]
  /\ Terminal.adventureState
       (Terminal.executeCommand "echo hello" (Terminal.mk ["help"; "ls"] 2 None)) = None
  /\ snd (Terminal.arrowUps 2
            (Terminal.executeCommand "echo hello" (Terminal.mk ["help"; "ls"] 2 None)))
     = Some "ls".
Proof.
  refine (terminal_arrow_up_recalls 2 "echo hello" (Terminal.mk ["help"; "ls"] 2 None)
            eq_refl eq_refl eq_refl _ (le_S 1 1 (le_n 1))).
  discriminate.
Defined.

(** ** MiniTunes *)

Lemma ticks_to_end (n : nat) (i : Z) (p : bool) (t d : Z) :
  itemAt MusicPlayer.durations i = Some d -> (1 <= n)%nat -> t + Z.of_nat n = d ->
  MusicPlayer.ticks n (MusicPlayer.mk i p t)
  = Some (MusicPlayer.mk (Z.rem (i + 1) MusicPlayer.tracksLength) p 0).
Proof.
  intros D. revert t; induction n as [|n IH]; intros t N E; [lia|].
  cbn [MusicPlayer.ticks]. unfold MusicPlayer.tick.
  cbn [MusicPlayer.currentTrackIndex MusicPlayer.currentTime MusicPlayer.isPlaying].
  rewrite D. destruct (Z.geb_spec (t + 1) d).
  - destruct n; [reflexivity|lia].
  - apply IH; lia.
Qed.

Lemma ticks_before_end (n : nat) (i : Z) (p : bool) (t d : Z) :
  itemAt MusicPlayer.durations i = Some d -> t + Z.of_nat n < d ->
  MusicPlayer.ticks n (MusicPlayer.mk i p t) = Some (MusicPlayer.mk i p (t + Z.of_nat n)).
Proof.
  intros D. revert t; induction n as [|n IH]; intros t E.
  - cbn. now rewrite Z.add_0_r.
  - cbn [MusicPlayer.ticks]. unfold MusicPlayer.tick.
    cbn [MusicPlayer.currentTrackIndex MusicPlayer.currentTime MusicPlayer.isPlaying].
    rewrite D. destruct (Z.geb_spec (t + 1) d); [lia|].
    rewrite IH by lia. do 2 f_equal. lia.
Qed.

Lemma durations_positive (i d : Z) :
  itemAt MusicPlayer.durations i = Some d -> 0 <= i < 4 /\ 150 <= d.
Proof.
  unfold itemAt. destruct (Z.ltb_spec i 0); [discriminate|].
  intros E.
  assert (L : (Z.to_nat i < 4)%nat).
  { change 4%nat with (List.length MusicPlayer.durations).
    apply nth_error_Some. congruence. }
  assert (C : i = 0 \/ i = 1 \/ i = 2 \/ i = 3) by lia.
  destruct C as [-> | [-> | [-> | ->]]]; cbn in E; injection E as E; lia.
Qed.

(** X21.  A track played from its start shows the elapsed seconds while it
    lasts; at the tick that completes its duration the player moves to the
    start of the next track, and from the last track to the first. *)
Theorem miniTunes_plays_a_track_through (i d k : Z) (p : bool) :
  itemAt MusicPlayer.durations i = Some d -> 0 <= k < d ->
  MusicPlayer.ticks (Z.to_nat k) (MusicPlayer.mk i p 0) = Some (MusicPlayer.mk i p k)
  /\ MusicPlayer.ticks (Z.to_nat d) (MusicPlayer.mk i p 0)
     = Some (MusicPlayer.mk (if i =? 3 then 0 else i + 1) p 0).
Proof.
  intros D K. destruct (durations_positive i d D) as [R P]. split.
  - rewrite (ticks_before_end _ i p 0 d D) by lia. do 2 f_equal. lia.
  - rewrite (ticks_to_end _ i p 0 d D) by lia. do 2 f_equal.
    change MusicPlayer.tracksLength with 4.
    destruct (Z.eqb_spec i 3) as [->|N]; [reflexivity|].
    apply Z.rem_small; lia.
Qed.

Lemma miniTunes_plays_a_track_through_witness :
  MusicPlayer.ticks (Z.to_nat 149) (MusicPlayer.mk 3 true 0)
  = Some (MusicPlayer.mk 3 true 149)
  /\ MusicPlayer.ticks (Z.to_nat 150) (MusicPlayer.mk 3 true 0)
     = Some (MusicPlayer.mk 0 true 0).
Proof.
  apply (miniTunes_plays_a_track_through 3 150 149 true); [reflexivity|lia].
Defined.

(** X22.  With the track index inside the list, the previous-track button
    undoes the next-track button and the other way round, the first and
    the last track being neighbours, and both buttons keep the index
    inside the list. *)
Theorem miniTunes_prev_undoes_next (st : MusicPlayer.t) :
  0 <= MusicPlayer.currentTrackIndex st < 4 ->
  MusicPlayer.prev (MusicPlayer.next st)
  = MusicPlayer.mk (MusicPlayer.currentTrackIndex st) (MusicPlayer.isPlaying st) 0
  /\ MusicPlayer.next (MusicPlayer.prev st)
     = MusicPlayer.mk (MusicPlayer.currentTrackIndex st) (MusicPlayer.isPlaying st) 0
  /\ 0 <= MusicPlayer.currentTrackIndex (MusicPlayer.next st) < 4
  /\ 0 <= MusicPlayer.currentTrackIndex (MusicPlayer.prev st) < 4.
Proof.
  intros H. destruct st as [i p t]; cbn in H.
  assert (C : i = 0 \/ i = 1 \/ i = 2 \/ i = 3) by lia.
  destruct C as [-> | [-> | [-> | ->]]]; cbn; repeat split; lia.
Qed.

Lemma miniTunes_prev_undoes_next_witness :
  MusicPlayer.prev (MusicPlayer.next (MusicPlayer.mk 3 true 42)) = MusicPlayer.mk 3 true 0
  /\ MusicPlayer.next (MusicPlayer.prev (MusicPlayer.mk 3 true 42))
     = MusicPlayer.mk 3 true 0
  /\ 0 <= MusicPlayer.currentTrackIndex (MusicPlayer.next (MusicPlayer.mk 3 true 42)) < 4
  /\ 0 <= MusicPlayer.currentTrackIndex (MusicPlayer.prev (MusicPlayer.mk 3 true 42)) < 4.
Proof. apply (miniTunes_prev_undoes_next (MusicPlayer.mk 3 true 42)); cbn; lia. Defined.

(** ** What no operation takes away *)

Lemma keeps_refl (s : State) : keeps s s.
Proof. constructor; [lia|apply incl_refl]. Qed.

Lemma keeps_trans (s1 s2 s3 : State) : keeps s1 s2 -> keeps s2 s3 -> keeps s1 s3.
Proof. intros [N1 I1] [N2 I2]; constructor; [lia|eapply incl_tran; eauto]. Qed.

Lemma keeps_sameStack (s s' : State) : sameStack s s' -> keeps s s'.
Proof.
  intros [A N C]; constructor; [lia|].
  assert (E : map id (windows s') = map id (windows s))
    by (apply (map_via stackCore id (fun c => fst (fst c))); [reflexivity|exact C]).
  rewrite E; apply incl_refl.
Qed.

Lemma keeps_frame (s s' : State) : frame s s' -> keeps s s'.
Proof. intros H; now apply keeps_sameStack, frame_sameStack. Qed.

Lemma keeps_mutate (i : string) (f : AppWindow -> AppWindow) (s : State) :
  (forall w, id (f w) = id w) -> keeps s (mutate i f s).
Proof.
  intros Hf; constructor; simpl; [lia|].
  rewrite map_updateWindow by auto. apply incl_refl.
Qed.

Lemma keeps_focusWindow (o : option string) (s : State) : keeps s (focusWindow o s).
Proof.
  constructor.
  - destruct o as [i|]; [|simpl; lia].
    destruct (focusWindow_cases i s) as [[-> _]|[[-> _]|[-> _]]]; simpl; lia.
  - rewrite (map_focusWindow id) by reflexivity. apply incl_refl.
Qed.

Lemma keeps_closeWindow (i : string) (s : State) : keeps s (closeWindow i s).
Proof. apply keeps_sameStack, sameStack_closeWindow. Qed.

Lemma keeps_minimizeWindow (i : string) (s : State) : keeps s (minimizeWindow i s).
Proof.
  unfold minimizeWindow.
  destruct (getWindow i (windows s)) as [w|]; [|apply keeps_refl].
  destruct (negb (isMinimized w)); [|apply keeps_refl].
  match goal with
  | |- keeps s (if ?c then focusWindow None ?s1 else _) =>
      assert (K : keeps s s1) by (now apply keeps_mutate); destruct c
  end; [|exact K].
  eapply keeps_trans; [exact K|apply keeps_focusWindow].
Qed.

Lemma keeps_restoreWindow_ (openApp' : string -> State -> State) (i : string) (s : State) :
  (forall a s0, keeps s0 (openApp' a s0)) -> keeps s (restoreWindow_ openApp' i s).
Proof.
  intros Ho. unfold restoreWindow_.
  destruct (getWindow i (windows s)) as [w|]; [|apply keeps_refl].
  destruct (isMinimized w).
  - eapply keeps_trans; [|apply keeps_focusWindow].
    apply keeps_mutate. intros v; unfold reapplyOriginalPosition; cbn.
    now destruct (originalPosition v).
  - destruct (negb (isOpen w)); [apply Ho|apply keeps_focusWindow].
Qed.

Lemma ids_setWindow (w : AppWindow) (ws : Windows) :
  incl (map id ws) (map id (setWindow w ws)).
Proof.
  induction ws as [|x rest IH]; simpl; [intros i []|].
  destruct (String.eqb_spec (id x) (id w)) as [E|E]; simpl.
  - rewrite E. apply incl_refl.
  - intros i [<-|H]; [now left|right; now apply IH].
Qed.

Lemma keeps_createWindow_ (restore' : string -> State -> State) (options : Options.t)
    (env : Env) (s : State) :
  (forall i s0, keeps s0 (restore' i s0)) -> keeps s (createWindow_ restore' options env s).
Proof.
  intros Hr. unfold createWindow_.
  set (special := existsb (String.eqb _) _).
  assert (New : forall w, keeps s
            (focusWindow (Some (id w))
               (set_windows (setWindow w (windows (set_nextZIndex (nextZIndex s + 1) s)))
                  (set_nextZIndex (nextZIndex s + 1) s)))).
  { intros w. eapply keeps_trans; [|apply keeps_focusWindow].
    constructor; simpl; [lia|apply ids_setWindow]. }
  assert (Old : forall ex, keeps s
            (focusWindow (Some (id ex)) (if isMinimized ex then restore' (id ex) s else s))).
  { intros ex. eapply keeps_trans; [|apply keeps_focusWindow].
    destruct (isMinimized ex); [apply Hr|apply keeps_refl]. }
  destruct (findAppDef (Options.baseAppId options)) as [d|], special;
    try apply keeps_refl;
    (destruct (negb _ && existsb _ _);
     [destruct (find _ (windows s)); [apply Old|apply keeps_refl]
     |match goal with
      | |- keeps s (focusWindow (Some ?i) (set_windows (setWindow ?w _) _)) =>
          exact (New w)
      end]).
Qed.

Lemma keeps_openApp_ (restore' : string -> State -> State)
    (create' : Options.t -> Env -> State -> State) (appId : string) (env : Env) (s : State) :
  (forall i s0, keeps s0 (restore' i s0)) ->
  (forall o e s0, keeps s0 (create' o e s0)) ->
  keeps s (openApp_ restore' create' appId env s).
Proof.
  intros Hr Hc. unfold openApp_.
  destruct (findAppDef appId) as [d|]; [|apply keeps_refl].
  destruct (negb (AppDef.isLaunchable d)); [apply keeps_refl|].
  destruct (negb (AppDef.allowMultipleInstances d)),
           (filter (isOpenInstanceOf appId) (windows s));
    try apply Hr;
    (destruct (AppDef.contentTemplateId d);
     [destruct (negb (templateExists env _))|]; apply Hc).
Qed.

Lemma keeps_restoreWindowInner (i : string) (s : State) : keeps s (restoreWindowInner i s).
Proof. apply keeps_restoreWindow_. intros; apply keeps_refl. Qed.

Lemma keeps_createWindow (options : Options.t) (env : Env) (s : State) :
  keeps s (createWindow options env s).
Proof. apply keeps_createWindow_, keeps_restoreWindowInner. Qed.

Lemma keeps_openApp (appId : string) (env : Env) (s : State) :
  keeps s (openApp appId env s).
Proof. apply keeps_openApp_; [apply keeps_restoreWindowInner|apply keeps_createWindow]. Qed.

Lemma keeps_restoreWindow (env : Env) (i : string) (s : State) :
  keeps s (restoreWindow env i s).
Proof. apply keeps_restoreWindow_. intros; apply keeps_openApp. Qed.

Lemma keeps_dragMouseDown (i : string) (e : MouseEvent) (m : Layout) (s : State) :
  keeps s (dragMouseDown i e m s).
Proof.
  unfold dragMouseDown.
  set (s1 := match lookupWindow i s with Some w => _ | None => s end).
  assert (K : keeps s s1).
  { subst s1. destruct (lookupWindow i s) as [w|]; [|apply keeps_refl].
    destruct (negb (isActive (id w) s)); [apply keeps_focusWindow|apply keeps_refl]. }
  assert (P : forall p, keeps s (set_pointerSession p (set_snapIndicator true s1))).
  { intros p. destruct K as [N I]. constructor; simpl; assumption. }
  destruct (lookupWindow i s) as [w|]; [destruct (isMaximized w)|]; auto.
Qed.

Lemma keeps_run (ev : Event) (s : State) :
  (forall i, ev <> EvCloseTimeout i) -> keeps s (run ev s).
Proof.
  intros T. destruct ev; cbn [run].
  - apply keeps_openApp.
  - apply keeps_createWindow.
  - apply keeps_focusWindow.
  - apply keeps_closeWindow.
  - exfalso; exact (T i eq_refl).
  - apply keeps_minimizeWindow.
  - apply keeps_restoreWindow.
  - apply keeps_frame, frame_toggleMaximizeWindow.
  - eapply keeps_trans; [apply keeps_focusWindow|apply keeps_dragMouseDown].
  - eapply keeps_trans; [apply keeps_focusWindow|apply keeps_frame, frame_resizeMouseDown].
  - apply keeps_frame, frame_mouseMove.
  - apply keeps_frame, frame_mouseUp.
  - apply keeps_frame, frame_toggleDockVisibility.
Qed.

(** X23.  A record leaves the registry only when the timer of
    [closeWindow] fires: after any other operation every id that was in
    the registry is still there. *)
Theorem records_leave_only_by_close_timer (ev : Event) (s : State) (i : string) :
  (forall j, ev <> EvCloseTimeout j) ->
  hasWindow i (windows s) = true -> hasWindow i (windows (run ev s)) = true.
Proof.
  intros T H. destruct (keeps_run ev s T) as [_ I].
  unfold hasWindow in *.
  destruct (getWindow i (windows s)) as [w|] eqn:G; [|discriminate].
  assert (Hin : In i (map id (windows (run ev s)))).
  { apply I. rewrite <- (getWindow_id _ _ _ G). apply in_map.
    exact (getWindow_In _ _ _ G). }
  apply in_map_iff in Hin as (v & <- & Hv).
  now destruct (In_some_getWindow _ _ Hv) as [u ->].
Qed.

Lemma records_leave_only_by_close_timer_witness :
  hasWindow "Notepad-1" (windows (run (EvCloseWindow "Notepad-1") stateNotepad)) = true.
Proof.
  apply (records_leave_only_by_close_timer (EvCloseWindow "Notepad-1") stateNotepad
           "Notepad-1"); [discriminate|reflexivity].
Defined.

(** X24.  No operation of the window manager lowers [state.nextZIndex],
    the timer of [closeWindow] included. *)
Theorem nextZIndex_never_decreases (ev : Event) (s : State) :
  nextZIndex s <= nextZIndex (run ev s).
Proof.
  destruct ev; try (apply keeps_run; discriminate).
  cbn [run]. unfold closeTimeout.
  match goal with
  | |- _ <= nextZIndex (if ?c then _ else _) => destruct c
  end; simpl; lia.
Qed.

(** ** Dragging by the title bar *)

Lemma focusWindow_rest (o : option string) (s : State) :
  isDockVisible (focusWindow o s) = isDockVisible s
  /\ snapIndicator (focusWindow o s) = snapIndicator s
  /\ pointerSession (focusWindow o s) = pointerSession s.
Proof.
  destruct o as [i|]; [|repeat split].
  destruct (focusWindow_cases i s) as [[-> _]|[[-> _]|[-> _]]]; repeat split.
Qed.

(** The state in which a press on the title bar of [i] leaves the drag
    handler: [i] is focused and its record is the one of [s] but for
    zIndex and the class 'focused'. *)
Lemma focused_for_drag (i : string) (s : State) (w : AppWindow) :
  i <> "" -> getWindow i (windows s) = Some w ->
  let s0 := focusWindow (Some i) s in
  activeWindowId s0 = Some i
  /\ exists w0, getWindow i (windows s0) = Some w0 /\ id w0 = i
                /\ isMaximized w0 = isMaximized w
                /\ lookupWindow i s0 = Some w0
                /\ isActive (id w0) s0 = true.
Proof.
  intros Hne G s0.
  assert (A : activeWindowId s0 = Some i) by (now apply (focusWindow_active i s w)).
  assert (E : map (fun v => (id v, isMaximized v)) (windows s0)
              = map (fun v => (id v, isMaximized v)) (windows s))
    by (apply map_focusWindow; reflexivity).
  apply (getWindow_via (fun v => (id v, isMaximized v)) fst i) in E; [|reflexivity].
  rewrite G in E. destruct (getWindow i (windows s0)) as [w0|] eqn:G0; [|discriminate].
  cbn in E. injection E as Ei Em.
  split; [exact A|]. exists w0. repeat split; auto.
  - exact (getWindow_id _ _ _ G0).
  - unfold lookupWindow, hasWindow. rewrite G0.
    destruct (String.eqb_spec i ""); [contradiction|reflexivity].
  - unfold isActive. rewrite A, (getWindow_id _ _ _ G0). apply String.eqb_refl.
Qed.



(** X26.  Dragging a window by its title bar to a screen edge and
    releasing it there snaps the window: the press focuses it, the move
    marks the edge under the pointer (left before right before top), and
    the release writes the rectangle of that edge, clears the mark and
    ends the drag. *)
Theorem drag_to_edge_snaps (i : string) (e e' : MouseEvent) (m m' : Layout)
    (s : State) (w : AppWindow) (position : SnapPosition) :
  i <> "" -> getWindow i (windows s) = Some w -> isMaximized w = false ->
  snapCandidate e' m' = Some position ->
  let s3 := mouseUp (mouseMove e' m' (run (EvTitleBarMouseDown i e m) s)) in
  pointerSession s3 = None
  /\ activeWindowId s3 = Some i
  /\ exists w3, getWindow i (windows s3) = Some w3
                /\ geometry w3 = snapRectangle position (isDockVisible s)
                /\ isSnapping w3 = None /\ isMaximized w3 = false.
Proof.
  intros Hne G M C s3.
  destruct (focused_for_drag i s w Hne G) as (A & w0 & G0 & Ei & Em & L & Ac).
  destruct (focusWindow_rest (Some i) s) as (Dv & _ & _).
  set (s0 := focusWindow (Some i) s) in *.
  set (session := Dragging i true (clientX e - targetOffsetLeft m)
                    (clientY e - targetOffsetTop m)).
  assert (E1 : run (EvTitleBarMouseDown i e m) s
               = set_pointerSession (Some session) (set_snapIndicator true s0)).
  { cbn [run]. fold s0. unfold dragMouseDown. rewrite L, Ac; cbn [negb].
    now rewrite Em, M. }
  set (s1 := set_pointerSession (Some session) (set_snapIndicator true s0)) in *.
  set (f := fun v : AppWindow =>
              set_top (CssPx (draggedTop (clientY e - targetOffsetTop m) e' m' s1))
                (set_left (CssPx (draggedLeft (clientX e - targetOffsetLeft m) e' m')) v)).
  assert (E2 : mouseMove e' m' s1
               = mutate i (set_isSnapping (Some position)) (mutate i f s1)).
  { unfold mouseMove. cbn [pointerSession s1 set_pointerSession session].
    unfold dragMouseMove. fold (mutate i f s1).
    assert (Sh : showSnapIndicator position (mutate i f s1)
                 = mutate i (set_isSnapping (Some position)) (mutate i f s1)).
    { unfold showSnapIndicator. cbn [snapIndicator mutate set_windows s1
        set_pointerSession set_snapIndicator negb activeWindowId].
      rewrite A. destruct (String.eqb_spec i ""); [contradiction|reflexivity]. }
    unfold snapCandidate in C. cbv zeta.
    destruct (clientX e' <? 20); [injection C as <-; exact Sh|].
    destruct (clientX e' >? desktopClientWidth m' - 20); [injection C as <-; exact Sh|].
    destruct (clientY e' <? menuBarOffsetHeight m' + 20); [injection C as <-; exact Sh|].
    discriminate. }
  set (s2 := mutate i (set_isSnapping (Some position)) (mutate i f s1)) in *.
  assert (G2 : getWindow i (windows s2) = Some (set_isSnapping (Some position) (f w0))).
  { unfold s2. apply getWindow_mutate_same; [reflexivity|].
    apply getWindow_mutate_same; [reflexivity|exact G0]. }
  assert (E3 : s3 = applySnap i (set_pointerSession None s2)).
  { unfold s3. rewrite E1, E2. reflexivity. }
  destruct (applySnap_effect i (set_pointerSession None s2) _ position G2 eq_refl)
    as (w3 & G3 & Eg & _ & Es & Emx).
  rewrite E3. repeat split.
  - unfold applySnap. cbn [windows set_pointerSession]. now rewrite G2.
  - unfold applySnap. cbn [windows set_pointerSession]. rewrite G2. exact A.
  - exists w3. repeat split; auto. rewrite Eg. f_equal. exact Dv.
Qed.

Lemma drag_to_edge_snaps_witness :
  let s3 := mouseUp (mouseMove (mkMouseEvent 5 300) someLayout
                       (run (EvTitleBarMouseDown "Notepad-1" (mkMouseEvent 60 60) someLayout)
                          stateNotepad)) in
  pointerSession s3 = None
  /\ activeWindowId s3 = Some "Notepad-1"
  /\ exists w3, getWindow "Notepad-1" (windows s3) = Some w3
                /\ geometry w3 = snapRectangle SnapLeft (isDockVisible stateNotepad)
                /\ isSnapping w3 = None /\ isMaximized w3 = false.
Proof.
  refine (drag_to_edge_snaps "Notepad-1" (mkMouseEvent 60 60) (mkMouseEvent 5 300)
            someLayout someLayout stateNotepad
            (mkAppWindow "Notepad-1" "Notepad" "Notepad"
               (mkElement (mkGeometry (CssPx 50) (CssPx 50) CssNone CssNone)
                  false false true)
               false true 101 None false None)
            SnapLeft _ eq_refl eq_refl eq_refl).
  discriminate.
Defined.

(** ** Menu actions and shortcuts stay inside the event model *)

Lemma prefix_split (p s : string) :
  String.prefix p s = true -> s = (p ++ dropChars (String.length p) s)%string.
Proof.
  revert s; induction p as [|c p IH]; intros [|d s]; simpl; try discriminate; auto.
  destruct (ascii_dec c d) as [->|]; [|discriminate].
  intros H; f_equal; now apply IH.
Qed.

Lemma reachable_minimizeIfShown (s : State) (i : string) :
  reachable s -> reachable (minimizeIfShown s i).
Proof.
  intros R. unfold minimizeIfShown.
  destruct (getWindow i (windows s)) as [w|]; [|exact R].
  destruct (negb (isMinimized w) && isOpen w); [|exact R].
  exact (reachable_run s (EvMinimizeWindow i) R eq_refl).
Qed.

Lemma reachable_minimizeAll (s : State) : reachable s -> reachable (minimizeAll s).
Proof.
  unfold minimizeAll. generalize (map id (windows s)) as ids.
  intros ids; revert s; induction ids as [|i rest IH]; simpl; intros s R; [exact R|].
  now apply IH, reachable_minimizeIfShown.
Qed.

(** X27.  The menu actions modelled here and the window shortcuts are
    compositions of the events of the window manager: from a reachable
    state they lead to a reachable state, provided a 'focus-window-' action
    names a window that is not minimized (as every entry of the Window menu
    does).  Every invariant of the reachable states therefore holds after
    them. *)
Theorem menu_actions_and_shortcuts_stay_reachable (action key : string) (env : Env)
    (s s' : State) :
  reachable s ->
  (forall i, action = ("focus-window-" ++ i)%string -> notMinimized i s = true) ->
  handleMenuAction action env s = Some s' ->
  reachable s' /\ reachable (keyShortcut key s).
Proof.
  intros R F H. split.
  - unfold handleMenuAction in H.
    repeat match type of H with
           | (if ?c then _ else _) = Some _ => destruct c eqn:?
           end;
      try discriminate; injection H as <-;
      try exact (reachable_run s (EvOpenApp _ env) R eq_refl);
      try exact (reachable_run s EvToggleDockVisibility R eq_refl);
      try (now apply reachable_minimizeAll);
      try exact R.
    + destruct (activeWindow s) as [w|]; [|exact R].
      exact (reachable_run s (EvToggleMaximizeWindow (id w)) R eq_refl).
    + destruct (activeWindow s) as [w|]; [|exact R].
      exact (reachable_run s (EvCloseWindow (id w)) R eq_refl).
    + match goal with
      | P : startsWith "focus-window-" action = true |- _ =>
          pose proof (prefix_split _ _ P) as E
      end.
      assert (E' : replaceFirst "focus-window-" "" action
                   = dropChars (String.length "focus-window-") action)
        by (rewrite E at 1; apply replaceFirst_prefix).
      rewrite E'.
      apply (reachable_run s (EvFocusWindow _) R). cbn [enabled].
      apply F. exact E.
  - unfold keyShortcut.
    destruct (activeWindow s) as [w|]; [|exact R].
    destruct (isMinimized w); [exact R|].
    destruct (toLowerCase key =? "q")%string;
      [exact (reachable_run s (EvCloseWindow (id w)) R eq_refl)|].
    destruct (toLowerCase key =? "m")%string;
      [exact (reachable_run s (EvMinimizeWindow (id w)) R eq_refl)|exact R].
Qed.

Lemma menu_actions_and_shortcuts_stay_reachable_witness :
  reachable (minimizeAll stateNotepad) /\ reachable (keyShortcut "q" stateNotepad).
Proof.
  refine (menu_actions_and_shortcuts_stay_reachable "minimize-all" "q" (envAt 2)
            stateNotepad (minimizeAll stateNotepad) _ _ eq_refl).
  - exact (reachable_run initialState (EvOpenApp "Notepad" (envAt 1))
             reachable_initial eq_refl).
  - intros i E. discriminate E.
Defined.

(** ** Message windows and Spotlight *)



Lemma prefix_refl (x : string) : String.prefix x x = true.
Proof.
  induction x as [|c x IH]; simpl; [reflexivity|].
  destruct (ascii_dec c c); [exact IH|contradiction].
Qed.

Lemma includes_refl (x : string) : includes x x = true.
Proof.
  assert (U : forall n h, includes n h
                          = if String.prefix n h then true
                            else match h with
                                 | EmptyString => false
                                 | String _ rest => includes n rest
                                 end)
    by (intros n [|c h]; reflexivity).
  now rewrite U, prefix_refl.
Qed.

Lemma selected_first_ids (items : list SpotlightResult) :
  map resultAppId
    (match items with
     | [] => []
     | first :: rest => mkSpotlightResult (resultText first) (resultAppId first) true :: rest
     end)
  = map resultAppId items.
Proof. now destruct items. Qed.

(** X29.  Spotlight lists launchable apps only, so never the Trash or the
    App Library; and a query that is not blank and equals the id of a
    launchable app in any letter case lists that app. *)
Theorem spotlight_finds_launchable_apps_by_id (query : string) :
  (forall r, In r (filterSpotlightApps query) ->
     exists d, In d APP_DEFINITIONS /\ AppDef.id d = resultAppId r
               /\ AppDef.isLaunchable d = true)
  /\ (forall d, In d APP_DEFINITIONS -> AppDef.isLaunchable d = true ->
        isBlank query = false -> toLowerCase query = toLowerCase (AppDef.id d) ->
        In (AppDef.id d) (map resultAppId (filterSpotlightApps query))).
Proof.
  unfold filterSpotlightApps.
  set (items := map _ (filter (spotlightMatches (toLowerCase query)) _)).
  assert (Ids : map resultAppId items
                = map AppDef.id
                    (filter (spotlightMatches (toLowerCase query))
                       (filter AppDef.isLaunchable APP_DEFINITIONS)))
    by (unfold items; rewrite map_map; reflexivity).
  split.
  - intros r Hr. destruct (isBlank query); [contradiction|].
    apply (in_map resultAppId) in Hr.
    rewrite selected_first_ids, Ids in Hr.
    apply in_map_iff in Hr as (d & E & Hd). apply filter_In in Hd as [Hd _].
    apply filter_In in Hd as [Hd Hl]. eauto.
  - intros d Hin L B Q. rewrite B.
    rewrite selected_first_ids, Ids. apply in_map, filter_In. split.
    + apply filter_In; auto.
    + unfold spotlightMatches. rewrite Q, includes_refl.
      now rewrite orb_true_r.
Qed.

Lemma spotlight_finds_launchable_apps_by_id_witness :
  In "Notepad" (map resultAppId (filterSpotlightApps "NOTEPAD")).
Proof.
  refine (proj2 (spotlight_finds_launchable_apps_by_id "NOTEPAD")
            (AppDef.mk "Notepad" "Notepad" (Some "notepad-content") true true None None)
            _ eq_refl eq_refl eq_refl).
  simpl; tauto.
Defined.

(** ** Launching *)

(** X30.  [openApp] of a launchable app always ends with a window of that
    app focused, open and not minimized, whether it created the window or
    found an open one. *)
Theorem openApp_leaves_a_focused_open_window (appId : string) (env : Env) (s : State)
    (d : AppDef.t) :
  stacked s -> findAppDef appId = Some d -> AppDef.isLaunchable d = true ->
  exists w, activeWindow (openApp appId env s) = Some w
            /\ baseAppId w = appId /\ isOpen w = true /\ isMinimized w = false.
Proof.
  intros S D L.
  assert (Fin : forall j w', j <> "" -> activeWindowId (openApp appId env s) = Some j ->
                  getWindow j (windows (openApp appId env s)) = Some w' ->
                  activeWindow (openApp appId env s) = Some w').
  { intros j w' Hj A G. unfold activeWindow. rewrite A.
    destruct (String.eqb_spec j ""); [contradiction|exact G]. }
  destruct (AppDef.allowMultipleInstances d) eqn:M;
    [|destruct (filter (isOpenInstanceOf appId) (windows s)) as [|ex rest] eqn:F].
  3: { destruct (openApp_existing appId s d S D L M env ex rest F)
         as (_ & A & w' & G & Ho & Hm).
       destruct (filter_head_In _ _ _ _ F) as [Hin _].
       exists w'. unfold isOpenInstanceOf in Ho. apply andb_prop in Ho as [Hb Ho].
       apply String.eqb_eq in Hb.
       repeat split; auto. apply (Fin (id ex)); auto.
       now apply (In_id_nonempty s). }
  all: match goal with
       | |- _ =>
           assert (C : AppDef.allowMultipleInstances d = true
                       \/ filter (isOpenInstanceOf appId) (windows s) = []) by auto
       end;
    destruct (openApp_creates appId env s d D L C) as (options & Eb & Eo);
    rewrite <- Eb in D, C;
    destruct (createWindow_creates options env s d D C) as (windowEl & Ec);
    set (nw := newWindowOf options env s windowEl) in *;
    assert (G0 : getWindow (id nw)
                   (windows (set_windows (setWindow nw (windows s))
                               (set_nextZIndex (nextZIndex s + 1) s))) = Some nw)
      by (exact (getWindow_setWindow_same nw (windows s)));
    destruct (focus_existing (id nw) _ nw (windowId_nonempty _ _) G0)
      as (A & _ & w' & G & Eq);
    exists w'; unfold openCore in Eq; injection Eq as _ Hb Ho Hm;
    repeat split; try congruence;
    apply (Fin (id nw)); try (rewrite Eo, Ec); auto; apply windowId_nonempty.
Qed.

Lemma openApp_leaves_a_focused_open_window_witness :
  exists w, activeWindow (openApp "Settings" (envAt 2) stateNotepad) = Some w
            /\ baseAppId w = "Settings" /\ isOpen w = true /\ isMinimized w = false.
Proof.
  refine (openApp_leaves_a_focused_open_window "Settings" (envAt 2) stateNotepad
            (AppDef.mk "Settings" "System Settings" (Some "settings-content") true false
               (Some (CssPx 500)) (Some (CssPx 480)))
            _ eq_refl eq_refl).
  split; unfold uniqueIds, zBelowNext, uniqueZ, namedIds; simpl;
    repeat constructor; simpl; try lia; intuition discriminate.
Defined.
